(** * The Neo4j adapter of next-auth: coercion layer, transaction facade
      and adapter operations, embedded from
      [packages/adapter-neo4j/src/index.ts]. *)

From Stdlib Require Import ZArith QArith Lia Ascii String DecimalString DecimalZ.
From stdpp Require Import gmap strings list fin_maps.

Close Scope Q_scope.
Local Open Scope string_scope.

(** ** Regular expressions

    The fragment of JavaScript regular expressions that [isoDateRE] is
    written in: literals, character classes, [cs+], sequence and
    alternation.  There are no anchors and no flags. *)

Module RegExp.

Inductive charset :=
| CRange (lo hi : ascii)
| CSet (cs : list ascii).

Inductive regex :=
| Eps
| Lit (c : ascii)
| Cls (cs : charset)
| OneOrMore (cs : charset)
| Seq (r1 r2 : regex)
| Alt (r1 r2 : regex).

Definition in_charset (cs : charset) (c : ascii) : bool :=
  match cs with
  | CRange lo hi =>
      (N_of_ascii lo <=? N_of_ascii c)%N && (N_of_ascii c <=? N_of_ascii hi)%N
  | CSet l => existsb (Ascii.eqb c) l
  end.

(** Every remainder left after reading zero or more characters of [cs]. *)
Fixpoint many (cs : charset) (s : string) : list string :=
  s :: match s with
       | String c s' => if in_charset cs c then many cs s' else []
       | EmptyString => []
       end.

(** [matches r s]: every remainder of [s] left by a match of [r] that
    starts at the first character of [s]. *)
Fixpoint matches (r : regex) (s : string) : list string :=
  match r with
  | Eps => [s]
  | Lit c =>
      match s with
      | String c' s' => if Ascii.eqb c c' then [s'] else []
      | EmptyString => []
      end
  | Cls cs =>
      match s with
      | String c' s' => if in_charset cs c' then [s'] else []
      | EmptyString => []
      end
  | OneOrMore cs =>
      match s with
      | String c' s' => if in_charset cs c' then many cs s' else []
      | EmptyString => []
      end
  | Seq r1 r2 => flat_map (matches r2) (matches r1 s)
  | Alt r1 r2 => matches r1 s ++ matches r2 s
  end.

Definition matches_here (r : regex) (s : string) : bool :=
  match matches r s with
  | [] => false
  | _ :: _ => true
  end.

(** [RegExp.prototype.test]: is there a match starting at any index. *)
Fixpoint test (r : regex) (s : string) : bool :=
  matches_here r s ||
  match s with
  | String _ s' => test r s'
  | EmptyString => false
  end.

Fixpoint cat (rs : list regex) : regex :=
  match rs with
  | [] => Eps
  | r :: rs' => Seq r (cat rs')
  end.

(** [requires c r]: every word of [r] contains the character [c]. *)
Fixpoint requires (c : ascii) (r : regex) : bool :=
  match r with
  | Eps => false
  | Lit c' => Ascii.eqb c c'
  | Cls _ => false
  | OneOrMore _ => false
  | Seq r1 r2 => requires c r1 || requires c r2
  | Alt r1 r2 => requires c r1 && requires c r2
  end.

End RegExp.

Import RegExp.

(** [\d] *)
Definition digit : regex := Cls (CRange "0" "9").
Definition dash : regex := Lit "-".
Definition colon : regex := Lit ":".

(** [([+-][0-2]\d:[0-5]\d|Z)] *)
Definition zone : regex :=
  Alt (cat [Cls (CSet ["+"; "-"]%char); Cls (CRange "0" "2"); digit; colon;
            Cls (CRange "0" "5"); digit])
      (Lit "Z").

(** [\d{4}-[01]\d-[0-3]\dT[0-2]\d:[0-5]\d], the part the three
    alternatives of [isoDateRE] share. *)
Definition date_hour_minute : list regex :=
  [digit; digit; digit; digit; dash; Cls (CRange "0" "1"); digit; dash;
   Cls (CRange "0" "3"); digit; Lit "T"; Cls (CRange "0" "2"); digit; colon;
   Cls (CRange "0" "5"); digit].

Definition seconds : list regex := [colon; Cls (CRange "0" "5"); digit].

(** [isoDateRE], index.ts line 289. *)
Definition isoDateRE : regex :=
  Alt (cat (date_hour_minute ++ seconds ++
            [Lit "."; OneOrMore (CRange "0" "9"); zone]))
 (Alt (cat (date_hour_minute ++ seconds ++ [zone]))
      (cat (date_hour_minute ++ [zone]))).

(** ** JavaScript dates

    A Date holds a time value: an integral number of milliseconds since
    the epoch with magnitude at most 8.64e15, or NaN (an invalid Date). *)

Module JSDate.
Local Open Scope Z_scope.

Definition msPerDay : Z := 86400000.
Definition max_time : Z := 8640000000000000.

Definition valid_time (t : Z) : Prop := - max_time <= t <= max_time.

(** TimeClip: NaN (here [None]) outside the representable range. *)
Definition time_clip (t : Z) : option Z :=
  if (- max_time <=? t) && (t <=? max_time) then Some t else None.

(** The proleptic Gregorian calendar: day number since the epoch to
    (year, month, day of month), months and days counted from 1. *)
Definition civil_from_days (z : Z) : Z * Z * Z :=
  let z := z + 719468 in
  let era := z / 146097 in
  let doe := z mod 146097 in
  let yoe := (doe - doe / 1460 + doe / 36524 - doe / 146096) / 365 in
  let doy := doe - (365 * yoe + yoe / 4 - yoe / 100) in
  let mp := (5 * doy + 2) / 153 in
  let dd := doy - (153 * mp + 2) / 5 + 1 in
  let m := if mp <? 10 then mp + 3 else mp - 9 in
  (yoe + era * 400 + (if m <=? 2 then 1 else 0), m, dd).

Definition days_from_civil (y m dd : Z) : Z :=
  let y := y - (if m <=? 2 then 1 else 0) in
  let era := y / 400 in
  let yoe := y mod 400 in
  let doy := (153 * (if 2 <? m then m - 3 else m + 9) + 2) / 5 + dd - 1 in
  let doe := yoe * 365 + yoe / 4 - yoe / 100 + doy in
  era * 146097 + doe - 719468.

Definition leap_year (y : Z) : bool :=
  ((y mod 4 =? 0) && negb (y mod 100 =? 0)) || (y mod 400 =? 0).

Definition days_in_month (y m : Z) : Z :=
  if m =? 2 then (if leap_year y then 29 else 28)
  else if (m =? 4) || (m =? 6) || (m =? 9) || (m =? 11) then 30
  else 31.

Definition digit_char (n : Z) : ascii := ascii_of_N (48 + Z.to_N n).

Definition digit_val (c : ascii) : option Z :=
  let n := N_of_ascii c in
  if (48 <=? n)%N && (n <=? 57)%N then Some (Z.of_N n - 48) else None.

(** [put_digits k n rest]: the last [k] decimal digits of [n], most
    significant first, in front of [rest]. *)
Fixpoint put_digits (k : nat) (n : Z) (rest : string) : string :=
  match k with
  | O => rest
  | S k' => put_digits k' (n / 10) (String (digit_char (n mod 10)) rest)
  end.

(** Years 0 to 9999 print as four digits, all others as a sign and six. *)
Definition put_year (y : Z) (rest : string) : string :=
  if (0 <=? y) && (y <=? 9999) then put_digits 4 y rest
  else String (if 0 <=? y then "+"%char else "-"%char) (put_digits 6 (Z.abs y) rest).

(** [Date.prototype.toISOString] of a valid time value. *)
Definition toISOString (t : Z) : string :=
  let tod := t mod msPerDay in
  let '(y, m, dd) := civil_from_days (t / msPerDay) in
  put_year y (String "-" (put_digits 2 m (String "-" (put_digits 2 dd
    (String "T" (put_digits 2 (tod / 3600000)
    (String ":" (put_digits 2 (tod / 60000 mod 60)
    (String ":" (put_digits 2 (tod / 1000 mod 60)
    (String "." (put_digits 3 (tod mod 1000) "Z")))))))))))).

(** *** Parsing the ECMAScript date-time string format *)

Fixpoint take_digits (k : nat) (acc : Z) (s : string) : option (Z * string) :=
  match k with
  | O => Some (acc, s)
  | S k' =>
      match s with
      | String c s' =>
          match digit_val c with
          | Some v => take_digits k' (10 * acc + v) s'
          | None => None
          end
      | EmptyString => None
      end
  end.

Definition expect (c : ascii) (s : string) : option string :=
  match s with
  | String c' s' => if Ascii.eqb c c' then Some s' else None
  | EmptyString => None
  end.

Definition starts_with (c : ascii) (s : string) : bool :=
  match s with
  | String c' _ => Ascii.eqb c c'
  | EmptyString => false
  end.

Definition tail (s : string) : string :=
  match s with
  | String _ s' => s'
  | EmptyString => EmptyString
  end.

(** [YYYY], [+YYYYYY] or [-YYYYYY]; [-000000] is not a year. *)
Definition parse_year (s : string) : option (Z * string) :=
  if starts_with "+" s then take_digits 6 0 (tail s)
  else if starts_with "-" s then
    '(y, r) ← take_digits 6 0 (tail s);
    if y =? 0 then None else Some (- y, r)
  else take_digits 4 0 s.

(** An optional field of [k] digits introduced by [sep]. *)
Definition parse_optional (sep : ascii) (k : nat) (default : Z) (s : string)
  : option (Z * string) :=
  if starts_with sep s then take_digits k 0 (tail s) else Some (default, s).

Record clock := { hour : Z; minute : Z; second : Z; millisecond : Z }.

(** [THH:mm], [THH:mm:ss] or [THH:mm:ss.sss], or nothing. *)
Definition parse_time (s : string) : option (option clock * string) :=
  if starts_with "T" s then
    '(h, s1) ← take_digits 2 0 (tail s);
    s2 ← expect ":" s1;
    '(mi, s3) ← take_digits 2 0 s2;
    if starts_with ":" s3 then
      '(sec, s4) ← take_digits 2 0 (tail s3);
      '(ms, s5) ← parse_optional "." 3 0 s4;
      Some (Some {| hour := h; minute := mi; second := sec; millisecond := ms |}, s5)
    else
      Some (Some {| hour := h; minute := mi; second := 0; millisecond := 0 |}, s3)
  else Some (None, s).

(** [Z], [+HH:mm] or [-HH:mm], or nothing; the offset is returned as
    (sign, hours, minutes). *)
Definition parse_offset (s : string) : option (option (Z * Z * Z) * string) :=
  if starts_with "Z" s then Some (Some (1, 0, 0), tail s)
  else if starts_with "+" s || starts_with "-" s then
    '(h, s1) ← take_digits 2 0 (tail s);
    s2 ← expect ":" s1;
    '(mi, s3) ← take_digits 2 0 s2;
    Some (Some (if starts_with "+" s then 1 else -1, h, mi), s3)
  else Some (None, s).

Inductive parse_result :=
| Instant (t : Z)
| NotANumber
| HostDefined.

Definition clock_in_bounds (c : clock) : bool :=
  ((hour c <=? 23) && (minute c <=? 59) && (second c <=? 59)) ||
  ((hour c =? 24) && (minute c =? 0) && (second c =? 0) && (millisecond c =? 0)).

Definition clock_ms (c : clock) : Z :=
  hour c * 3600000 + minute c * 60000 + second c * 1000 + millisecond c.

Definition of_clip (r : option Z) : parse_result :=
  match r with
  | Some t => Instant t
  | None => NotANumber
  end.

(** What ECMA-262 fixes about [Date.parse]: a string in the date-time
    format denotes its instant, or NaN when an element is out of bounds
    or the instant cannot be represented.  Everything else is left to
    the host: strings outside the format, a date-time without offset
    (local time), and a day number beyond the length of its month (where
    engines differ). *)
Definition parse_iso (s : string) : parse_result :=
  match
    '(y, s1) ← parse_year s;
    '(m, s2) ← parse_optional "-" 2 1 s1;
    '(dd, s3) ← (if starts_with "-" s1 then parse_optional "-" 2 1 s2
                 else Some (1, s2));
    '(tm, s4) ← parse_time s3;
    '(off, s5) ← (if tm is Some _ then parse_offset s4 else Some (None, s4));
    if s5 is EmptyString then Some (y, m, dd, tm, off) else None
  with
  | None => HostDefined
  | Some (y, m, dd, tm, off) =>
      if negb ((1 <=? m) && (m <=? 12) && (1 <=? dd) && (dd <=? 31)) then NotANumber
      else if negb (dd <=? days_in_month y m) then HostDefined
      else
        let day := days_from_civil y m dd in
        match tm, off with
        | None, _ => of_clip (time_clip (day * msPerDay))
        | Some c, Some (sign, oh, om) =>
            if clock_in_bounds c && (oh <=? 23) && (om <=? 59)
            then of_clip (time_clip (day * msPerDay + clock_ms c
                                     - sign * (oh * 3600000 + om * 60000)))
            else NotANumber
        | Some c, None => HostDefined
        end
  end.

(** [Date.parse], given the host's treatment of what the standard
    leaves open. *)
Definition Date_parse (host : string → option Z) (s : string) : option Z :=
  match parse_iso s with
  | Instant t => Some t
  | NotANumber => None
  | HostDefined => host s ≫= time_clip
  end.

End JSDate.

(** ** Values

    A JavaScript number is kept by what it denotes.  The adapter does no
    arithmetic on numbers. *)

Inductive number :=
| NaN
| Infinity (negative : bool)
| Finite (q : Q).

(** The values that travel between the framework, the adapter and the
    driver.  [VInt] is the driver's 64-bit [Integer], [VDateTime] a
    temporal value of the store, kept as the instant it denotes (what the
    store compares) and the text its [toString] gives (what the coercion
    layer sees).  Arrays are not part of the model. *)
#[warnings="-register-all"]
Inductive value :=
| VUndefined
| VNull
| VBool (b : bool)
| VNum (n : number)
| VStr (s : string)
| VDate (t : option Z)
| VInt (i : Z)
| VDateTime (instant : Z) (rendering : string)
| VObj (o : gmap string value).

Abbreviation obj := (gmap string value).

Inductive error :=
| RangeError
| TypeError
| Neo4jError.

Inductive result (A : Type) :=
| Ok (a : A)
| Throw (e : error).
Arguments Ok {A} a.
Arguments Throw {A} e.

Global Instance result_bind : MBind result := λ A B k r,
  match r with
  | Ok a => k a
  | Throw e => Throw e
  end.

(** *** The driver's Integer *)

Module Integer.
Local Open Scope Z_scope.

Definition MAX_SAFE_VALUE : Z := 9007199254740991.
Definition MIN_SAFE_VALUE : Z := -9007199254740991.

Definition inSafeRange (i : Z) : bool :=
  (MIN_SAFE_VALUE <=? i) && (i <=? MAX_SAFE_VALUE).

(** The two 32-bit halves the driver stores. *)
Definition low (i : Z) : Z := i mod 2 ^ 32.
Definition high (i : Z) : Z := i / 2 ^ 32.

(** [toNumber]: [high * 2^32 + (low >>> 0)], which the double arithmetic
    of the driver computes without rounding inside the safe range. *)
Definition toNumber (i : Z) : number :=
  Finite (inject_Z (high i * 2 ^ 32 + low i)).

(** [toString] in radix 10. *)
Definition toString (i : Z) : string :=
  NilZero.string_of_int (Z.to_int i).

(** The integer a decimal text denotes. *)
Definition fromString (s : string) : option Z :=
  option_map Z.of_int (NilZero.int_of_string s).

End Integer.
(** ** The type coercion layer *)

Section Coercion.

(** What the host's [Date.parse] makes of the strings the standard leaves
    to it. *)
Variable host : string → option Z.

Definition number_truthy (n : number) : bool :=
  match n with
  | NaN => false
  | Infinity _ => true
  | Finite q => negb (Qeq_bool q 0)
  end.

(** ToBoolean. *)
Definition truthy (v : value) : bool :=
  match v with
  | VUndefined | VNull => false
  | VBool b => b
  | VNum n => number_truthy n
  | VStr s => negb (String.eqb s "")
  | VDate _ | VInt _ | VDateTime _ _ | VObj _ => true
  end.

(** ToString, where the model has the text.  A number prints with
    digits, [.], [-], [+], [e] or as [NaN] or [Infinity]; a Date prints
    weekday and month names first ([Tue Nov 03 2026 ...]).  Neither text
    can contain a match of [isoDateRE], which needs [T] after a digit, so
    the model does not produce them. *)
Definition ToString (v : value) : option string :=
  match v with
  | VUndefined => Some "undefined"
  | VNull => Some "null"
  | VBool b => Some (if b then "true" else "false")
  | VStr s => Some s
  | VInt i => Some (Integer.toString i)
  | VDateTime _ r => Some r
  | VObj _ => Some "[object Object]"
  | VNum _ | VDate _ => None
  end.

(** [isDate], index.ts line 292:
    [value && isoDateRE.test(value) && !isNaN(Date.parse(value))]. *)
Definition isDate (v : value) : bool :=
  truthy v &&
  match ToString v with
  | Some s => test isoDateRE s && bool_decide (is_Some (JSDate.Date_parse host s))
  | None => false
  end.

(** [new Date(value)] for a value that is not a number: the time value
    is what [Date.parse] gives for its text. *)
Definition new_Date (v : value) : value :=
  VDate (ToString v ≫= JSDate.Date_parse host).

Definition isInt (v : value) : bool :=
  match v with
  | VInt _ => true
  | _ => false
  end.

(** [value instanceof Date] with a time value that [toISOString]
    accepts; on an invalid Date it throws a RangeError. *)
Definition serialisable (v : value) : bool :=
  match v with
  | VDate None => false
  | _ => true
  end.

Definition to_field (v : value) : value :=
  match v with
  | VDate (Some t) => VStr (JSDate.toISOString t)
  | _ => v
  end.

(** [format.to], index.ts line 298. *)
Definition format_to (object : obj) : result obj :=
  if bool_decide (map_Forall (λ _ v, serialisable v = true) object)
  then Ok (to_field <$> object)
  else Throw RangeError.

(** The body of the loop of [format.from], index.ts lines 312 to 320. *)
Definition from_field (v : value) : value :=
  if isDate v then new_Date v
  else if isInt v then
    match v with
    | VInt i =>
        if Integer.inSafeRange i then VNum (Integer.toNumber i)
        else VStr (Integer.toString i)
    | _ => v
    end
  else v.

(** [format.from], index.ts line 308; [None] is null or undefined. *)
Definition format_from (object : option obj) : option obj :=
  match object with
  | None => None
  | Some o => Some (from_field <$> o)
  end.

End Coercion.

(** A host that recognises nothing beyond the standard format. *)
Definition standard_host : string → option Z := λ _, None.

(** ** The store

    A property graph: nodes with one label and a property map,
    relationships between node identities.  Both are kept in creation
    order, which is the order a match returns them in. *)

Inductive label := User | Account | Session | VerificationToken.
Inductive reltype := HAS_ACCOUNT | HAS_SESSION.

Global Instance label_eq_dec : EqDecision label.
Proof. solve_decision. Defined.
Global Instance reltype_eq_dec : EqDecision reltype.
Proof. solve_decision. Defined.

Record node := { node_id : nat; node_label : label; node_props : obj }.
Record rel := { rel_src : nat; rel_type : reltype; rel_dst : nat }.
Record graph := { nodes : list node; rels : list rel; next_id : nat }.

(** A returned record: its columns in order. *)
Abbreviation record := (list (string * value)).

(** The Cypher clauses the statements of the adapter are written with,
    as functions on the store. *)
Module Cypher.

Definition number_eqb (a b : number) : bool :=
  match a, b with
  | Finite p, Finite q => Qeq_bool p q
  | Infinity x, Infinity y => Bool.eqb x y
  | _, _ => false
  end.

(** [a = b] holds.  Null equals nothing, values of different types are
    different, integers and floats compare by value. *)
Definition equal (a b : value) : bool :=
  match a, b with
  | VStr x, VStr y => String.eqb x y
  | VBool x, VBool y => Bool.eqb x y
  | VNum x, VNum y => number_eqb x y
  | VInt x, VInt y => Z.eqb x y
  | VInt x, VNum y => number_eqb (Finite (inject_Z x)) y
  | VNum x, VInt y => number_eqb x (Finite (inject_Z y))
  | VDateTime x _, VDateTime y _ => Z.eqb x y
  | _, _ => false
  end.

(** [$m.k]: a key that is absent, or undefined (which the driver does
    not send), reads as null. *)
Definition param (m : obj) (k : string) : value :=
  match m !! k with
  | None | Some VUndefined => VNull
  | Some v => v
  end.

Definition param_map (m : obj) (k : string) : obj :=
  match m !! k with
  | Some (VObj o) => o
  | _ => ∅
  end.

Definition is_null (v : value) : bool :=
  match v with
  | VNull | VUndefined => true
  | _ => false
  end.

(** What a property can hold.  A nested object is refused by the store; a
    Date that reaches the driver unserialised is taken to be refused as
    well. *)
Definition storable (v : value) : bool :=
  match v with
  | VDate _ | VObj _ => false
  | _ => true
  end.

Definition check_storable (m : obj) : result unit :=
  if bool_decide (map_Forall (λ _ v, storable v = true) m) then Ok tt
  else Throw Neo4jError.

(** The properties a map sets: null entries set nothing. *)
Definition non_null (m : obj) : obj :=
  omap (λ v, if is_null v then None else Some v) m.

Definition overwrite (old new : option value) : option value :=
  match new with
  | None | Some VUndefined => old
  | Some VNull => None
  | Some v => Some v
  end.

(** [SET n += m]: entries of [m] replace those of [n], null removes. *)
Definition set_merge (props m : obj) : obj := merge overwrite props m.

(** [datetime(text)]: the instant an ISO 8601 date-time with an offset
    denotes. *)
Definition datetime (v : value) : result Z :=
  match v with
  | VStr s =>
      match JSDate.parse_iso s with
      | JSDate.Instant t => Ok t
      | _ => Throw Neo4jError
      end
  | _ => Throw Neo4jError
  end.

(** [p <= datetime] as a WHERE condition.  Cypher orders values of one
    type: two temporal values compare by instant, while a property that
    is absent, or is a string, a number or a boolean, compares to a
    temporal value as null, and WHERE drops the row. *)
Definition le_datetime (p : option value) (t : Z) : bool :=
  match p with
  | Some (VDateTime i _) => (i <=? t)%Z
  | _ => false
  end.

(** A node has the properties of a pattern [{k: v, ...}]. *)
Definition has_props (pat : list (string * value)) (n : node) : bool :=
  forallb (λ kv, match node_props n !! kv.1 with
                 | Some pv => equal pv kv.2
                 | None => false
                 end) pat.

(** [MATCH (n:l {pat})]. *)
Definition match_nodes (l : label) (pat : list (string * value)) (g : graph)
  : list node :=
  List.filter (λ n, bool_decide (node_label n = l) && has_props pat n) (nodes g).

Definition node_at (g : graph) (id : nat) : option node :=
  List.find (λ n, Nat.eqb (node_id n) id) (nodes g).

(** [MATCH (u:User)-[:t]->(x:l {pat})]. *)
Definition match_owned (t : reltype) (l : label) (pat : list (string * value))
  (g : graph) : list (node * node) :=
  omap (λ r,
    if bool_decide (rel_type r = t) then
      u ← node_at g (rel_src r);
      x ← node_at g (rel_dst r);
      if bool_decide (node_label u = User) && bool_decide (node_label x = l)
         && has_props pat x
      then Some (u, x) else None
    else None) (rels g).

Definition mem (id : nat) (ids : list nat) : bool := existsb (Nat.eqb id) ids.

(** [DETACH DELETE]: the nodes go, and every relationship at them. *)
Definition detach_delete (ids : list nat) (g : graph) : graph :=
  {| nodes := List.filter (λ n, negb (mem (node_id n) ids)) (nodes g);
     rels := List.filter (λ r, negb (mem (rel_src r) ids) && negb (mem (rel_dst r) ids))
                         (rels g);
     next_id := next_id g |}.

(** [SET] on the nodes with the given identities. *)
Definition update_props (ids : list nat) (f : obj → obj) (g : graph) : graph :=
  {| nodes := map (λ n, if mem (node_id n) ids
                        then {| node_id := node_id n; node_label := node_label n;
                                node_props := f (node_props n) |}
                        else n) (nodes g);
     rels := rels g;
     next_id := next_id g |}.

(** [CREATE (n:l props)]. *)
Definition create_node (l : label) (props : obj) (g : graph) : graph * node :=
  let n := {| node_id := next_id g; node_label := l; node_props := props |} in
  ({| nodes := nodes g ++ [n]; rels := rels g; next_id := S (next_id g) |}, n).

Definition has_rel (src : nat) (t : reltype) (dst : nat) (g : graph) : bool :=
  existsb (λ r, Nat.eqb (rel_src r) src && bool_decide (rel_type r = t)
                && Nat.eqb (rel_dst r) dst) (rels g).

(** [CREATE (src)-[:t]->(dst)]. *)
Definition create_rel (src : nat) (t : reltype) (dst : nat) (g : graph) : graph :=
  {| nodes := nodes g;
     rels := rels g ++ [{| rel_src := src; rel_type := t; rel_dst := dst |}];
     next_id := next_id g |}.

(** [MERGE (src)-[:t]->(dst)]. *)
Definition merge_rel (src : nat) (t : reltype) (dst : nat) (g : graph) : graph :=
  if has_rel src t dst g then g else create_rel src t dst g.

(** [MERGE (n:l {pat})]: the nodes that match, or a new one. *)
Definition merge_node (l : label) (pat : list (string * value)) (g : graph)
  : result (graph * list node) :=
  if existsb (λ kv, is_null kv.2) pat then Throw Neo4jError
  else match match_nodes l pat g with
       | [] => let '(g', n) := create_node l (list_to_map pat) g in Ok (g', [n])
       | ns => Ok (g, ns)
       end.

(** [n{.*, k: v}] *)
Definition project (n : node) (k : string) (v : option value) : value :=
  VObj (<[k := default VNull v]> (node_props n)).

End Cypher.

(** ** The transaction facade and the adapter *)

Section Adapter.

Variable host : string → option Z.

Import Cypher.

(** A statement, as a function of its parameters and the store. *)
Abbreviation statement := (obj → graph → result (graph * list record)).
Abbreviation query := (obj → graph → list record).

Definition toObject (r : record) : obj := list_to_map r.

(** The columns of the statements below are all map projections. *)
Definition as_object (v : value) : option obj :=
  match v with
  | VObj o => Some o
  | _ => None
  end.

(** [result?.k] *)
Definition field (result : option obj) (k : string) : option value :=
  match result with
  | Some o => o !! k
  | None => None
  end.

(** [records[0]?.get(0)] *)
Definition first_column (records : list record) : option value :=
  match records with
  | ((_, v) :: _) :: _ => Some v
  | _ => None
  end.

(** [client.read], index.ts line 330:
    [format.from(result?.records[0]?.get(0)) ?? null]. *)
Definition read (q : query) (values : obj) (g : graph) : option obj :=
  format_from host (first_column (q values g) ≫= as_object).

(** [client.write], index.ts line 341: the statement sees
    [format.to(values)] as [$data]; the first record comes back through
    [format.from].  A statement that throws leaves the store as it was. *)
Definition write (stmt : statement) (values : obj) (g : graph)
  : result (graph * option obj) :=
  data ← format_to values;
  '(g', records) ← stmt data g;
  Ok (g', format_from host (toObject <$> head records)).

(** *** Users *)

(** [CREATE (u:User $data)] *)
Definition createUser_stmt : statement := λ data g,
  _ ← check_storable data;
  Ok ((create_node User (non_null data) g).1, []).

(** [createUser], index.ts line 132; [uuid] is what [crypto.randomUUID()]
    returned. *)
Definition createUser (uuid : string) (data : obj) (g : graph)
  : result (graph * obj) :=
  let user := data ∪ {["id" := VStr uuid]} in
  '(g', _) ← write createUser_stmt user g;
  Ok (g', user).

(** [MATCH (u:User { id: $id }) RETURN u{.*}] *)
Definition getUser_query : query := λ values g,
  map (λ u, [("u", VObj (node_props u))])
      (match_nodes User [("id", param values "id")] g).

Definition getUser (id : string) (g : graph) : option obj :=
  read getUser_query {["id" := VStr id]} g.

(** [MATCH (u:User { email: $email }) RETURN u{.*}] *)
Definition getUserByEmail_query : query := λ values g,
  map (λ u, [("u", VObj (node_props u))])
      (match_nodes User [("email", param values "email")] g).

Definition getUserByEmail (email : string) (g : graph) : option obj :=
  read getUserByEmail_query {["email" := VStr email]} g.

Definition account_key (m : obj) : list (string * value) :=
  [("providerAccountId", param m "providerAccountId");
   ("provider", param m "provider")].

(** [MATCH (u:User)-[:HAS_ACCOUNT]->(a:Account { provider: $provider,
    providerAccountId: $providerAccountId }) RETURN u{.*}] *)
Definition getUserByAccount_query : query := λ values g,
  map (λ ua, [("u", VObj (node_props ua.1))])
      (match_owned HAS_ACCOUNT Account (account_key values) g).

Definition getUserByAccount (provider_providerAccountId : obj) (g : graph)
  : option obj :=
  read getUserByAccount_query provider_providerAccountId g.

(** [MATCH (u:User { id: $data.id }) SET u += $data RETURN u{.*}] *)
Definition updateUser_stmt : statement := λ data g,
  let users := match_nodes User [("id", param data "id")] g in
  _ ← (if users is [] then Ok tt else check_storable data);
  Ok (update_props (map node_id users) (λ props, set_merge props data) g,
      map (λ u, [("u", VObj (set_merge (node_props u) data))]) users).

(** [updateUser], index.ts line 161: [(await write(...)).u]. *)
Definition updateUser (data : obj) (g : graph) : result (graph * value) :=
  '(g', result) ← write updateUser_stmt data g;
  match result with
  | None => Throw TypeError
  | Some r => Ok (g', default VUndefined (r !! "u"))
  end.

(** [MATCH (u:User { id: $data.id }) WITH u, u{.*} AS properties
    DETACH DELETE u RETURN properties] *)
Definition deleteUser_stmt : statement := λ data g,
  let users := match_nodes User [("id", param data "id")] g in
  Ok (detach_delete (map node_id users) g,
      map (λ u, [("properties", VObj (node_props u))]) users).

Definition deleteUser (id : string) (g : graph) : result (graph * option obj) :=
  write deleteUser_stmt {["id" := VStr id]} g.

(** *** Accounts *)

(** [MATCH (u:User { id: $data.userId })
    MERGE (a:Account { providerAccountId: $data.a.providerAccountId,
                       provider: $data.a.provider })
    SET a += $data.a
    MERGE (u)-[:HAS_ACCOUNT]->(a)] *)
Definition linkAccount_stmt : statement := λ data g,
  let users := match_nodes User [("id", param data "userId")] g in
  let a := param_map data "a" in
  '(g1, rows) ← foldl (λ acc u,
      '(g, rows) ← acc;
      '(g', accounts) ← merge_node Account (account_key a) g;
      Ok (g', (rows ++ map (λ x, (node_id u, node_id x)) accounts)%list))
    (Ok (g, [])) users;
  _ ← (if rows is [] then Ok tt else check_storable a);
  let g2 := update_props (map snd rows) (λ props, set_merge props a) g1 in
  Ok (foldl (λ g ux, merge_rel ux.1 HAS_ACCOUNT ux.2 g) g2 rows, []).

(** [linkAccount], index.ts line 182: [const { userId, ...a } = data]. *)
Definition linkAccount (data : obj) (g : graph) : result (graph * obj) :=
  let values : obj :=
    {[ "userId" := default VUndefined (data !! "userId");
       "a" := VObj (delete "userId" data) ]} in
  '(g', _) ← write linkAccount_stmt values g;
  Ok (g', data).

(** [MATCH (u:User)-[:HAS_ACCOUNT]->(a:Account { providerAccountId:
    $data.providerAccountId, provider: $data.provider })
    WITH u, a, properties(a) AS properties DETACH DELETE a
    RETURN properties { .*, userId: u.id }] *)
Definition unlinkAccount_stmt : statement := λ data g,
  let rows := match_owned HAS_ACCOUNT Account (account_key data) g in
  Ok (detach_delete (map (λ ua, node_id ua.2) rows) g,
      map (λ ua, [("properties", project ua.2 "userId" (node_props ua.1 !! "id"))])
          rows).

Definition unlinkAccount (provider_providerAccountId : obj) (g : graph)
  : result (graph * option obj) :=
  write unlinkAccount_stmt provider_providerAccountId g.

(** *** Sessions *)

(** [MATCH (u:User { id: $data.userId }) CREATE (s:Session)
    SET s = $data.s CREATE (u)-[:HAS_SESSION]->(s)] *)
Definition createSession_stmt : statement := λ data g,
  let users := match_nodes User [("id", param data "userId")] g in
  let s := param_map data "s" in
  _ ← (if users is [] then Ok tt else check_storable s);
  Ok (foldl (λ g u,
        let '(g', n) := create_node Session (non_null s) g in
        create_rel (node_id u) HAS_SESSION (node_id n) g') g users, []).

(** [createSession], index.ts line 210:
    [const { userId, ...s } = format.to(data)]. *)
Definition createSession (data : obj) (g : graph) : result (graph * obj) :=
  fields ← format_to data;
  let values : obj :=
    {[ "userId" := default VUndefined (fields !! "userId");
       "s" := VObj (delete "userId" fields) ]} in
  '(g', _) ← write createSession_stmt values g;
  Ok (g', data).

Definition session_pattern (data : obj) : list (string * value) :=
  [("sessionToken", param data "sessionToken")].

Definition session_row (us : node * node) : record :=
  [("session", project us.2 "userId" (node_props us.1 !! "id"));
   ("user", VObj (node_props us.1))].

(** [OPTIONAL MATCH (u:User)-[:HAS_SESSION]->(s:Session { sessionToken:
    $data.sessionToken }) WHERE s.expires <= datetime($data.now)
    DETACH DELETE s
    WITH count(s) AS c
    MATCH (u:User)-[:HAS_SESSION]->(s:Session { sessionToken:
    $data.sessionToken })
    RETURN s { .*, userId: u.id } AS session, u{.*} AS user] *)
Definition getSessionAndUser_stmt : statement := λ data g,
  now ← datetime (param data "now");
  let expired :=
    List.filter (λ us, le_datetime (node_props us.2 !! "expires") now)
                (match_owned HAS_SESSION Session (session_pattern data) g) in
  let g' := detach_delete (map (λ us, node_id us.2) expired) g in
  Ok (g', map session_row (match_owned HAS_SESSION Session (session_pattern data) g')).

(** [getSessionAndUser], index.ts line 222; [now] is the time value of
    [new Date()].  The result is null ([None]) or the pair of
    [format.from(result.session)] and [format.from(result.user)]. *)
Definition getSessionAndUser (now : Z) (sessionToken : string) (g : graph)
  : result (graph * option (option obj * option obj)) :=
  '(g', result) ← write getSessionAndUser_stmt
     {[ "sessionToken" := VStr sessionToken;
        "now" := VStr (JSDate.toISOString now) ]} g;
  match field result "session", field result "user" with
  | Some s, Some u =>
      if truthy s && truthy u
      then Ok (g', Some (format_from host (as_object s), format_from host (as_object u)))
      else Ok (g', None)
  | _, _ => Ok (g', None)
  end.

(** [MATCH (u:User)-[:HAS_SESSION]->(s:Session { sessionToken:
    $data.sessionToken }) SET s += $data RETURN s { .*, userId: u.id }] *)
Definition updateSession_stmt : statement := λ data g,
  let rows := match_owned HAS_SESSION Session (session_pattern data) g in
  _ ← (if rows is [] then Ok tt else check_storable data);
  Ok (update_props (map (λ us, node_id us.2) rows) (λ props, set_merge props data) g,
      map (λ us, [("s", VObj (<["userId" := default VNull (node_props us.1 !! "id")]>
                               (set_merge (node_props us.2) data)))]) rows).

Definition updateSession (data : obj) (g : graph) : result (graph * option obj) :=
  write updateSession_stmt data g.

(** [MATCH (u:User)-[:HAS_SESSION]->(s:Session { sessionToken:
    $data.sessionToken }) WITH u, s, properties(s) AS properties
    DETACH DELETE s RETURN properties { .*, userId: u.id }] *)
Definition deleteSession_stmt : statement := λ data g,
  let rows := match_owned HAS_SESSION Session (session_pattern data) g in
  Ok (detach_delete (map (λ us, node_id us.2) rows) g,
      map (λ us, [("properties", project us.2 "userId" (node_props us.1 !! "id"))])
          rows).

Definition deleteSession (sessionToken : string) (g : graph)
  : result (graph * option obj) :=
  write deleteSession_stmt {["sessionToken" := VStr sessionToken]} g.

(** *** Verification tokens *)

Definition token_key (data : obj) : list (string * value) :=
  [("identifier", param data "identifier"); ("token", param data "token")].

(** [MERGE (v:VerificationToken { identifier: $data.identifier,
    token: $data.token }) SET v = $data] *)
Definition createVerificationToken_stmt : statement := λ data g,
  '(g1, vs) ← merge_node VerificationToken (token_key data) g;
  _ ← check_storable data;
  Ok (update_props (map node_id vs) (λ _, non_null data) g1, []).

Definition createVerificationToken (data : obj) (g : graph)
  : result (graph * obj) :=
  '(g', _) ← write createVerificationToken_stmt data g;
  Ok (g', data).

(** [MATCH (v:VerificationToken { identifier: $data.identifier,
    token: $data.token }) WITH v, properties(v) as properties
    DETACH DELETE v RETURN properties] *)
Definition useVerificationToken_stmt : statement := λ data g,
  let vs := match_nodes VerificationToken (token_key data) g in
  Ok (detach_delete (map node_id vs) g,
      map (λ v, [("properties", VObj (node_props v))]) vs).

(** [useVerificationToken], index.ts line 272:
    [format.from(result?.properties)]. *)
Definition useVerificationToken (data : obj) (g : graph)
  : result (graph * option obj) :=
  '(g', result) ← write useVerificationToken_stmt data g;
  Ok (g', format_from host (field result "properties" ≫= as_object)).

End Adapter.

Definition empty_graph : graph := {| nodes := []; rels := []; next_id := 0 |}.

(** ** The vocabulary of the properties *)

Import JSDate Cypher.

(** [c] occurs in [s]. *)
Fixpoint occurs (c : ascii) (s : string) : bool :=
  match s with
  | EmptyString => false
  | String c' s' => Ascii.eqb c c' || occurs c s'
  end.

Local Open Scope Z_scope.

(** Month and day of month of a day of the year that starts on 1 March. *)
Definition month_of (doy : Z) : Z * Z :=
  let mp := (5 * doy + 2) / 153 in
  (if mp <? 10 then mp + 3 else mp - 9, doy - (153 * mp + 2) / 5 + 1).

(** [month_of] gives a month and a day in it, and the day of the year
    can be read back from them; day 365 is 29 February. *)
Definition month_check (doy : Z) : bool :=
  let '(m, dd) := month_of doy in
  (1 <=? m) && (m <=? 12) && (1 <=? dd) &&
  ((dd <=? days_in_month 1 m) || ((doy =? 365) && (m =? 2) && (dd =? 29))) &&
  ((153 * (if 2 <? m then m - 3 else m + 9) + 2) / 5 + dd - 1 =? doy).

Local Close Scope Z_scope.

(** A canonical record, in the words of the specification: timestamps
    are valid Dates, nothing is a value of the store, the record is
    flat. *)
Definition canonical_value (v : value) : Prop :=
  match v with
  | VDate t => exists i, t = Some i /\ valid_time i
  | VInt _ | VDateTime _ _ | VObj _ => False
  | _ => True
  end.

Definition canonical_record (R : obj) : Prop :=
  map_Forall (fun _ v => canonical_value v) R.

Definition dated_name : obj := {[ "name" := VStr "2020-01-01T00:00:00.000Z" ]}.

Definition sample_user : obj :=
  {[ "name" := VStr "Ann"; "age" := VNum (Finite 41);
     "emailVerified" := VDate (Some 1600000000000%Z) ]}.

(** The fields that survive [format.to] followed by [format.from]: a
    valid Date, or a value [format.from] leaves alone. *)
Definition round_trips (host : string -> option Z) (v : value) : Prop :=
  match v with
  | VDate t => exists i, t = Some i /\ valid_time i
  | _ => isDate host v = false /\ isInt v = false
  end.

(** The values an entity can carry at the top level of an input: after
    [format.to] each of them is a property the store accepts. *)
Definition plain (v : value) : bool :=
  match v with
  | VDate None | VObj _ => false
  | _ => true
  end.

(** Sample stores and inputs. *)
Definition token_graph : graph :=
  {| nodes := [ {| node_id := 0; node_label := VerificationToken;
                   node_props := {[ "identifier" := VStr "ann@example.com";
                                    "token" := VStr "s3cret";
                                    "expires" := VStr "2030-01-01T00:00:00.000Z" ]} |} ];
     rels := []; next_id := 1 |}.

(** The cascade the specification asks of [deleteUser]: no node the user
    owned is left. *)
Definition removes_owned (host : string → option Z) (id : string) (g : graph) : Prop :=
  ∀ g' r, deleteUser host id g = Ok (g', r) →
  ∀ t l u x, In (u, x) (match_owned t l [] g) →
             In u (match_nodes User [("id", VStr id)] g) → ¬ In x (nodes g').

Definition ann : node :=
  {| node_id := 0; node_label := User;
     node_props := {[ "id" := VStr "u1"; "name" := VStr "Ann" ]} |}.
Definition ann_session : node :=
  {| node_id := 1; node_label := Session;
     node_props := {[ "sessionToken" := VStr "tok";
                      "expires" := VStr "2030-01-01T00:00:00.000Z" ]} |}.
Definition ann_account : node :=
  {| node_id := 2; node_label := Account;
     node_props := {[ "provider" := VStr "github"; "providerAccountId" := VStr "42" ]} |}.

Definition linked_graph : graph :=
  {| nodes := [ann; ann_session; ann_account];
     rels := [ {| rel_src := 0; rel_type := HAS_SESSION; rel_dst := 1 |};
               {| rel_src := 0; rel_type := HAS_ACCOUNT; rel_dst := 2 |} ];
     next_id := 3 |}.

(** No two nodes share an identity. *)
Definition unique_ids (g : graph) : Prop := List.NoDup (map node_id (nodes g)).

Definition expired_session : obj :=
  {[ "sessionToken" := VStr "tok"; "userId" := VStr "u1";
     "expires" := VDate (Some 1600000000000%Z) ]}.

Definition ann_alone : graph :=
  {| nodes := [ann]; rels := []; next_id := 1 |}.

Definition ann_logged_in : graph :=
  {| nodes := [ann;
               {| node_id := 1; node_label := Session;
                  node_props := {[ "sessionToken" := VStr "tok";
                                   "expires" := VStr "2020-09-13T12:26:40.000Z" ]} |}];
     rels := [ {| rel_src := 0; rel_type := HAS_SESSION; rel_dst := 1 |} ];
     next_id := 2 |}.

(** [{ userId, a }], the values [linkAccount] hands to [write]. *)
Definition link_values (uid : string) (a : obj) : obj :=
  {[ "userId" := VStr uid; "a" := VObj a ]}.

(** How many relationships of type [t] go from [src] to [dst]. *)
Definition count_rels (src : nat) (t : reltype) (dst : nat) (g : graph) : nat :=
  length (List.filter (λ r, Nat.eqb (rel_src r) src && bool_decide (rel_type r = t)
                            && Nat.eqb (rel_dst r) dst) (rels g)).

(** Identities are unique and older than [next_id]; relationships join
    identities that have been handed out. *)
Definition well_formed (g : graph) : Prop :=
  unique_ids g
  ∧ List.Forall (λ n, node_id n < next_id g) (nodes g)
  ∧ List.Forall (λ r, rel_src r < next_id g ∧ rel_dst r < next_id g) (rels g).

(** What the statement does for one user and one account. *)
Definition link_to (u acc : node) (a : obj) (g : graph) : graph :=
  merge_rel (node_id u) HAS_ACCOUNT (node_id acc)
    (update_props [node_id acc] (λ props, set_merge props a) g).

Definition with_props (f : obj → obj) (n : node) : node :=
  {| node_id := node_id n; node_label := node_label n; node_props := f (node_props n) |}.

Definition github_account : obj :=
  {[ "userId" := VStr "u1"; "provider" := VStr "github";
     "providerAccountId" := VStr "42"; "type" := VStr "oauth" ]}.

Definition ann_with_email : graph :=
  {| nodes := [ {| node_id := 0; node_label := User;
                   node_props := {[ "id" := VStr "u1"; "name" := VStr "Ann";
                                    "email" := VStr "ann@example.com" ]} |} ];
     rels := []; next_id := 1 |}.

(** A field that the store takes and [format.from] gives back as it was:
    not a nested object or an invalid Date, and a valid Date or a value
    that [format.from] leaves alone. *)
Definition persists (host : string → option Z) (v : value) : Prop :=
  plain v = true ∧ round_trips host v.

(** The store after one node [x] and one relationship from [u] to it
    have been added. *)
Definition grown (g : graph) (u : node) (t : reltype) (x : node) : graph :=
  {| nodes := nodes g ++ [x];
     rels := rels g ++ [{| rel_src := node_id u; rel_type := t; rel_dst := node_id x |}];
     next_id := S (next_id g) |}.

(** Further sample inputs. *)
Definition live_session : obj :=
  {[ "sessionToken" := VStr "tok"; "userId" := VStr "u1";
     "expires" := VDate (Some 1900000000000%Z) ]}.

Definition fresh_token : obj :=
  {[ "identifier" := VStr "ann@example.com"; "token" := VStr "s3cret";
     "expires" := VDate (Some 1900000000000%Z) ]}.

(** The schema of the header of index.ts:
    [(:User)-[:HAS_ACCOUNT]->(:Account)] and
    [(:User)-[:HAS_SESSION]->(:Session)]. *)
Definition target (t : reltype) : label :=
  match t with
  | HAS_ACCOUNT => Account
  | HAS_SESSION => Session
  end.

Definition label_at (g : graph) (id : nat) : option label :=
  node_label <$> node_at g id.

Definition typed (g : graph) (r : rel) : Prop :=
  label_at g (rel_src r) = Some User ∧ label_at g (rel_dst r) = Some (target (rel_type r)).

(** A store that follows the schema: well formed, and every relationship
    goes from a User that is there to an Account or a Session that is
    there, according to its type. *)
Definition schema (g : graph) : Prop := well_formed g ∧ List.Forall (typed g) (rels g).

(** The rows of [linkAccount]: pairs of a User and an Account that are
    in the store. *)
Definition linked (g : graph) (rows : list (nat * nat)) : Prop :=
  ∀ ux, In ux rows → label_at g ux.1 = Some User ∧ label_at g ux.2 = Some Account.

(** * Properties *)

Example isoDateRE_sample :
  test isoDateRE "2024-02-29T23:59:59.123Z" = true /\
  test isoDateRE "2024-02-29T23:59+02:00" = true /\
  test isoDateRE "about 2024-02-29T23:59:59Z, roughly" = true /\
  test isoDateRE "2024-02-29 23:59:59Z" = false /\
  test isoDateRE "2024-02-29T23:59:59" = false.
Proof. vm_compute. auto. Qed.

Example toISOString_sample :
  JSDate.toISOString 1709251199123 = "2024-02-29T23:59:59.123Z" /\
  JSDate.toISOString (-1) = "1969-12-31T23:59:59.999Z" /\
  JSDate.toISOString 8640000000000000 = "+275760-09-13T00:00:00.000Z" /\
  JSDate.toISOString (-8640000000000000) = "-271821-04-20T00:00:00.000Z" /\
  JSDate.toISOString (-62198755200000) = "-000001-01-01T00:00:00.000Z".
Proof. vm_compute. auto 10. Qed.

Example parse_iso_sample :
  JSDate.parse_iso "2024-02-29T23:59:59.123Z" = JSDate.Instant 1709251199123 /\
  JSDate.parse_iso "+275760-09-13T00:00:00.000Z" = JSDate.Instant 8640000000000000 /\
  JSDate.parse_iso "+275760-09-13T00:00:00.001Z" = JSDate.NotANumber /\
  JSDate.parse_iso "2024-02-29T23:59+02:00" = JSDate.Instant 1709243940000 /\
  JSDate.parse_iso "2024-02-29" = JSDate.Instant 1709164800000 /\
  JSDate.parse_iso "2020-19-39T29:59:59Z" = JSDate.NotANumber /\
  JSDate.parse_iso "2023-02-30T00:00:00Z" = JSDate.HostDefined /\
  JSDate.parse_iso "2024-02-29T23:59:59" = JSDate.HostDefined /\
  JSDate.parse_iso "about 2024-02-29T23:59:59Z" = JSDate.HostDefined.
Proof. vm_compute. auto 10. Qed.

(** ** The pattern *)

Lemma occurs_many c cs s rest :
  In rest (many cs s) → occurs c rest = true → occurs c s = true.
Proof.
  revert rest. induction s as [|a s IH]; simpl; intros rest.
  - intros [<-|[]]. auto.
  - intros [<-|Hin]; [auto|].
    destruct (in_charset cs a); [|destruct Hin].
    intros Hr. rewrite (IH _ Hin Hr). apply orb_true_r.
Qed.

(** What a match leaves is a part of what it was given. *)
Lemma occurs_matches c r s rest :
  In rest (matches r s) → occurs c rest = true → occurs c s = true.
Proof.
  revert s rest. induction r as [|a|cs|cs|r1 IH1 r2 IH2|r1 IH1 r2 IH2];
    simpl; intros s rest Hin Hr.
  - destruct Hin as [<-|[]]. exact Hr.
  - destruct s as [|b s]; [destruct Hin|].
    destruct (Ascii.eqb a b); [|destruct Hin].
    destruct Hin as [<-|[]]. simpl. rewrite Hr. apply orb_true_r.
  - destruct s as [|b s]; [destruct Hin|].
    destruct (in_charset cs b); [|destruct Hin].
    destruct Hin as [<-|[]]. simpl. rewrite Hr. apply orb_true_r.
  - destruct s as [|b s]; [destruct Hin|].
    destruct (in_charset cs b); [|destruct Hin].
    simpl. rewrite (occurs_many _ _ _ _ Hin Hr). apply orb_true_r.
  - apply in_flat_map in Hin as (mid & H1 & H2). eauto.
  - apply in_app_or in Hin as [H|H]; eauto.
Qed.

(** A character that every word of [r] contains occurs in every string
    that [r] matches. *)
Lemma requires_matches c r s rest :
  requires c r = true → In rest (matches r s) → occurs c s = true.
Proof.
  revert s rest. induction r as [|a|cs|cs|r1 IH1 r2 IH2|r1 IH1 r2 IH2];
    simpl; intros s rest Hreq Hin; try discriminate.
  - destruct s as [|b s]; [destruct Hin|].
    destruct (Ascii.eqb_spec a b) as [->|]; [|destruct Hin].
    simpl. rewrite Hreq. reflexivity.
  - apply in_flat_map in Hin as (mid & H1 & H2).
    apply orb_true_iff in Hreq as [Hreq|Hreq].
    + eapply IH1; eauto.
    + eapply occurs_matches; [exact H1|]. eapply IH2; eauto.
  - apply andb_true_iff in Hreq as [Hq1 Hq2].
    apply in_app_or in Hin as [H|H]; eauto.
Qed.

Lemma requires_test c r s :
  requires c r = true → occurs c s = false → test r s = false.
Proof.
  intros Hreq. induction s as [|a s IH]; simpl; intros Hocc.
  - unfold matches_here. destruct (matches r "") as [|rest l] eqn:E; [reflexivity|].
    assert (occurs c "" = true) by (eapply requires_matches; eauto; rewrite E; left; eauto).
    discriminate.
  - apply orb_false_iff in Hocc as [Hca Hs].
    rewrite (IH Hs), orb_false_r.
    unfold matches_here. destruct (matches r (String a s)) as [|rest l] eqn:E; [reflexivity|].
    assert (occurs c (String a s) = true) as H
      by (eapply requires_matches; eauto; rewrite E; left; eauto).
    simpl in H. rewrite Hca, Hs in H. discriminate.
Qed.

Lemma isoDateRE_requires_T : requires "T" isoDateRE = true.
Proof. reflexivity. Qed.

(** The decimal text of an integer has no [T]. *)
Lemma occurs_T_uint u : occurs "T" (NilEmpty.string_of_uint u) = false.
Proof. induction u; simpl; auto. Qed.

Lemma occurs_T_Integer i : occurs "T" (Integer.toString i) = false.
Proof.
  unfold Integer.toString, NilZero.string_of_int, NilZero.string_of_uint.
  destruct (Z.to_int i) as [u|u]; destruct u; simpl; auto using occurs_T_uint.
Qed.

Lemma test_Integer_toString i : test isoDateRE (Integer.toString i) = false.
Proof.
  apply (requires_test "T"); [apply isoDateRE_requires_T | apply occurs_T_Integer].
Qed.

(** ** Store integers *)

Lemma Integer_toNumber i : Integer.toNumber i = Finite (inject_Z i).
Proof.
  unfold Integer.toNumber, Integer.high, Integer.low. do 2 f_equal.
  pose proof (Z.div_mod i (2 ^ 32)). lia.
Qed.

Lemma Integer_fromString_toString i :
  Integer.fromString (Integer.toString i) = Some i.
Proof.
  unfold Integer.fromString, Integer.toString.
  assert (Z.to_int i ≠ Decimal.Pos Decimal.Nil ∧ Z.to_int i ≠ Decimal.Neg Decimal.Nil)
    as [Hp Hn].
  { destruct i as [|p|p]; simpl; split; try discriminate;
      intros [= H]; exact (DecimalPos.Unsigned.to_uint_nonnil p H). }
  rewrite (NilZero.isi _ Hp Hn). simpl. f_equal. apply DecimalZ.of_to.
Qed.

Lemma isDate_Integer host i : isDate host (VInt i) = false.
Proof.
  unfold isDate. simpl. rewrite test_Integer_toString. reflexivity.
Qed.

(** C7.  A store integer decodes to the plain number of the same value
    exactly when it lies in the safe range, from -(2^53 - 1) to 2^53 - 1;
    any other decodes to its decimal text, which denotes the integer
    exactly. *)
Theorem from_field_Integer (host : string → option Z) (i : Z) :
  from_field host (VInt i)
  = (if Integer.inSafeRange i then VNum (Finite (inject_Z i))
     else VStr (Integer.toString i))
  ∧ (Integer.inSafeRange i = true ↔ (- (2 ^ 53 - 1) ≤ i ≤ 2 ^ 53 - 1)%Z)
  ∧ Integer.fromString (Integer.toString i) = Some i.
Proof.
  split; [|split].
  - unfold from_field. rewrite isDate_Integer. simpl.
    rewrite Integer_toNumber. reflexivity.
  - unfold Integer.inSafeRange, Integer.MIN_SAFE_VALUE, Integer.MAX_SAFE_VALUE.
    rewrite andb_true_iff, !Z.leb_le. lia.
  - apply Integer_fromString_toString.
Qed.

(** ** Dates as text *)

Import JSDate.
Local Open Scope Z_scope.

Lemma digit_cases n : 0 ≤ n ≤ 9 →
  n = 0 ∨ n = 1 ∨ n = 2 ∨ n = 3 ∨ n = 4 ∨ n = 5 ∨ n = 6 ∨ n = 7 ∨ n = 8 ∨ n = 9.
Proof. lia. Qed.

Ltac by_digit n H :=
  destruct (digit_cases n H) as [->|[->|[->|[->|[->|[->|[->|[->|[->| ->]]]]]]]]].

Lemma digit_val_char n : 0 ≤ n ≤ 9 → digit_val (digit_char n) = Some n.
Proof. intros H. by_digit n H; reflexivity. Qed.

Lemma digit_char_class n hi :
  0 ≤ n ≤ hi → hi ≤ 9 →
  in_charset (CRange "0" (digit_char hi)) (digit_char n) = true.
Proof.
  intros Hn Hhi.
  assert (0 ≤ hi ≤ 9) as H1 by lia. assert (0 ≤ n ≤ 9) as H2 by lia.
  by_digit hi H1; by_digit n H2; try reflexivity; lia.
Qed.

Lemma digit_char_not c n :
  0 ≤ n ≤ 9 → (N_of_ascii c <? 48)%N || (57 <? N_of_ascii c)%N = true →
  Ascii.eqb c (digit_char n) = false.
Proof.
  intros H Hc. apply Ascii.eqb_neq. intros ->.
  by_digit n H; discriminate Hc.
Qed.

Lemma take_put_digits k j acc n rest :
  0 ≤ n < 10 ^ Z.of_nat k →
  take_digits (k + j) acc (put_digits k n rest)
  = take_digits j (acc * 10 ^ Z.of_nat k + n) rest.
Proof.
  revert j n rest. induction k as [|k IH]; intros j n rest Hn.
  - simpl in *. f_equal. lia.
  - rewrite Nat2Z.inj_succ, Z.pow_succ_r in Hn by lia.
    simpl put_digits.
    replace (S k + j)%nat with (k + S j)%nat by lia.
    rewrite IH by (split; [apply Z.div_pos | apply Z.div_lt_upper_bound]; lia).
    simpl take_digits.
    rewrite digit_val_char by (pose proof (Z.mod_pos_bound n 10); lia).
    f_equal. rewrite Nat2Z.inj_succ, Z.pow_succ_r by lia.
    pose proof (Z.div_mod n 10). lia.
Qed.

Lemma take_digits_put k n rest :
  0 ≤ n < 10 ^ Z.of_nat k →
  take_digits k 0 (put_digits k n rest) = Some (n, rest).
Proof.
  intros H. pose proof (take_put_digits k 0 0 n rest H) as E.
  rewrite Nat.add_0_r in E. rewrite E. reflexivity.
Qed.

(** *** The calendar *)

Lemma month_check_all : forallb month_check (map Z.of_nat (seq 0 366)) = true.
Proof. vm_compute. reflexivity. Qed.

Lemma month_check_ok doy : 0 <= doy <= 365 -> month_check doy = true.
Proof.
  intros H. pose proof month_check_all as A.
  rewrite forallb_forall in A. apply A.
  apply in_map_iff. exists (Z.to_nat doy). split; [lia|].
  apply in_seq. lia.
Qed.

Lemma leap_year_shift y e : leap_year (y + e * 400) = leap_year y.
Proof.
  unfold leap_year.
  replace ((y + e * 400) mod 4) with (y mod 4) by (Z.div_mod_to_equations; lia).
  replace ((y + e * 400) mod 100) with (y mod 100) by (Z.div_mod_to_equations; lia).
  replace ((y + e * 400) mod 400) with (y mod 400) by (Z.div_mod_to_equations; lia).
  reflexivity.
Qed.

Lemma leap_year_end_of_era yoe :
  0 <= yoe <= 399 -> yoe mod 4 = 3 -> yoe mod 100 <> 99 \/ yoe = 399 ->
  leap_year (yoe + 1) = true.
Proof.
  intros H H4 H100. unfold leap_year.
  apply orb_true_iff.
  destruct H100 as [H100| ->]; [left|right; reflexivity].
  apply andb_true_iff. rewrite negb_true_iff, Z.eqb_eq, Z.eqb_neq.
  Z.div_mod_to_equations; lia.
Qed.

Lemma days_in_month_common y m : days_in_month 1 m <= days_in_month y m.
Proof.
  unfold days_in_month. destruct (m =? 2); [|lia].
  change (leap_year 1) with false. destruct (leap_year y); lia.
Qed.

Lemma civil_roundtrip z y m dd :
  civil_from_days z = (y, m, dd) ->
  1 <= m <= 12 /\ 1 <= dd <= days_in_month y m /\ days_from_civil y m dd = z.
Proof.
  unfold civil_from_days. intros E.
  set (doe := (z + 719468) mod 146097) in E.
  set (era := (z + 719468) / 146097) in E.
  assert (0 <= doe < 146097) by (apply Z.mod_pos_bound; lia).
  assert (z = era * 146097 + doe - 719468) by (pose proof (Z.div_mod (z + 719468) 146097); lia).
  clearbody doe era. subst z.
  set (yoe := (doe - doe / 1460 + doe / 36524 - doe / 146096) / 365) in E.
  assert (0 <= yoe <= 399 /\ 0 <= doe - (365 * yoe + yoe / 4 - yoe / 100) <= 365 /\
   (doe - (365 * yoe + yoe / 4 - yoe / 100) = 365 -> yoe mod 4 = 3 /\ (yoe mod 100 <> 99 \/ yoe = 399))) as (Hy & Hdoy & Hleap).
  { subst yoe. Z.div_mod_to_equations; lia. }
  set (doy := doe - (365 * yoe + yoe / 4 - yoe / 100)) in *.
  assert (doe = 365 * yoe + yoe / 4 - yoe / 100 + doy) by lia.
  clearbody yoe doy. subst doe.
  pose proof (month_check_ok doy Hdoy) as C. unfold month_check, month_of in C.
  set (mp := (5 * doy + 2) / 153) in *.
  set (m' := if mp <? 10 then mp + 3 else mp - 9) in *.
  set (d' := doy - (153 * mp + 2) / 5 + 1) in *.
  clearbody m' d'. clear mp.
  injection E as <- <- <-.
  rewrite !andb_true_iff, orb_true_iff, !andb_true_iff, !Z.leb_le, !Z.eqb_eq in C.
  destruct C as ((((C1 & C2) & C3) & C4) & C5).
  split; [lia|]. split.
  - split; [lia|]. destruct C4 as [C4|((-> & ->) & ->)].
    + pose proof (days_in_month_common (yoe + era * 400 + (if m' <=? 2 then 1 else 0)) m'). lia.
    + destruct (Hleap eq_refl) as [H4 H100].
      change (2 <=? 2) with true. cbv iota.
      replace (yoe + era * 400 + 1) with (yoe + 1 + era * 400) by lia.
      unfold days_in_month. change (2 =? 2) with true. cbv iota.
      rewrite leap_year_shift, (leap_year_end_of_era yoe Hy H4 H100). lia.
  - unfold days_from_civil.
    replace (yoe + era * 400 + (if m' <=? 2 then 1 else 0) - (if m' <=? 2 then 1 else 0))
      with (yoe + era * 400) by lia.
    replace ((yoe + era * 400) / 400) with era by (Z.div_mod_to_equations; lia).
    replace ((yoe + era * 400) mod 400) with yoe by (Z.div_mod_to_equations; lia).
    lia.
Qed.

(** *** Reading back what [toISOString] writes *)

Lemma put_digits_head k n rest :
  exists dgt s, put_digits (S k) n rest = String (digit_char dgt) s /\ 0 <= dgt <= 9.
Proof.
  revert n rest. induction k as [|k IH]; intros n rest.
  - exists (n mod 10), rest. split; [reflexivity|].
    pose proof (Z.mod_pos_bound n 10). lia.
  - change (put_digits (S (S k)) n rest)
      with (put_digits (S k) (n / 10) (String (digit_char (n mod 10)) rest)).
    apply IH.
Qed.

Lemma starts_with_digits c k n rest :
  (N_of_ascii c <? 48)%N || (57 <? N_of_ascii c)%N = true ->
  starts_with c (put_digits (S k) n rest) = false.
Proof.
  intros Hc. destruct (put_digits_head k n rest) as (dgt & s & -> & Hd).
  simpl. apply digit_char_not; assumption.
Qed.

Local Arguments put_digits : simpl never.
Local Arguments take_digits : simpl never.

Lemma parse_year_put y rest :
  -999999 <= y <= 999999 -> parse_year (put_year y rest) = Some (y, rest).
Proof.
  intros Hy. unfold put_year, parse_year.
  destruct ((0 <=? y) && (y <=? 9999)) eqn:E.
  - apply andb_true_iff in E as [E1 E2]. apply Z.leb_le in E1, E2.
    rewrite !starts_with_digits by reflexivity.
    apply take_digits_put. simpl. lia.
  - destruct (0 <=? y) eqn:E1; simpl.
    + apply Z.leb_le in E1. rewrite take_digits_put by (simpl; lia).
      f_equal. f_equal. lia.
    + apply Z.leb_gt in E1. rewrite take_digits_put by (simpl; lia).
      simpl. destruct (Z.abs y =? 0) eqn:E0; [lia|].
      f_equal. f_equal. lia.
Qed.

Lemma parse_time_put h mi sec ms rest :
  0 <= h < 100 -> 0 <= mi < 100 -> 0 <= sec < 100 -> 0 <= ms < 1000 ->
  parse_time (String "T" (put_digits 2 h (String ":" (put_digits 2 mi
    (String ":" (put_digits 2 sec (String "." (put_digits 3 ms rest))))))))
  = Some (Some {| hour := h; minute := mi; second := sec; millisecond := ms |}, rest).
Proof.
  intros Hh Hmi Hsec Hms. unfold parse_time, parse_optional. simpl.
  rewrite take_digits_put by (simpl; lia). simpl.
  rewrite take_digits_put by (simpl; lia). simpl.
  rewrite take_digits_put by (simpl; lia). simpl.
  rewrite take_digits_put by (simpl; lia). simpl.
  reflexivity.
Qed.

Lemma civil_year_bound z y m dd :
  civil_from_days z = (y, m, dd) -> -100000000 <= z <= 100000000 ->
  -999999 <= y <= 999999.
Proof.
  unfold civil_from_days. intros [= <- _ _] Hz.
  set (doe := (z + 719468) mod 146097).
  set (era := (z + 719468) / 146097).
  assert (0 <= doe < 146097) by (apply Z.mod_pos_bound; lia).
  assert (z = era * 146097 + doe - 719468) by (pose proof (Z.div_mod (z + 719468) 146097); lia).
  set (yoe := (doe - doe / 1460 + doe / 36524 - doe / 146096) / 365).
  assert (0 <= yoe <= 399) by (subst yoe; Z.div_mod_to_equations; lia).
  destruct (_ <=? 2); lia.
Qed.

Lemma days_in_month_le y m : days_in_month y m <= 31.
Proof.
  unfold days_in_month.
  destruct (m =? 2); [destruct (leap_year y); lia|].
  destruct (_ || _); lia.
Qed.

Lemma parse_iso_toISOString t : valid_time t -> parse_iso (toISOString t) = Instant t.
Proof.
  unfold valid_time, max_time. intros Ht. unfold toISOString, msPerDay.
  destruct (civil_from_days (t / 86400000)) as [[y m] dd] eqn:E.
  assert (-100000000 <= t / 86400000 <= 100000000) as Hday
    by (Z.div_mod_to_equations; lia).
  pose proof (civil_year_bound _ _ _ _ E Hday) as Hy.
  apply civil_roundtrip in E as (Hm & Hd & Hdays).
  pose proof (days_in_month_le y m) as Hd31.
  set (tod := t mod 86400000).
  assert (0 <= tod < 86400000) as Htod by (apply Z.mod_pos_bound; reflexivity).
  assert (t = t / 86400000 * 86400000 + tod) as Hsplit
    by (pose proof (Z.div_mod t 86400000); unfold tod; lia).
  set (h := tod / 3600000). set (mi := tod / 60000 mod 60).
  set (sec := tod / 1000 mod 60). set (ms := tod mod 1000).
  assert (0 <= h <= 23 /\ 0 <= mi <= 59 /\ 0 <= sec <= 59 /\ 0 <= ms <= 999 /\
          tod = h * 3600000 + mi * 60000 + sec * 1000 + ms) as (Hh & Hmi & Hsec & Hms & Hclock)
    by (subst h mi sec ms; Z.div_mod_to_equations; lia).
  clearbody h mi sec ms tod.
  unfold parse_iso.
  rewrite parse_year_put by lia. simpl.
  unfold parse_optional. simpl.
  rewrite take_digits_put by (simpl; lia). simpl.
  rewrite take_digits_put by (simpl; lia). simpl.
  rewrite parse_time_put by lia. simpl.
  replace ((1 <=? m) && (m <=? 12) && (1 <=? dd) && (dd <=? 31)) with true
    by (symmetry; rewrite !andb_true_iff, !Z.leb_le; lia).
  replace (dd <=? days_in_month y m) with true by (symmetry; apply Z.leb_le; lia).
  simpl.
  unfold clock_in_bounds. simpl.
  replace ((h <=? 23) && (mi <=? 59) && (sec <=? 59)) with true
    by (symmetry; rewrite !andb_true_iff, !Z.leb_le; lia).
  simpl. rewrite Hdays. unfold clock_ms. simpl.
  unfold time_clip, max_time, msPerDay.
  match goal with |- context [Some ?e] => replace e with t by lia end.
  replace ((- (8640000000000000) <=? t) && (t <=? 8640000000000000)) with true
    by (symmetry; rewrite !andb_true_iff, !Z.leb_le; lia).
  reflexivity.
Qed.

(** *** The pattern on what [toISOString] writes *)

Lemma matches_cat r rs s mid rest :
  In mid (matches r s) → In rest (matches (cat rs) mid) →
  In rest (matches (cat (r :: rs)) s).
Proof. intros H1 H2. simpl. apply in_flat_map. eauto. Qed.

Lemma matches_Alt_l r1 r2 s rest :
  In rest (matches r1 s) → In rest (matches (Alt r1 r2) s).
Proof. intros H. simpl. apply in_or_app. left. exact H. Qed.

Lemma matches_Lit c s : In s (matches (Lit c) (String c s)).
Proof. simpl. rewrite Ascii.eqb_refl. left. reflexivity. Qed.

Lemma matches_Cls cs c s : in_charset cs c = true → In s (matches (Cls cs) (String c s)).
Proof. simpl. intros ->. left. reflexivity. Qed.

Lemma many_here cs s : In s (many cs s).
Proof. destruct s; left; reflexivity. Qed.

Lemma many_step cs c s rest :
  in_charset cs c = true → In rest (many cs s) → In rest (many cs (String c s)).
Proof. intros Hc H. simpl. rewrite Hc. right. exact H. Qed.

Lemma matches_OneOrMore cs c s rest :
  in_charset cs c = true → In rest (many cs s) →
  In rest (matches (OneOrMore cs) (String c s)).
Proof. intros Hc H. simpl. rewrite Hc. exact H. Qed.

Lemma matches_here_In r s rest : In rest (matches r s) → matches_here r s = true.
Proof. unfold matches_here. destruct (matches r s); [intros []|reflexivity]. Qed.

Lemma test_here r s : matches_here r s = true → test r s = true.
Proof. intros H. destruct s; simpl; rewrite H; reflexivity. Qed.

Lemma test_later r c s : test r s = true → test r (String c s) = true.
Proof. intros H. simpl. rewrite H. apply orb_true_r. Qed.

Abbreviation upto hi := (CRange "0" hi).

(** A date and time with milliseconds and the zone [Z] has the shape of
    the first alternative. *)
Lemma isoDateRE_shape y1 y2 y3 y4 m1 m2 d1 d2 h1 h2 i1 i2 s1 s2 f1 f2 f3 :
  in_charset (upto "9") y1 = true → in_charset (upto "9") y2 = true →
  in_charset (upto "9") y3 = true → in_charset (upto "9") y4 = true →
  in_charset (upto "1") m1 = true → in_charset (upto "9") m2 = true →
  in_charset (upto "3") d1 = true → in_charset (upto "9") d2 = true →
  in_charset (upto "2") h1 = true → in_charset (upto "9") h2 = true →
  in_charset (upto "5") i1 = true → in_charset (upto "9") i2 = true →
  in_charset (upto "5") s1 = true → in_charset (upto "9") s2 = true →
  in_charset (upto "9") f1 = true → in_charset (upto "9") f2 = true →
  in_charset (upto "9") f3 = true →
  matches_here isoDateRE
    (String y1 (String y2 (String y3 (String y4 (String "-"
    (String m1 (String m2 (String "-" (String d1 (String d2 (String "T"
    (String h1 (String h2 (String ":" (String i1 (String i2 (String ":"
    (String s1 (String s2 (String "." (String f1 (String f2 (String f3 "Z")))))))))))))))))))))))
  = true.
Proof.
  intros. apply (matches_here_In _ _ ""). unfold isoDateRE.
  apply matches_Alt_l.
  unfold date_hour_minute, seconds, digit, dash, colon. cbn [app].
  repeat (eapply matches_cat;
          [ first [ apply matches_Lit | apply matches_Cls; assumption ] | ]).
  eapply matches_cat.
  { apply matches_OneOrMore; [assumption|].
    apply many_step; [assumption|]. apply many_step; [assumption|]. apply many_here. }
  vm_compute. auto.
Qed.

Lemma put_digits_2 n rest :
  put_digits 2 n rest
  = String (digit_char (n / 10 mod 10)) (String (digit_char (n mod 10)) rest).
Proof. reflexivity. Qed.

Lemma put_digits_3 n rest :
  put_digits 3 n rest
  = String (digit_char (n / 10 / 10 mod 10)) (put_digits 2 n rest).
Proof. reflexivity. Qed.

Lemma put_digits_4 n rest :
  put_digits 4 n rest
  = String (digit_char (n / 10 / 10 / 10 mod 10)) (put_digits 3 n rest).
Proof. reflexivity. Qed.

Lemma put_digits_6 n rest :
  put_digits 6 n rest
  = String (digit_char (n / 10 / 10 / 10 / 10 / 10 mod 10))
      (String (digit_char (n / 10 / 10 / 10 / 10 mod 10)) (put_digits 4 n rest)).
Proof. reflexivity. Qed.

Lemma digit_upto n hi :
  0 <= n <= hi -> hi <= 9 -> in_charset (upto (digit_char hi)) (digit_char n) = true.
Proof. apply digit_char_class. Qed.

Lemma test_toISOString t : valid_time t -> test isoDateRE (toISOString t) = true.
Proof.
  unfold valid_time, max_time. intros Ht. unfold toISOString, msPerDay.
  destruct (civil_from_days (t / 86400000)) as [[y m] dd] eqn:E.
  apply civil_roundtrip in E as (Hm & Hd & _).
  pose proof (days_in_month_le y m) as Hd31.
  set (tod := t mod 86400000).
  assert (0 <= tod < 86400000) as Htod by (apply Z.mod_pos_bound; reflexivity).
  clearbody tod.
  assert (forall yy, test isoDateRE (put_digits 4 yy
     (String "-" (put_digits 2 m (String "-" (put_digits 2 dd
     (String "T" (put_digits 2 (tod / 3600000)
     (String ":" (put_digits 2 (tod / 60000 mod 60)
     (String ":" (put_digits 2 (tod / 1000 mod 60)
     (String "." (put_digits 3 (tod mod 1000) "Z"))))))))))))) = true) as Hfour.
  { intros yy. apply test_here.
    rewrite put_digits_4, !put_digits_3, !put_digits_2.
    apply isoDateRE_shape;
      solve [ apply (digit_upto _ 9); [Z.div_mod_to_equations; lia | lia]
            | apply (digit_upto _ 1); [Z.div_mod_to_equations; lia | lia]
            | apply (digit_upto _ 2); [Z.div_mod_to_equations; lia | lia]
            | apply (digit_upto _ 3); [Z.div_mod_to_equations; lia | lia]
            | apply (digit_upto _ 5); [Z.div_mod_to_equations; lia | lia] ]. }
  unfold put_year. destruct (_ && _).
  - apply Hfour.
  - rewrite put_digits_6. do 3 apply test_later. apply Hfour.
Qed.

(** ** The coercion layer *)

Lemma toISOString_nonempty t : String.eqb (toISOString t) "" = false.
Proof.
  unfold toISOString. destruct (civil_from_days _) as [[y m] dd].
  unfold put_year. destruct (_ && _); [|reflexivity].
  destruct (put_digits_head 3 y (String "-" (put_digits 2 m (String "-" (put_digits 2 dd
    (String "T" (put_digits 2 (t mod msPerDay / 3600000)
    (String ":" (put_digits 2 (t mod msPerDay / 60000 mod 60)
    (String ":" (put_digits 2 (t mod msPerDay / 1000 mod 60)
    (String "." (put_digits 3 (t mod msPerDay mod 1000) "Z"))))))))))))) as (c & s & -> & _).
  reflexivity.
Qed.

Lemma Date_parse_toISOString host t :
  valid_time t -> Date_parse host (toISOString t) = Some t.
Proof. intros H. unfold Date_parse. rewrite parse_iso_toISOString by exact H. reflexivity. Qed.

Lemma from_field_toISOString host t :
  valid_time t -> from_field host (VStr (toISOString t)) = VDate (Some t).
Proof.
  intros H. unfold from_field, isDate, new_Date. simpl.
  rewrite toISOString_nonempty, test_toISOString, Date_parse_toISOString by exact H.
  reflexivity.
Qed.

Lemma isDate_VDate host t : isDate host (VDate t) = false.
Proof. reflexivity. Qed.

Lemma isDate_VNum host n : isDate host (VNum n) = false.
Proof. unfold isDate. simpl. apply andb_false_r. Qed.

Lemma isDate_VObj host o : isDate host (VObj o) = false.
Proof. reflexivity. Qed.

Lemma from_field_not_converted host v :
  isDate host v = false -> isInt v = false -> from_field host v = v.
Proof. unfold from_field. intros -> ->. reflexivity. Qed.

Lemma from_field_idempotent host v :
  from_field host (from_field host v) = from_field host v.
Proof.
  destruct (isDate host v) eqn:Ed.
  - assert (from_field host v = new_Date host v) as ->
      by (unfold from_field; rewrite Ed; reflexivity).
    apply from_field_not_converted; reflexivity.
  - destruct (isInt v) eqn:Ei.
    + destruct v; try discriminate Ei.
      assert (from_field host (VInt i)
              = if Integer.inSafeRange i then VNum (Integer.toNumber i)
                else VStr (Integer.toString i)) as ->
        by (unfold from_field; rewrite Ed; reflexivity).
      destruct (Integer.inSafeRange i).
      * apply from_field_not_converted; [apply isDate_VNum|reflexivity].
      * apply from_field_not_converted; [|reflexivity].
        unfold isDate. simpl. rewrite test_Integer_toString. apply andb_false_r.
    + rewrite !(from_field_not_converted host v Ed Ei). reflexivity.
Qed.

Lemma format_from_idempotent host o :
  format_from host (format_from host o) = format_from host o.
Proof.
  destruct o as [o|]; [|reflexivity]. simpl. f_equal.
  rewrite <- map_fmap_compose. apply map_fmap_ext.
  intros k v _. apply from_field_idempotent.
Qed.

Lemma from_to_field host v :
  round_trips host v -> serialisable v = true /\ from_field host (to_field v) = v.
Proof.
  destruct v; simpl; try (intros [Hd Hi]; split; [reflexivity|];
    apply from_field_not_converted; assumption).
  intros (i & -> & Hi). split; [reflexivity|]. apply from_field_toISOString, Hi.
Qed.

(** C2, as stated, fails: a name that reads as an ISO date comes back as
    a Date. *)
Lemma format_round_trip_fails :
  canonical_record dated_name /\
  ~ exists S, format_to dated_name = Ok S /\
              format_from standard_host (Some S) = Some dated_name.
Proof.
  split.
  - apply map_Forall_singleton. exact I.
  - intros (S & H1 & H2).
    assert (format_to dated_name = Ok dated_name) as E by reflexivity.
    rewrite E in H1. injection H1 as <-.
    apply (f_equal (fun o => o ≫= (.!! "name"))) in H2.
    vm_compute in H2. discriminate H2.
Qed.

(** C2, amended.  A record whose Dates are valid and whose other fields
    are values that [format.from] does not itself convert (no string that
    matches the pattern and parses, no store integer) comes back from
    [format.from (format.to R)] unchanged. *)
Theorem format_round_trip host (R : obj) :
  map_Forall (fun _ v => round_trips host v) R ->
  exists S, format_to R = Ok S /\ format_from host (Some S) = Some R.
Proof.
  intros HR. exists (to_field <$> R). split.
  - unfold format_to. rewrite bool_decide_eq_true_2; [reflexivity|].
    intros k v Hk. apply (from_to_field host), (HR k v Hk).
  - simpl. f_equal. rewrite <- map_fmap_compose.
    rewrite <- (map_fmap_id R) at 2. apply map_fmap_ext.
    intros k v Hk. apply from_to_field, (HR k v Hk).
Qed.

Lemma format_round_trip_witness :
  exists S, format_to sample_user = Ok S /\
            format_from standard_host (Some S) = Some sample_user.
Proof.
  apply format_round_trip.
  repeat apply map_Forall_insert_2; try apply map_Forall_singleton; simpl.
  - split; reflexivity.
  - split; reflexivity.
  - exists 1600000000000. split; [reflexivity|]. unfold valid_time, max_time. lia.
  - apply map_Forall_empty.
Defined.

Lemma isDate_VBool host b : isDate host (VBool b) = false.
Proof.
  destruct b; reflexivity.
Qed.

Lemma isDate_canonical host v :
  canonical_value v -> isDate host v = true -> exists s, v = VStr s.
Proof.
  destruct v as [| |b|n|s|t|i|i r|o]; simpl; intros Hc Hd; try discriminate Hd;
    try destruct Hc.
  - rewrite isDate_VBool in Hd. discriminate Hd.
  - rewrite isDate_VNum in Hd. discriminate Hd.
  - exists s. reflexivity.
Qed.

Lemma isInt_canonical v : canonical_value v -> isInt v = false.
Proof. destruct v; simpl; try reflexivity. intros []. Qed.

Lemma from_field_converted host s :
  isDate host (VStr s) = true ->
  exists i, Date_parse host s = Some i /\ from_field host (VStr s) = VDate (Some i).
Proof.
  intros Hd. unfold from_field. rewrite Hd. unfold new_Date. simpl.
  unfold isDate in Hd. simpl in Hd.
  apply andb_true_iff in Hd as [_ Hd]. apply andb_true_iff in Hd as [_ Hd].
  apply bool_decide_eq_true in Hd as [i Hi]. exists i. rewrite Hi. auto.
Qed.

(** C8, as stated, fails: the fields of [dated_name] are canonical, and
    [format.from] changes the name into a Date. *)
Lemma format_from_changes_canonical :
  canonical_record dated_name /\
  format_from standard_host (Some dated_name)
  = Some {[ "name" := VDate (Some 1577836800000%Z) ]} /\
  format_from standard_host (Some dated_name) <> Some dated_name.
Proof.
  split; [apply map_Forall_singleton; exact I|].
  assert (format_from standard_host (Some dated_name)
          = Some {[ "name" := VDate (Some 1577836800000%Z) ]}) as E.
  { unfold dated_name. simpl. rewrite map_fmap_singleton. reflexivity. }
  split; [exact E|]. rewrite E. intros H.
  apply (f_equal (fun o => o ≫= (.!! "name"))) in H. vm_compute in H. discriminate H.
Qed.

(** C8, amended.  [format.from] applied again changes nothing.  On an
    object whose fields are canonical it changes no field except a string
    that [isDate] accepts (one that matches the pattern and parses): such
    a string becomes the Date of the parsed instant, which is then a fixed
    point, since a Date is not a string.  A Date, a plain number and the
    decimal text of an integer are left as they are. *)
Theorem format_from_twice (host : string -> option Z) :
  (forall o, format_from host (format_from host o) = format_from host o) /\
  (forall o : obj, canonical_record o ->
     (forall k s, o !! k = Some (VStr s) -> isDate host (VStr s) = false) ->
     format_from host (Some o) = Some o) /\
  (forall (o : obj) k v, canonical_record o -> o !! k = Some v ->
     (isDate host v = false /\ (format_from host (Some o) ≫= (.!! k)) = Some v) \/
     (exists s i, v = VStr s /\ isDate host v = true /\ Date_parse host s = Some i /\
                  (format_from host (Some o) ≫= (.!! k)) = Some (VDate (Some i)) /\
                  from_field host (VDate (Some i)) = VDate (Some i))) /\
  (forall t, from_field host (VDate t) = VDate t) /\
  (forall n, from_field host (VNum n) = VNum n) /\
  (forall i, from_field host (VStr (Integer.toString i)) = VStr (Integer.toString i)).
Proof.
  split; [apply format_from_idempotent|]. split; [|split; [|split; [reflexivity|split]]].
  - intros o Hc Hs. simpl. f_equal. rewrite <- (map_fmap_id o) at 2.
    apply map_fmap_ext. intros k v Hk. simpl.
    apply from_field_not_converted; [|apply isInt_canonical, (Hc k v Hk)].
    destruct (isDate host v) eqn:Ed; [|reflexivity].
    destruct (isDate_canonical host v (Hc k v Hk) Ed) as [s ->].
    rewrite (Hs k s Hk) in Ed. discriminate Ed.
  - intros o k v Hc Hk. simpl. rewrite lookup_fmap, Hk. simpl.
    destruct (isDate host v) eqn:Ed.
    + right. destruct (isDate_canonical host v (Hc k v Hk) Ed) as [s ->].
      destruct (from_field_converted host s Ed) as (i & Hi & Hf).
      exists s, i. rewrite Hf. auto.
    + left. split; [reflexivity|]. f_equal.
      apply from_field_not_converted; [exact Ed|apply isInt_canonical, (Hc k v Hk)].
  - intros n. apply from_field_not_converted; [apply isDate_VNum|reflexivity].
  - intros i. apply from_field_not_converted; [|reflexivity].
    unfold isDate. simpl. rewrite test_Integer_toString. apply andb_false_r.
Qed.

Lemma format_from_twice_witness :
  canonical_record sample_user /\
  format_from standard_host (Some sample_user) = Some sample_user.
Proof.
  assert (canonical_record sample_user) as Hc.
  { unfold sample_user. do 2 (apply map_Forall_insert_2; [exact I|]).
    apply map_Forall_singleton. exists 1600000000000%Z.
    split; [reflexivity|]. unfold valid_time, max_time. lia. }
  split; [exact Hc|].
  apply (proj1 (proj2 (format_from_twice standard_host))); [exact Hc|].
  intros k s Hk. unfold sample_user in Hk.
  apply lookup_insert_Some in Hk as [[_ [= <-]]|[_ Hk]]; [reflexivity|].
  apply lookup_insert_Some in Hk as [[_ [=]]|[_ Hk]].
  apply lookup_singleton_Some in Hk as [_ [=]].
Defined.

Lemma from_field_VStr host s :
  from_field host (VStr s)
  = if test isoDateRE s && bool_decide (is_Some (Date_parse host s))
    then VDate (Date_parse host s) else VStr s.
Proof.
  unfold from_field, isDate, new_Date. simpl.
  destruct (String.eqb_spec s "") as [->|Hs]; simpl; [|reflexivity].
  reflexivity.
Qed.

(** C9.  A string that matches the pattern but does not parse stays the
    string it was; a string becomes a Date exactly when it matches the
    pattern and parses, and then it is the Date of the parsed instant. *)
Theorem from_field_string (host : string -> option Z) (s : string) :
  (test isoDateRE s = true -> Date_parse host s = None ->
   from_field host (VStr s) = VStr s) /\
  (forall i, test isoDateRE s = true -> Date_parse host s = Some i ->
   from_field host (VStr s) = VDate (Some i)) /\
  (forall t, from_field host (VStr s) = VDate t ->
   test isoDateRE s = true /\ exists i, Date_parse host s = Some i /\ t = Some i) /\
  (from_field host (VStr s) <> VStr s ->
   test isoDateRE s = true /\ is_Some (Date_parse host s)).
Proof.
  rewrite from_field_VStr. split; [|split; [|split]].
  - intros -> ->. reflexivity.
  - intros i -> ->. reflexivity.
  - intros t H. destruct (test isoDateRE s); [|discriminate H]. simpl in H.
    destruct (Date_parse host s) as [i|]; [|discriminate H].
    injection H as <-. eauto.
  - intros H. destruct (test isoDateRE s); [|simpl in H; congruence].
    destruct (Date_parse host s) as [i|]; [eauto|]. simpl in H. congruence.
Qed.

(** Month 19 is out of bounds: the text has the shape, no host parses it. *)
Example unparsable_stays host :
  test isoDateRE "2020-19-39T29:59:59Z" = true /\
  Date_parse host "2020-19-39T29:59:59Z" = None /\
  from_field host (VStr "2020-19-39T29:59:59Z") = VStr "2020-19-39T29:59:59Z".
Proof. repeat split. Qed.

(** ** The adapter *)

Import Cypher.
Close Scope Z_scope.

Lemma format_to_plain (o : obj) :
  map_Forall (λ _ v, plain v = true) o → format_to o = Ok (to_field <$> o).
Proof.
  intros H. unfold format_to. rewrite bool_decide_eq_true_2; [reflexivity|].
  intros k v Hk. specialize (H k v Hk). destruct v as [| | | | |[t|]| | |]; auto.
Qed.

Lemma check_storable_plain (o : obj) :
  map_Forall (λ _ v, plain v = true) o → check_storable (to_field <$> o) = Ok tt.
Proof.
  intros H. unfold check_storable. rewrite bool_decide_eq_true_2; [reflexivity|].
  apply map_Forall_fmap. intros k v Hk. specialize (H k v Hk).
  destruct v as [| | | | |[t|]| | |]; auto; discriminate.
Qed.

Lemma write_Ok host stmt values data g g' records :
  format_to values = Ok data → stmt data g = Ok (g', records) →
  write host stmt values g = Ok (g', format_from host (toObject <$> head records)).
Proof. unfold write. intros -> . simpl. intros ->. reflexivity. Qed.

Lemma from_field_VObj host o : from_field host (VObj o) = VObj o.
Proof. reflexivity. Qed.

Lemma set_merge_lookup (props m : obj) k :
  set_merge props m !! k = overwrite (props !! k) (m !! k).
Proof.
  unfold set_merge. rewrite lookup_merge.
  destruct (props !! k), (m !! k); reflexivity.
Qed.

Lemma non_null_lookup (m : obj) k :
  non_null m !! k = m !! k ≫= (λ v, if is_null v then None else Some v).
Proof. unfold non_null. apply lookup_omap. Qed.

(** C10.  [createUser] returns the input extended with an id: the
    input's own [id] when it has one, the generated identifier only when
    it has none.  The node it creates holds the same fields in store
    form, so a caller's string id is the id that is persisted. *)
Theorem createUser_id (host : string → option Z) (uuid : string) (data : obj) (g : graph) :
  map_Forall (λ _ v, plain v = true) data →
  let user : obj := data ∪ {[ "id" := VStr uuid ]} in
  let n := {| node_id := next_id g; node_label := User;
              node_props := non_null (to_field <$> user) |} in
  createUser host uuid data g
  = Ok ({| nodes := nodes g ++ [n]; rels := rels g; next_id := S (next_id g) |}, user)
  ∧ user !! "id" = Some (default (VStr uuid) (data !! "id"))
  ∧ (∀ k, k ≠ "id" → user !! k = data !! k)
  ∧ (∀ s, data !! "id" = Some (VStr s) → node_props n !! "id" = Some (VStr s))
  ∧ (data !! "id" = None → node_props n !! "id" = Some (VStr uuid)).
Proof.
  intros Hdata user n.
  assert (map_Forall (λ _ v, plain v = true) user) as Huser.
  { intros k v Hk. apply lookup_union_Some_raw in Hk as [Hk|[_ Hk]].
    - exact (Hdata k v Hk).
    - apply lookup_singleton_Some in Hk as [_ <-]. reflexivity. }
  assert (user !! "id" = Some (default (VStr uuid) (data !! "id"))) as Hid.
  { unfold user. destruct (data !! "id") as [v|] eqn:E; simpl.
    - apply lookup_union_Some_l. exact E.
    - rewrite lookup_union_r by exact E. apply lookup_singleton_eq. }
  split; [|split; [exact Hid|split; [|split]]].
  - unfold createUser. cbv zeta. fold user.
    rewrite (write_Ok host createUser_stmt user (to_field <$> user) g
               (create_node User (non_null (to_field <$> user)) g).1 []).
    + reflexivity.
    + apply format_to_plain, Huser.
    + unfold createUser_stmt. rewrite check_storable_plain by exact Huser. reflexivity.
  - intros k Hk. unfold user. rewrite lookup_union, lookup_singleton_ne by congruence.
    destruct (data !! k); reflexivity.
  - intros s Hs. simpl. rewrite non_null_lookup, lookup_fmap, Hid, Hs. reflexivity.
  - intros Hs. simpl. rewrite non_null_lookup, lookup_fmap, Hid, Hs. reflexivity.
Qed.

Lemma createUser_id_witness :
  ∃ g', createUser standard_host "generated"
          {[ "id" := VStr "chosen"; "name" := VStr "Ann" ]} empty_graph
        = Ok (g', {[ "id" := VStr "chosen"; "name" := VStr "Ann" ]})
        ∧ ∃ n, nodes g' = [n] ∧ node_props n !! "id" = Some (VStr "chosen").
Proof.
  destruct (createUser_id standard_host "generated"
              {[ "id" := VStr "chosen"; "name" := VStr "Ann" ]} empty_graph)
    as (H1 & _ & _ & H4 & _).
  - apply map_Forall_insert_2; [reflexivity|]. apply map_Forall_singleton. reflexivity.
  - eexists. split; [rewrite H1; reflexivity|].
    eexists. split; [reflexivity|]. apply (H4 "chosen"). reflexivity.
Defined.

(** *** Matching and deleting *)

Lemma filter_filter_nil {A} (p q : A → bool) (l : list A) :
  (∀ x, In x l → p x = true → q x = false) →
  List.filter p (List.filter q l) = [].
Proof.
  intros H. induction l as [|a l IH]; [reflexivity|]. simpl.
  destruct (q a) eqn:Eq; simpl.
  - destruct (p a) eqn:Ep.
    + rewrite (H a (or_introl eq_refl) Ep) in Eq. discriminate.
    + apply IH. intros x Hx. apply H. right. exact Hx.
  - apply IH. intros x Hx. apply H. right. exact Hx.
Qed.

Lemma filter_all {A} (p : A → bool) (l : list A) :
  (∀ x, In x l → p x = true) → List.filter p l = l.
Proof.
  intros H. induction l as [|a l IH]; [reflexivity|]. simpl.
  rewrite (H a (or_introl eq_refl)). f_equal. apply IH. intros x Hx. apply H. right. exact Hx.
Qed.

Lemma filter_none {A} (p : A → bool) (l : list A) :
  (∀ x, In x l → p x = false) → List.filter p l = [].
Proof.
  intros H. induction l as [|x l IH]; [reflexivity|]. simpl.
  rewrite (H x (or_introl eq_refl)). apply IH. intros y Hy. apply H. right. exact Hy.
Qed.

Lemma mem_In id ids : mem id ids = true ↔ In id ids.
Proof.
  unfold mem. rewrite existsb_exists. split.
  - intros (x & Hx & E). apply Nat.eqb_eq in E. subst. exact Hx.
  - intros H. exists id. split; [exact H|apply Nat.eqb_refl].
Qed.

Lemma detach_delete_nil g : detach_delete [] g = g.
Proof.
  destruct g as [ns rs nx]. unfold detach_delete. simpl.
  rewrite !filter_all by reflexivity. reflexivity.
Qed.

Lemma match_nodes_In l pat g n :
  In n (match_nodes l pat g) ↔ In n (nodes g) ∧ node_label n = l ∧ has_props pat n = true.
Proof.
  unfold match_nodes. rewrite filter_In, andb_true_iff, bool_decide_eq_true. tauto.
Qed.

Lemma match_nodes_detach_delete l pat g :
  match_nodes l pat (detach_delete (map node_id (match_nodes l pat g)) g) = [].
Proof.
  unfold match_nodes at 1. simpl. apply filter_filter_nil.
  intros n Hn Hp. apply negb_false_iff, mem_In, in_map.
  unfold match_nodes. apply filter_In. split; assumption.
Qed.

Lemma detach_delete_gone ids g n :
  In (node_id n) ids → ¬ In n (nodes (detach_delete ids g)).
Proof.
  intros Hid Hn. simpl in Hn. apply filter_In in Hn as [_ Hn].
  apply negb_true_iff in Hn. apply mem_In in Hid. congruence.
Qed.

Lemma toObject_column k v : toObject [(k, v)] = {[ k := v ]}.
Proof. reflexivity. Qed.

Lemma format_from_column host k o :
  format_from host (Some {[ k := VObj o ]}) = Some {[ k := VObj o ]}.
Proof. simpl. rewrite map_fmap_singleton. reflexivity. Qed.

Lemma token_data_fields identifier token :
  let data : obj := {[ "identifier" := VStr identifier; "token" := VStr token ]} in
  format_to data = Ok data ∧
  token_key data = [("identifier", VStr identifier); ("token", VStr token)].
Proof.
  intros data. split.
  - rewrite format_to_plain.
    + unfold data. rewrite fmap_insert, map_fmap_singleton. reflexivity.
    + apply map_Forall_insert_2; [reflexivity|]. apply map_Forall_singleton. reflexivity.
  - reflexivity.
Qed.

(** C1.  When a token with the given identifier and token is stored,
    the first [useVerificationToken] returns its stored fields (decoded
    by [format.from]) and leaves no matching token in the store; the
    second call, on the store the first one left, returns null and
    changes nothing. *)
Theorem useVerificationToken_once (host : string → option Z)
    (identifier token : string) (g : graph) (v : node) (rest : list node) :
  let data : obj := {[ "identifier" := VStr identifier; "token" := VStr token ]} in
  let key := [("identifier", VStr identifier); ("token", VStr token)] in
  match_nodes VerificationToken key g = v :: rest →
  ∃ g1,
    useVerificationToken host data g = Ok (g1, Some (from_field host <$> node_props v))
    ∧ match_nodes VerificationToken key g1 = []
    ∧ ¬ In v (nodes g1)
    ∧ useVerificationToken host data g1 = Ok (g1, None).
Proof.
  intros data key Hv.
  destruct (token_data_fields identifier token) as [Hto Hkey]. fold data in Hto, Hkey.
  exists (detach_delete (map node_id (match_nodes VerificationToken key g)) g).
  assert (match_nodes VerificationToken key
            (detach_delete (map node_id (match_nodes VerificationToken key g)) g) = [])
    as Hgone by apply match_nodes_detach_delete.
  split; [|split; [exact Hgone|split]].
  - unfold useVerificationToken.
    erewrite write_Ok; [|exact Hto|unfold useVerificationToken_stmt; rewrite Hkey; reflexivity].
    fold key. rewrite Hv. simpl head. simpl fmap.
    rewrite insert_empty, format_from_column. simpl.
    rewrite lookup_singleton_eq. reflexivity.
  - apply detach_delete_gone. rewrite Hv. left. reflexivity.
  - unfold useVerificationToken.
    erewrite write_Ok; [|exact Hto|unfold useVerificationToken_stmt; rewrite Hkey; reflexivity].
    fold key. rewrite Hgone. simpl. rewrite detach_delete_nil. reflexivity.
Qed.

Lemma useVerificationToken_once_witness :
  ∃ g1,
    useVerificationToken standard_host
      {[ "identifier" := VStr "ann@example.com"; "token" := VStr "s3cret" ]} token_graph
    = Ok (g1, Some {[ "identifier" := VStr "ann@example.com";
                      "token" := VStr "s3cret";
                      "expires" := VDate (Some 1893456000000%Z) ]})
    ∧ useVerificationToken standard_host
        {[ "identifier" := VStr "ann@example.com"; "token" := VStr "s3cret" ]} g1
      = Ok (g1, None).
Proof.
  destruct (useVerificationToken_once standard_host "ann@example.com" "s3cret"
              token_graph
              {| node_id := 0; node_label := VerificationToken;
                 node_props := {[ "identifier" := VStr "ann@example.com";
                                  "token" := VStr "s3cret";
                                  "expires" := VStr "2030-01-01T00:00:00.000Z" ]} |} [])
    as (g1 & H1 & _ & _ & H2).
  - reflexivity.
  - exists g1. split; [|exact H2]. rewrite H1. reflexivity.
Defined.

Lemma to_field_fmap_lookup (data : obj) k :
  (to_field <$> data) !! k = to_field <$> data !! k.
Proof. apply lookup_fmap. Qed.

Lemma param_to_field_id (data : obj) k s :
  data !! k = Some (VStr s) → param (to_field <$> data) k = VStr s.
Proof. intros H. unfold param. rewrite lookup_fmap, H. reflexivity. Qed.

Lemma update_props_In ids f g n :
  In n (nodes g) → In (node_id n) ids →
  In {| node_id := node_id n; node_label := node_label n; node_props := f (node_props n) |}
     (nodes (update_props ids f g)).
Proof.
  intros Hn Hid. simpl. apply in_map_iff. exists n. split; [|exact Hn].
  apply mem_In in Hid. rewrite Hid. reflexivity.
Qed.

(** C4.  On an existing user [updateUser] writes the supplied fields
    over the stored ones and keeps every other field: a field the update
    does not supply (or supplies as undefined) keeps its value, a
    supplied value replaces the stored one in store form, a supplied null
    removes the field.  It returns the properties of the user after the
    update. *)
Theorem updateUser_merge (host : string → option Z) (data : obj) (g : graph)
    (id : string) (u : node) (rest : list node) :
  data !! "id" = Some (VStr id) →
  map_Forall (λ _ v, plain v = true) data →
  match_nodes User [("id", VStr id)] g = u :: rest →
  let fields : obj := to_field <$> data in
  let updated := set_merge (node_props u) fields in
  let g' := update_props (map node_id (u :: rest)) (λ props, set_merge props fields) g in
  updateUser host data g = Ok (g', VObj updated)
  ∧ In {| node_id := node_id u; node_label := User; node_props := updated |} (nodes g')
  ∧ ∀ k, updated !! k = match data !! k with
                         | None | Some VUndefined => node_props u !! k
                         | Some VNull => None
                         | Some v => Some (to_field v)
                         end.
Proof.
  intros Hid Hplain Hu fields updated g'.
  assert (In u (match_nodes User [("id", VStr id)] g)) as Hin by (rewrite Hu; left; reflexivity).
  apply match_nodes_In in Hin as (Hnode & Hlabel & _).
  split; [|split].
  - unfold updateUser.
    erewrite write_Ok; [|apply format_to_plain, Hplain|].
    2:{ unfold updateUser_stmt. rewrite (param_to_field_id data "id" id Hid), Hu.
        rewrite check_storable_plain by exact Hplain. reflexivity. }
    simpl head. simpl fmap. rewrite insert_empty, format_from_column. simpl.
    rewrite lookup_singleton_eq. reflexivity.
  - rewrite <- Hlabel. apply (update_props_In _ (λ props, set_merge props fields) g u Hnode).
    left. reflexivity.
  - intros k. unfold updated, fields. rewrite set_merge_lookup, lookup_fmap.
    destruct (data !! k) as [v|]; [|reflexivity].
    destruct v as [| | | | |[t|]| | |]; reflexivity.
Qed.

Lemma updateUser_merge_witness :
  ∃ g',
    updateUser standard_host {[ "id" := VStr "u1"; "name" := VStr "X" ]} ann_with_email
    = Ok (g', VObj {[ "id" := VStr "u1"; "name" := VStr "X";
                      "email" := VStr "ann@example.com" ]})
    ∧ nodes g' = [ {| node_id := 0; node_label := User;
                      node_props := {[ "id" := VStr "u1"; "name" := VStr "X";
                                       "email" := VStr "ann@example.com" ]} |} ].
Proof.
  destruct (updateUser_merge standard_host {[ "id" := VStr "u1"; "name" := VStr "X" ]}
              ann_with_email "u1"
              {| node_id := 0; node_label := User;
                 node_props := {[ "id" := VStr "u1"; "name" := VStr "Ann";
                                  "email" := VStr "ann@example.com" ]} |} [])
    as (H1 & _ & _).
  - reflexivity.
  - apply map_Forall_insert_2; [reflexivity|]. apply map_Forall_singleton. reflexivity.
  - reflexivity.
  - eexists. split; [rewrite H1; reflexivity|reflexivity].
Defined.

(** *** Deleting a user *)

Lemma find_filter_keep {A} (p q : A → bool) (l : list A) :
  (∀ x, In x l → p x = true → q x = true) →
  List.find p (List.filter q l) = List.find p l.
Proof.
  intros H. induction l as [|a l IH]; [reflexivity|]. simpl.
  assert (∀ x, In x l → p x = true → q x = true) as H' by (intros x Hx; apply H; right; exact Hx).
  destruct (p a) eqn:Ep.
  - rewrite (H a (or_introl eq_refl) Ep). simpl. rewrite Ep. reflexivity.
  - destruct (q a); simpl; [rewrite Ep|]; apply IH, H'.
Qed.

Lemma node_at_detach_delete ids g id :
  ¬ In id ids → node_at (detach_delete ids g) id = node_at g id.
Proof.
  intros Hid. unfold node_at. simpl. apply find_filter_keep.
  intros n _ Hn. apply Nat.eqb_eq in Hn. subst id.
  apply negb_true_iff. destruct (mem (node_id n) ids) eqn:E; [|reflexivity].
  apply mem_In in E. contradiction.
Qed.

Lemma node_at_Some g id n : node_at g id = Some n → In n (nodes g) ∧ node_id n = id.
Proof.
  unfold node_at. intros H. apply find_some in H as [H1 H2].
  apply Nat.eqb_eq in H2. auto.
Qed.

Lemma match_owned_In t l pat g u x :
  In (u, x) (match_owned t l pat g) ↔
  ∃ r, In r (rels g) ∧ rel_type r = t ∧
       node_at g (rel_src r) = Some u ∧ node_at g (rel_dst r) = Some x ∧
       node_label u = User ∧ node_label x = l ∧ has_props pat x = true.
Proof.
  unfold match_owned. rewrite <- list_elem_of_In, list_elem_of_omap. split.
  - intros (r & Hr & E). exists r. apply list_elem_of_In in Hr.
    destruct (bool_decide (rel_type r = t)) eqn:Et; [|discriminate].
    apply bool_decide_eq_true in Et.
    destruct (node_at g (rel_src r)) as [u'|]; [|discriminate].
    destruct (node_at g (rel_dst r)) as [x'|]; [|discriminate]. simpl in E.
    destruct (_ && _) eqn:Ec; [|discriminate]. injection E as <- <-.
    apply andb_true_iff in Ec as [Ec Hp]. apply andb_true_iff in Ec as [Hu Hx].
    apply bool_decide_eq_true in Hu, Hx. auto 10.
  - intros (r & Hr & Et & Hu & Hx & Lu & Lx & Hp). exists r.
    split; [apply list_elem_of_In, Hr|].
    rewrite bool_decide_eq_true_2 by exact Et. rewrite Hu, Hx. simpl.
    rewrite !bool_decide_eq_true_2 by assumption. rewrite Hp. reflexivity.
Qed.

(** After a delete, what still matches through a relationship matched
    before, and has neither end among the deleted. *)
Lemma match_owned_detach_delete t l pat ids g u x :
  In (u, x) (match_owned t l pat (detach_delete ids g)) →
  In (u, x) (match_owned t l pat g) ∧ ¬ In (node_id u) ids ∧ ¬ In (node_id x) ids.
Proof.
  rewrite !match_owned_In. intros (r & Hr & Et & Hu & Hx & Hl).
  simpl in Hr. apply filter_In in Hr as [Hr Hkeep].
  apply andb_true_iff in Hkeep as [Hs Hd].
  assert (¬ In (rel_src r) ids) as Hs'
    by (intros H; apply mem_In in H; rewrite H in Hs; discriminate).
  assert (¬ In (rel_dst r) ids) as Hd'
    by (intros H; apply mem_In in H; rewrite H in Hd; discriminate).
  rewrite node_at_detach_delete in Hu, Hx by assumption.
  destruct (node_at_Some _ _ _ Hu) as [_ Eu]. destruct (node_at_Some _ _ _ Hx) as [_ Ex].
  split; [exists r; auto 10|]. rewrite Eu, Ex. auto.
Qed.

Lemma match_owned_orphaned t l pat ids g :
  (∀ u x, In (u, x) (match_owned t l pat g) → In (node_id u) ids) →
  match_owned t l pat (detach_delete ids g) = [].
Proof.
  intros H. destruct (match_owned t l pat (detach_delete ids g)) as [|[u x] rest] eqn:E;
    [reflexivity|].
  assert (In (u, x) (match_owned t l pat (detach_delete ids g))) as Hin
    by (rewrite E; left; reflexivity).
  apply match_owned_detach_delete in Hin as (Hin & Hu & _).
  destruct (Hu (H u x Hin)).
Qed.

Lemma NoDup_map_inj {A B} (f : A → B) (l : list A) a b :
  List.NoDup (map f l) → In a l → In b l → f a = f b → a = b.
Proof.
  induction l as [|c l IH]; simpl; [intros _ []|].
  intros Hnd Ha Hb E. apply NoDup_cons_iff in Hnd as [Hc Hnd].
  destruct Ha as [->|Ha], Hb as [->|Hb]; auto.
  - destruct Hc. rewrite E. apply in_map, Hb.
  - destruct Hc. rewrite <- E. apply in_map, Ha.
Qed.

Lemma datetime_now now :
  valid_time now → datetime (VStr (toISOString now)) = Ok now.
Proof. intros H. simpl. rewrite parse_iso_toISOString by exact H. reflexivity. Qed.

Lemma format_to_fixed (fields : obj) :
  map_Forall (λ _ v, serialisable v = true) fields →
  (∀ k v, fields !! k = Some v → to_field v = v) →
  format_to fields = Ok fields.
Proof.
  intros Hs Hid. unfold format_to. rewrite bool_decide_eq_true_2 by exact Hs. f_equal.
  apply map_eq. intros k. rewrite lookup_fmap.
  destruct (fields !! k) as [v|] eqn:E; [simpl; f_equal; eauto|reflexivity].
Qed.

Lemma getSessionAndUser_unowned host now token g :
  valid_time now →
  match_owned HAS_SESSION Session [("sessionToken", VStr token)] g = [] →
  getSessionAndUser host now token g = Ok (g, None).
Proof.
  intros Hnow Hnone. unfold getSessionAndUser.
  erewrite write_Ok.
  2:{ apply format_to_fixed.
      - apply map_Forall_insert_2; [reflexivity|]. apply map_Forall_singleton. reflexivity.
      - intros k v Hk. apply lookup_insert_Some in Hk as [[_ <-]|[_ Hk]]; [reflexivity|].
        apply lookup_singleton_Some in Hk as [_ <-]. reflexivity. }
  2:{ unfold getSessionAndUser_stmt.
      change (param _ "now") with (VStr (toISOString now)).
      rewrite (datetime_now now Hnow). simpl.
      change (session_pattern _) with [("sessionToken", VStr token)].
      rewrite Hnone. simpl. rewrite detach_delete_nil, Hnone. reflexivity. }
  reflexivity.
Qed.

Lemma deleteSession_unowned host token g :
  match_owned HAS_SESSION Session [("sessionToken", VStr token)] g = [] →
  deleteSession host token g = Ok (g, None).
Proof.
  intros Hnone. unfold deleteSession.
  erewrite write_Ok.
  2:{ apply format_to_fixed.
      - apply map_Forall_singleton. reflexivity.
      - intros k v Hk. apply lookup_singleton_Some in Hk as [_ <-]. reflexivity. }
  2:{ unfold deleteSession_stmt.
      change (session_pattern _) with [("sessionToken", VStr token)].
      rewrite Hnone. simpl. rewrite detach_delete_nil. reflexivity. }
  reflexivity.
Qed.

Lemma getUserByAccount_unowned host pp g :
  match_owned HAS_ACCOUNT Account (account_key pp) g = [] →
  getUserByAccount host pp g = None.
Proof.
  intros Hnone. unfold getUserByAccount, read, getUserByAccount_query.
  rewrite Hnone. reflexivity.
Qed.

(** C3, as stated, fails: the Account node outlives its user. *)
Lemma deleteUser_leaves_owned : ¬ removes_owned standard_host "u1" linked_graph.
Proof.
  intros H.
  apply (H {| nodes := [ann_session; ann_account]; rels := []; next_id := 3 |}
           (Some {[ "properties" := VObj (node_props ann) ]}) eq_refl
           HAS_ACCOUNT Account ann ann_account).
  - left. reflexivity.
  - left. reflexivity.
  - right. left. reflexivity.
Qed.

(** C3, amended.  [deleteUser] removes the User nodes with that id and
    every relationship that starts at them; nodes with another label,
    the Accounts and Sessions among them, stay in the store.  For an
    account key or a session token that only that user owned,
    [getUserByAccount], [getSessionAndUser] and [deleteSession] then
    return null. *)
Theorem deleteUser_detaches (host : string → option Z) (id : string) (g : graph) :
  unique_ids g →
  let users := match_nodes User [("id", VStr id)] g in
  let g' := detach_delete (map node_id users) g in
  deleteUser host id g
  = Ok (g', (λ u, {[ "properties" := VObj (node_props u) ]}) <$> head users)
  ∧ match_nodes User [("id", VStr id)] g' = []
  ∧ (∀ r, In r (rels g') → ¬ In (rel_src r) (map node_id users))
  ∧ (∀ n, In n (nodes g) → node_label n ≠ User → In n (nodes g'))
  ∧ (∀ pp, (∀ u x, In (u, x) (match_owned HAS_ACCOUNT Account (account_key pp) g) →
                   In u users) →
           getUserByAccount host pp g' = None)
  ∧ (∀ now token,
       valid_time now →
       (∀ u x, In (u, x) (match_owned HAS_SESSION Session [("sessionToken", VStr token)] g) →
               In u users) →
       getSessionAndUser host now token g' = Ok (g', None)
       ∧ deleteSession host token g' = Ok (g', None)).
Proof.
  intros Hids users g'.
  split; [|split; [apply match_nodes_detach_delete|split; [|split; [|split]]]].
  - unfold deleteUser. erewrite write_Ok.
    2:{ apply format_to_fixed.
        - apply map_Forall_singleton. reflexivity.
        - intros k v Hk. apply lookup_singleton_Some in Hk as [_ <-]. reflexivity. }
    2:{ unfold deleteUser_stmt. change (param _ "id") with (VStr id). reflexivity. }
    fold users g'. destruct users as [|u rest]; [reflexivity|].
    simpl head. simpl fmap. rewrite insert_empty, format_from_column. reflexivity.
  - intros r Hr Hsrc. simpl in Hr. apply filter_In in Hr as [_ Hr].
    apply mem_In in Hsrc. rewrite Hsrc in Hr. discriminate.
  - intros n Hn Hl. simpl. apply filter_In. split; [exact Hn|].
    apply negb_true_iff. destruct (mem (node_id n) (map node_id users)) eqn:E; [|reflexivity].
    apply mem_In, in_map_iff in E as (u & Eid & Hu).
    apply match_nodes_In in Hu as (Hu & Hlu & _).
    rewrite (NoDup_map_inj node_id (nodes g) u n Hids Hu Hn Eid) in Hlu. contradiction.
  - intros pp Hown. apply getUserByAccount_unowned, match_owned_orphaned.
    intros u x Hux. apply in_map, (Hown u x Hux).
  - intros now token Hnow Hown.
    assert (match_owned HAS_SESSION Session [("sessionToken", VStr token)] g' = []) as Hnone.
    { apply match_owned_orphaned. intros u x Hux. apply in_map, (Hown u x Hux). }
    split; [apply getSessionAndUser_unowned|apply deleteSession_unowned]; assumption.
Qed.

Lemma deleteUser_detaches_witness :
  ∃ g', deleteUser standard_host "u1" linked_graph
        = Ok (g', Some {[ "properties" := VObj (node_props ann) ]})
      ∧ In ann_account (nodes g') ∧ In ann_session (nodes g')
      ∧ getUserByAccount standard_host
          {[ "provider" := VStr "github"; "providerAccountId" := VStr "42" ]} g' = None
      ∧ deleteSession standard_host "tok" g' = Ok (g', None).
Proof.
  assert (unique_ids linked_graph) as Hids.
  { unfold unique_ids. simpl. repeat constructor; simpl; intuition discriminate. }
  destruct (deleteUser_detaches standard_host "u1" linked_graph Hids)
    as (H1 & _ & _ & H4 & H5 & H6).
  eexists. split; [exact H1|]. split; [|split; [|split]].
  - apply H4; [right; right; left; reflexivity|discriminate].
  - apply H4; [right; left; reflexivity|discriminate].
  - apply H5. intros u x [E|[]]. injection E as <- <-. left. reflexivity.
  - apply (H6 0%Z "tok").
    + unfold valid_time, max_time. lia.
    + intros u x [E|[]]. injection E as <- <-. left. reflexivity.
Defined.

(** *** Expiry *)

(** Wherever [expires] is not a temporal value, and [createSession]
    writes it as a string, [getSessionAndUser] deletes nothing. *)
Lemma getSessionAndUser_no_purge host now token g :
  valid_time now →
  (∀ u s, In (u, s) (match_owned HAS_SESSION Session [("sessionToken", VStr token)] g) →
          ∀ i r, node_props s !! "expires" ≠ Some (VDateTime i r)) →
  ∃ r, getSessionAndUser host now token g = Ok (g, r).
Proof.
  intros Hnow Hexp. unfold getSessionAndUser.
  erewrite write_Ok.
  2:{ apply format_to_fixed.
      - apply map_Forall_insert_2; [reflexivity|]. apply map_Forall_singleton. reflexivity.
      - intros k v Hk. apply lookup_insert_Some in Hk as [[_ <-]|[_ Hk]]; [reflexivity|].
        apply lookup_singleton_Some in Hk as [_ <-]. reflexivity. }
  2:{ unfold getSessionAndUser_stmt.
      change (param _ "now") with (VStr (toISOString now)).
      rewrite (datetime_now now Hnow). simpl.
      change (session_pattern _) with [("sessionToken", VStr token)].
      rewrite filter_none.
      - simpl. rewrite detach_delete_nil. reflexivity.
      - intros [u s] Hus. specialize (Hexp u s Hus). simpl.
        destruct (node_props s !! "expires") as [[]|]; try reflexivity.
        destruct (Hexp instant rendering eq_refl). }
  simpl.
  match goal with
  | |- context [field ?r "session"] =>
      destruct (field r "session") as [s|], (field r "user") as [u|]
  end; try (eexists; reflexivity).
  destruct (truthy s && truthy u); eexists; reflexivity.
Qed.

(** C5 on the code.  A session that [createSession] stored in 2020 is not
    purged by [getSessionAndUser] in 2023: it is returned with its user,
    and it stays in the store. *)
Theorem getSessionAndUser_keeps_expired :
  createUser standard_host "u1" {[ "name" := VStr "Ann" ]} empty_graph
  = Ok (ann_alone, {[ "id" := VStr "u1"; "name" := VStr "Ann" ]})
  ∧ createSession standard_host expired_session ann_alone
    = Ok (ann_logged_in, expired_session)
  ∧ getSessionAndUser standard_host 1700000000000 "tok" ann_logged_in
    = Ok (ann_logged_in, Some (Some expired_session, Some (node_props ann))).
Proof. repeat split. Qed.

(** The purge itself works on a temporal value. *)
Example getSessionAndUser_purges_temporal :
  let g := {| nodes := [ann;
                {| node_id := 1; node_label := Session;
                   node_props := {[ "sessionToken" := VStr "tok";
                                    "expires" := VDateTime 1600000000000
                                                   "2020-09-13T12:26:40Z" ]} |}];
              rels := [ {| rel_src := 0; rel_type := HAS_SESSION; rel_dst := 1 |} ];
              next_id := 2 |} in
  getSessionAndUser standard_host 1700000000000 "tok" g
  = Ok ({| nodes := [ann]; rels := []; next_id := 2 |}, None)
  ∧ getSessionAndUser standard_host 1500000000000 "tok" g
    = Ok (g, Some (Some expired_session, Some (node_props ann))).
Proof. split; reflexivity. Qed.

(** *** Linking an account *)

Lemma overwrite_twice old new : overwrite (overwrite old new) new = overwrite old new.
Proof. destruct new as [[]|]; reflexivity. Qed.

Lemma set_merge_twice (props m : obj) : set_merge (set_merge props m) m = set_merge props m.
Proof. apply map_eq. intros k. rewrite !set_merge_lookup. apply overwrite_twice. Qed.

Lemma filter_map_commute {A} (p : A → bool) (f : A → A) (l : list A) :
  (∀ x, In x l → p (f x) = p x) → List.filter p (map f l) = map f (List.filter p l).
Proof.
  intros H. induction l as [|x l IH]; [reflexivity|]. simpl.
  rewrite (H x (or_introl eq_refl)), IH by (intros y Hy; apply H; right; exact Hy).
  destruct (p x); reflexivity.
Qed.

Lemma existsb_filter {A} (p : A → bool) (l : list A) :
  existsb p l = negb (Nat.eqb (length (List.filter p l)) 0).
Proof.
  induction l as [|x l IH]; [reflexivity|]. simpl.
  destruct (p x); [reflexivity|exact IH].
Qed.

Lemma update_props_one i f g :
  nodes (update_props [i] f g)
  = map (λ n, if Nat.eqb (node_id n) i then with_props f n else n) (nodes g).
Proof.
  simpl. apply map_ext. intros n. unfold mem. simpl. rewrite orb_false_r. reflexivity.
Qed.

Lemma match_nodes_same_nodes l pat g g' :
  nodes g' = nodes g → match_nodes l pat g' = match_nodes l pat g.
Proof. unfold match_nodes. intros ->. reflexivity. Qed.

Lemma merge_rel_nodes s t d g : nodes (merge_rel s t d g) = nodes g.
Proof. unfold merge_rel. destruct (has_rel s t d g); reflexivity. Qed.

Lemma merge_rel_next_id s t d g : next_id (merge_rel s t d g) = next_id g.
Proof. unfold merge_rel. destruct (has_rel s t d g); reflexivity. Qed.

Lemma has_rel_count s t d g : has_rel s t d g = negb (Nat.eqb (count_rels s t d g) 0).
Proof. apply existsb_filter. Qed.

Lemma merge_rel_count s t d g :
  (count_rels s t d g ≤ 1)%nat → count_rels s t d (merge_rel s t d g) = 1.
Proof.
  intros H. unfold merge_rel. rewrite has_rel_count.
  destruct (Nat.eqb_spec (count_rels s t d g) 0) as [E|E]; simpl; [|lia].
  unfold count_rels in *. simpl. rewrite List.filter_app, length_app, E. simpl.
  rewrite !Nat.eqb_refl, bool_decide_eq_true_2 by reflexivity. reflexivity.
Qed.

Lemma merge_rel_has s t d g : has_rel s t d (merge_rel s t d g) = true.
Proof.
  unfold merge_rel. destruct (has_rel s t d g) eqn:E; [exact E|].
  unfold has_rel. simpl. rewrite existsb_app. simpl.
  rewrite !Nat.eqb_refl, bool_decide_eq_true_2 by reflexivity. apply orb_true_r.
Qed.


Lemma match_nodes_create l pat l' props g :
  match_nodes l pat (create_node l' props g).1
  = (match_nodes l pat g
     ++ List.filter (λ n, bool_decide (node_label n = l) && has_props pat n)
          [{| node_id := next_id g; node_label := l'; node_props := props |}])%list.
Proof. unfold match_nodes. simpl nodes. apply List.filter_app. Qed.

Section Link.
Variable host : string → option Z.
Variables (data : obj) (uid provider pid : string).
Hypothesis Huid : data !! "userId" = Some (VStr uid).
Hypothesis Hprovider : data !! "provider" = Some (VStr provider).
Hypothesis Hpid : data !! "providerAccountId" = Some (VStr pid).
Hypothesis Hstorable : map_Forall (λ _ v, storable v = true) data.

Let a : obj := delete "userId" data.
Let key : list (string * value) :=
  [("providerAccountId", VStr pid); ("provider", VStr provider)].

Lemma link_key : account_key a = key.
Proof.
  unfold account_key, key, param, a.
  rewrite !lookup_delete_ne by discriminate. rewrite Hprovider, Hpid. reflexivity.
Qed.

Lemma link_storable : check_storable a = Ok tt.
Proof.
  unfold check_storable. rewrite bool_decide_eq_true_2; [reflexivity|].
  intros k v Hk. apply lookup_delete_Some in Hk as [_ Hk]. exact (Hstorable k v Hk).
Qed.

Lemma linkAccount_statement g :
  linkAccount host data g
  = (linkAccount_stmt (link_values uid a) g ≫= λ r, Ok (r.1, data)).
Proof.
  unfold linkAccount. rewrite Huid. simpl default. fold a.
  change ({[ "userId" := VStr uid; "a" := VObj a ]} : obj) with (link_values uid a).
  unfold write.
  assert (format_to (link_values uid a) = Ok (link_values uid a)) as ->.
  { apply format_to_fixed.
    - apply map_Forall_insert_2; [reflexivity|]. apply map_Forall_singleton. reflexivity.
    - intros k v Hk. unfold link_values in Hk.
      apply lookup_insert_Some in Hk as [[_ <-]|[_ Hk]]; [reflexivity|].
      apply lookup_singleton_Some in Hk as [_ <-]. reflexivity. }
  simpl. destruct (linkAccount_stmt (link_values uid a) g) as [[g' rs]|e]; reflexivity.
Qed.
Lemma key_has_props (props : obj) :
  has_props key (with_props (λ p, set_merge p a) {| node_id := 0; node_label := Account; node_props := props |}) = true.
Proof.
  unfold has_props, key. simpl. rewrite !set_merge_lookup.
  unfold a. rewrite !lookup_delete_ne by discriminate. rewrite Hprovider, Hpid. simpl.
  rewrite !String.eqb_refl. reflexivity.
Qed.

Lemma key_has_props_updated n :
  has_props key (with_props (λ p, set_merge p a) n) = true.
Proof. exact (key_has_props (node_props n)). Qed.

Let upd (i : nat) (n : node) : node :=
  if Nat.eqb (node_id n) i then with_props (λ p, set_merge p a) n else n.

Lemma upd_twice i n : upd i (upd i n) = upd i n.
Proof.
  unfold upd. destruct (Nat.eqb (node_id n) i) eqn:E; simpl; rewrite E; [|reflexivity].
  unfold with_props. simpl. rewrite set_merge_twice. reflexivity.
Qed.

Lemma upd_id i n : node_id (upd i n) = node_id n.
Proof. unfold upd. destruct (Nat.eqb (node_id n) i); reflexivity. Qed.

Lemma upd_label i n : node_label (upd i n) = node_label n.
Proof. unfold upd. destruct (Nat.eqb (node_id n) i); reflexivity. Qed.

(** One user, one account: what linking leaves, and that linking again
    changes nothing. *)
Lemma link_to_spec g u acc :
  unique_ids g →
  match_nodes User [("id", VStr uid)] g = [u] →
  match_nodes Account key g = [acc] →
  (count_rels (node_id u) HAS_ACCOUNT (node_id acc) g ≤ 1)%nat →
  let acc' := with_props (λ p, set_merge p a) acc in
  let g1 := link_to u acc a g in
  unique_ids g1
  ∧ match_nodes User [("id", VStr uid)] g1 = [u]
  ∧ match_nodes Account key g1 = [acc']
  ∧ count_rels (node_id u) HAS_ACCOUNT (node_id acc') g1 = 1
  ∧ link_to u acc' a g1 = g1.
Proof.
  intros Hids Hu Hacc Hcount acc' g1.
  assert (In u (nodes g) ∧ node_label u = User) as [Hun Hul].
  { assert (In u (match_nodes User [("id", VStr uid)] g)) as H by (rewrite Hu; left; reflexivity).
    apply match_nodes_In in H. tauto. }
  assert (In acc (nodes g) ∧ node_label acc = Account) as [Han Hal].
  { assert (In acc (match_nodes Account key g)) as H by (rewrite Hacc; left; reflexivity).
    apply match_nodes_In in H. tauto. }
  assert (∀ n, In n (nodes g) → node_id n = node_id acc → n = acc) as Hsame.
  { intros n Hn E. exact (NoDup_map_inj node_id (nodes g) n acc Hids Hn Han E). }
  set (g2 := update_props [node_id acc] (λ props, set_merge props a) g).
  assert (nodes g2 = map (upd (node_id acc)) (nodes g)) as Hn2 by apply update_props_one.
  assert (nodes g1 = map (upd (node_id acc)) (nodes g)) as Hn1.
  { unfold g1, link_to. rewrite merge_rel_nodes. exact Hn2. }
  assert (upd (node_id acc) acc = acc') as Hupd.
  { unfold upd. rewrite Nat.eqb_refl. reflexivity. }
  assert (match_nodes User [("id", VStr uid)] g1 = [u]) as Hu1.
  { unfold match_nodes. rewrite Hn1, filter_map_commute.
    - fold (match_nodes User [("id", VStr uid)] g). rewrite Hu. simpl. f_equal.
      unfold upd. destruct (Nat.eqb_spec (node_id u) (node_id acc)) as [E|E]; [|reflexivity].
      rewrite (Hsame u Hun E) in Hul. congruence.
    - intros n Hn. unfold upd.
      destruct (Nat.eqb_spec (node_id n) (node_id acc)) as [E|E]; [|reflexivity].
      rewrite (Hsame n Hn E). simpl. rewrite Hal. reflexivity. }
  assert (match_nodes Account key g1 = [acc']) as Ha1.
  { unfold match_nodes. rewrite Hn1, filter_map_commute.
    - fold (match_nodes Account key g). rewrite Hacc. simpl. rewrite Hupd. reflexivity.
    - intros n Hn. unfold upd.
      destruct (Nat.eqb_spec (node_id n) (node_id acc)) as [E|E]; [|reflexivity].
      rewrite (Hsame n Hn E). rewrite key_has_props_updated.
      assert (In acc (match_nodes Account key g)) as H by (rewrite Hacc; left; reflexivity).
      apply match_nodes_In in H as (_ & _ & ->). reflexivity. }
  split; [|split; [exact Hu1|split; [exact Ha1|split]]].
  - unfold unique_ids. rewrite Hn1, map_map.
    erewrite map_ext; [exact Hids|]. intros n. apply upd_id.
  - apply merge_rel_count. exact Hcount.
  - unfold link_to at 1. change (node_id acc') with (node_id acc).
    assert (update_props [node_id acc] (λ props, set_merge props a) g1 = g1) as ->.
    { destruct g1 as [ns rs nx] eqn:Eg. unfold update_props.
      pose proof (update_props_one (node_id acc) (λ props, set_merge props a) g1) as E.
      rewrite Eg in E. simpl in E. simpl. rewrite E. fold (upd (node_id acc)).
      simpl in Hn1. rewrite Hn1, map_map.
      erewrite map_ext; [reflexivity|]. intros n. apply upd_twice. }
    unfold merge_rel. unfold g1 at 1, link_to. rewrite merge_rel_has. reflexivity.
Qed.

Lemma link_stmt_existing g u acc :
  match_nodes User [("id", VStr uid)] g = [u] →
  match_nodes Account key g = [acc] →
  linkAccount_stmt (link_values uid a) g = Ok (link_to u acc a g, []).
Proof.
  intros Hu Hacc. unfold linkAccount_stmt.
  change (param (link_values uid a) "userId") with (VStr uid).
  change (param_map (link_values uid a) "a") with a.
  rewrite Hu, link_key. simpl foldl. unfold merge_node.
  change (existsb _ key) with false. cbv iota. rewrite Hacc. simpl.
  rewrite link_storable. reflexivity.
Qed.

Lemma link_stmt_new g u :
  well_formed g →
  match_nodes User [("id", VStr uid)] g = [u] →
  match_nodes Account key g = [] →
  let n := {| node_id := next_id g; node_label := Account; node_props := list_to_map key |} in
  let gA := (create_node Account (list_to_map key) g).1 in
  linkAccount_stmt (link_values uid a) g = Ok (link_to u n a gA, [])
  ∧ unique_ids gA
  ∧ match_nodes User [("id", VStr uid)] gA = [u]
  ∧ match_nodes Account key gA = [n]
  ∧ count_rels (node_id u) HAS_ACCOUNT (node_id n) gA = 0.
Proof.
  intros (Hids & Hnodes & Hrels) Hu Hacc n gA.
  split; [|split; [|split; [|split]]].
  - unfold linkAccount_stmt.
    change (param (link_values uid a) "userId") with (VStr uid).
    change (param_map (link_values uid a) "a") with a.
    rewrite Hu, link_key. simpl foldl. unfold merge_node.
    change (existsb _ key) with false. cbv iota. rewrite Hacc. simpl.
    rewrite link_storable. reflexivity.
  - unfold unique_ids. simpl. rewrite map_app. simpl.
    apply List.NoDup_app; [exact Hids|repeat constructor; intros []|].
    intros i Hi [<-|[]]. apply in_map_iff in Hi as (m & E & Hm).
    rewrite List.Forall_forall in Hnodes. specialize (Hnodes m Hm). lia.
  - unfold gA. rewrite match_nodes_create, Hu. reflexivity.
  - unfold gA. rewrite match_nodes_create, Hacc. simpl.
    rewrite lookup_insert_eq, lookup_insert_ne, lookup_insert_eq by discriminate.
    simpl. rewrite !String.eqb_refl. reflexivity.
  - unfold count_rels. simpl. rewrite filter_none; [reflexivity|].
    intros r Hr. rewrite List.Forall_forall in Hrels. specialize (Hrels r Hr).
    destruct (Nat.eqb_spec (rel_dst r) (next_id g)) as [E|E]; [lia|].
    apply andb_false_r.
Qed.

(** C6.  In a well-formed store where the user exists once, at most one
    Account has the payload's (provider, providerAccountId) and at most
    one relationship joins the two, [linkAccount] leaves exactly one such
    Account and exactly one HAS_ACCOUNT relationship from the user to it;
    a second call with the same payload returns the same and leaves the
    store as the first call left it. *)
Theorem linkAccount_idempotent g u :
  well_formed g →
  match_nodes User [("id", VStr uid)] g = [u] →
  (length (match_nodes Account key g) ≤ 1)%nat →
  (∀ acc, In acc (match_nodes Account key g) →
          (count_rels (node_id u) HAS_ACCOUNT (node_id acc) g ≤ 1)%nat) →
  ∃ g1 acc,
    linkAccount host data g = Ok (g1, data)
    ∧ linkAccount host data g1 = Ok (g1, data)
    ∧ match_nodes Account key g1 = [acc]
    ∧ count_rels (node_id u) HAS_ACCOUNT (node_id acc) g1 = 1.
Proof.
  intros Hwf Hu Hlen Hcount.
  destruct (match_nodes Account key g) as [|acc [|acc2 rest]] eqn:Hacc;
    [| |simpl in Hlen; lia].
  - destruct (link_stmt_new g u Hwf Hu Hacc) as (Hstmt & HidsA & HuA & HaccA & HcountA).
    set (n := {| node_id := next_id g; node_label := Account; node_props := list_to_map key |}) in *.
    set (gA := (create_node Account (list_to_map key) g).1) in *.
    destruct (link_to_spec gA u n HidsA HuA HaccA) as (_ & Hu1 & Ha1 & Hc1 & Hfix);
      [rewrite HcountA; lia|].
    exists (link_to u n a gA), (with_props (λ p, set_merge p a) n).
    rewrite !linkAccount_statement, Hstmt.
    rewrite (link_stmt_existing _ u _ Hu1 Ha1), Hfix. auto.
  - destruct Hwf as (Hids & _).
    destruct (link_to_spec g u acc Hids Hu Hacc) as (_ & Hu1 & Ha1 & Hc1 & Hfix);
      [apply Hcount; left; reflexivity|].
    exists (link_to u acc a g), (with_props (λ p, set_merge p a) acc).
    rewrite !linkAccount_statement, (link_stmt_existing g u acc Hu Hacc).
    rewrite (link_stmt_existing _ u _ Hu1 Ha1), Hfix. auto.
Qed.

End Link.

Lemma linkAccount_idempotent_witness :
  ∃ g1 acc,
    linkAccount standard_host github_account ann_alone = Ok (g1, github_account)
    ∧ linkAccount standard_host github_account g1 = Ok (g1, github_account)
    ∧ match_nodes Account
        [("providerAccountId", VStr "42"); ("provider", VStr "github")] g1 = [acc]
    ∧ count_rels (node_id ann) HAS_ACCOUNT (node_id acc) g1 = 1.
Proof.
  apply (linkAccount_idempotent standard_host github_account "u1" "github" "42").
  - reflexivity.
  - reflexivity.
  - reflexivity.
  - do 3 (apply map_Forall_insert_2; [reflexivity|]).
    apply map_Forall_singleton. reflexivity.
  - split; [|split].
    + unfold unique_ids. simpl. repeat constructor. intros [].
    + repeat constructor.
    + constructor.
  - reflexivity.
  - simpl. lia.
  - intros acc [].
Defined.


(** *** The sample stores are stores the adapter builds *)

Example token_graph_built :
  createVerificationToken standard_host
    {[ "identifier" := VStr "ann@example.com"; "token" := VStr "s3cret";
       "expires" := VDate (Some 1893456000000%Z) ]} empty_graph
  = Ok (token_graph,
        {[ "identifier" := VStr "ann@example.com"; "token" := VStr "s3cret";
           "expires" := VDate (Some 1893456000000%Z) ]})
  ∧ useVerificationToken standard_host
      {[ "identifier" := VStr "ann@example.com"; "token" := VStr "s3cret" ]} token_graph
    = Ok ({| nodes := []; rels := []; next_id := 1 |},
          Some {[ "identifier" := VStr "ann@example.com"; "token" := VStr "s3cret";
                  "expires" := VDate (Some 1893456000000%Z) ]}).
Proof. split; reflexivity. Qed.

Example linked_graph_built :
  createUser standard_host "u1" {[ "name" := VStr "Ann" ]} empty_graph
  = Ok (ann_alone, node_props ann)
  ∧ createSession standard_host
      {[ "sessionToken" := VStr "tok"; "userId" := VStr "u1";
         "expires" := VDate (Some 1893456000000%Z) ]} ann_alone
    = Ok ({| nodes := [ann; ann_session];
             rels := [ {| rel_src := 0; rel_type := HAS_SESSION; rel_dst := 1 |} ];
             next_id := 2 |},
          {[ "sessionToken" := VStr "tok"; "userId" := VStr "u1";
             "expires" := VDate (Some 1893456000000%Z) ]})
  ∧ linkAccount standard_host
      {[ "userId" := VStr "u1"; "provider" := VStr "github";
         "providerAccountId" := VStr "42" ]}
      {| nodes := [ann; ann_session];
         rels := [ {| rel_src := 0; rel_type := HAS_SESSION; rel_dst := 1 |} ];
         next_id := 2 |}
    = Ok (linked_graph,
          {[ "userId" := VStr "u1"; "provider" := VStr "github";
             "providerAccountId" := VStr "42" ]}).
Proof. repeat split. Qed.

(** Before the user is deleted the lookups find the user, afterwards they
    find nothing, and the two nodes are still there. *)
Example linked_graph_lookups :
  getUserByAccount standard_host
    {[ "provider" := VStr "github"; "providerAccountId" := VStr "42" ]} linked_graph
  = Some (node_props ann)
  ∧ deleteUser standard_host "u1" linked_graph
    = Ok ({| nodes := [ann_session; ann_account]; rels := []; next_id := 3 |},
          Some {[ "properties" := VObj (node_props ann) ]})
  ∧ getUserByAccount standard_host
      {[ "provider" := VStr "github"; "providerAccountId" := VStr "42" ]}
      {| nodes := [ann_session; ann_account]; rels := []; next_id := 3 |}
    = None.
Proof. repeat split. Qed.

(** * Further properties of the adapter *)

(** *** The pattern is a search *)

Lemma many_append cs s rest post :
  In rest (many cs s) → In (rest ++ post) (many cs (s ++ post)).
Proof.
  revert rest. induction s as [|a s IH]; intros rest.
  - intros [<-|[]]. apply many_here.
  - simpl. intros [<-|Hin]; [left; reflexivity|].
    destruct (in_charset cs a); [|destruct Hin]. right. apply IH, Hin.
Qed.

Lemma matches_append r s rest post :
  In rest (matches r s) → In (rest ++ post) (matches r (s ++ post)).
Proof.
  revert s rest. induction r as [|a|cs|cs|r1 IH1 r2 IH2|r1 IH1 r2 IH2];
    simpl; intros s rest Hin.
  - destruct Hin as [<-|[]]. left. reflexivity.
  - destruct s as [|b s]; [destruct Hin|]. simpl.
    destruct (Ascii.eqb a b); [|destruct Hin].
    destruct Hin as [<-|[]]. left. reflexivity.
  - destruct s as [|b s]; [destruct Hin|]. simpl.
    destruct (in_charset cs b); [|destruct Hin].
    destruct Hin as [<-|[]]. left. reflexivity.
  - destruct s as [|b s]; [destruct Hin|]. simpl.
    destruct (in_charset cs b); [|destruct Hin]. apply many_append, Hin.
  - apply in_flat_map in Hin as (mid & H1 & H2).
    apply in_flat_map. exists (mid ++ post). split; auto.
  - apply in_or_app. apply in_app_or in Hin as [H|H]; auto.
Qed.

Lemma matches_here_append r s post :
  matches_here r s = true → matches_here r (s ++ post) = true.
Proof.
  unfold matches_here. destruct (matches r s) as [|rest l] eqn:E; [discriminate|].
  intros _. assert (In (rest ++ post) (matches r (s ++ post))) as H
    by (apply matches_append; rewrite E; left; reflexivity).
  destruct (matches r (s ++ post)); [destruct H|reflexivity].
Qed.

Lemma test_append r s post : test r s = true → test r (s ++ post) = true.
Proof.
  induction s as [|a s IH]; simpl.
  - rewrite orb_false_r. intros H. apply test_here, (matches_here_append r "" post H).
  - intros H. apply orb_true_iff in H as [H|H].
    + pose proof (matches_here_append r (String a s) post H) as H'.
      change (String a s +:+ post) with (String a (s +:+ post)) in H'.
      rewrite H'. reflexivity.
    + rewrite (IH H). apply orb_true_r.
Qed.

Lemma test_prepend r pre s : test r s = true → test r (pre ++ s) = true.
Proof. intros H. induction pre as [|a pre IH]; [exact H|]. simpl. rewrite IH. apply orb_true_r. Qed.

(** X1.  [isoDateRE] has no anchors: text before and after a match does
    not stop [test]; what is then converted is decided by [Date.parse]. *)
Theorem isoDateRE_unanchored (pre s post : string) :
  test isoDateRE s = true → test isoDateRE (pre ++ s ++ post) = true.
Proof. intros H. apply test_prepend, test_append, H. Qed.

Lemma isoDateRE_unanchored_witness :
  test isoDateRE ("due " ++ "2024-02-29T23:59:59Z" ++ " at the latest") = true.
Proof. apply isoDateRE_unanchored. reflexivity. Defined.

(** X2.  A string without the letter [T] is never converted. *)
Theorem from_field_without_T (host : string → option Z) (s : string) :
  occurs "T" s = false → from_field host (VStr s) = VStr s.
Proof.
  intros H. rewrite from_field_VStr.
  rewrite (requires_test "T" isoDateRE s isoDateRE_requires_T H). reflexivity.
Qed.

Lemma from_field_without_T_witness :
  from_field standard_host (VStr "2024-02-29") = VStr "2024-02-29".
Proof. apply from_field_without_T. reflexivity. Defined.

(** *** What the two transforms return *)

Lemma format_to_invalid (object : obj) k :
  object !! k = Some (VDate None) → format_to object = Throw RangeError.
Proof.
  intros Hk. unfold format_to. rewrite bool_decide_eq_false_2; [reflexivity|].
  intros H. specialize (H k _ Hk). discriminate H.
Qed.

(** X3.  [format.to] throws, a RangeError, exactly when a field is an
    invalid Date; otherwise it returns an object with the same keys in
    which no field is a Date. *)
Theorem format_to_result (object : obj) :
  ((∃ k, object !! k = Some (VDate None)) → format_to object = Throw RangeError)
  ∧ ((∀ k, object !! k ≠ Some (VDate None)) →
     ∃ o, format_to object = Ok o ∧ dom o = dom object
          ∧ ∀ k t, o !! k ≠ Some (VDate t)).
Proof.
  split.
  - intros (k & Hk). exact (format_to_invalid object k Hk).
  - intros Hvalid. exists (to_field <$> object). split; [|split].
    + unfold format_to. rewrite bool_decide_eq_true_2; [reflexivity|].
      intros k v Hk. destruct v as [| | | | |[t|]| | |]; try reflexivity.
      destruct (Hvalid k Hk).
    + apply dom_fmap_L.
    + intros k t. rewrite lookup_fmap. destruct (object !! k) as [v|] eqn:Hk; [|discriminate].
      simpl. destruct v as [| | | | |[i|]| | |]; try discriminate.
      destruct (Hvalid k Hk).
Qed.

Lemma format_to_result_witness :
  format_to {[ "expires" := VDate None ]} = Throw RangeError
  ∧ ∃ o, format_to sample_user = Ok o ∧ dom o = dom sample_user.
Proof.
  destruct (format_to_result {[ "expires" := VDate None ]}) as [H1 _].
  destruct (format_to_result sample_user) as [_ H2]. split.
  - apply H1. exists "expires". reflexivity.
  - destruct H2 as (o & Ho & Hd & _).
    + intros k Hk. unfold sample_user in Hk.
      apply lookup_insert_Some in Hk as [[_ [=]]|[_ Hk]].
      apply lookup_insert_Some in Hk as [[_ [=]]|[_ Hk]].
      apply lookup_singleton_Some in Hk as [_ [=]].
    + exists o. auto.
Defined.

Lemma from_field_not_Integer host v i : from_field host v ≠ VInt i.
Proof.
  unfold from_field. destruct (isDate host v) eqn:Ed; [discriminate|].
  destruct v; simpl; try discriminate.
  destruct (Integer.inSafeRange _); discriminate.
Qed.

(** X4.  [format.from] gives null for null and otherwise an object with
    the same keys in which no field is a driver Integer. *)
Theorem format_from_result (host : string → option Z) :
  format_from host None = None
  ∧ ∀ o, ∃ o', format_from host (Some o) = Some o' ∧ dom o' = dom o
               ∧ ∀ k i, o' !! k ≠ Some (VInt i).
Proof.
  split; [reflexivity|]. intros o. exists (from_field host <$> o).
  split; [reflexivity|]. split.
  - apply dom_fmap_L.
  - intros k i. rewrite lookup_fmap. destruct (o !! k) as [v|]; [|discriminate].
    simpl. intros [= H]. exact (from_field_not_Integer host v i H).
Qed.

(** *** An invalid Date in the input *)

Lemma write_invalid host stmt (values : obj) g k :
  values !! k = Some (VDate None) → write host stmt values g = Throw RangeError.
Proof. intros H. unfold write. rewrite (format_to_invalid values k H). reflexivity. Qed.

(** X5.  An invalid Date among the fields handed to [createUser],
    [updateUser], [createSession], [updateSession] or
    [createVerificationToken] makes the call throw a RangeError, whatever
    the store holds. *)
Theorem invalid_Date_throws (host : string → option Z) (data : obj) (k : string)
    (g : graph) :
  data !! k = Some (VDate None) →
  (∀ uuid, createUser host uuid data g = Throw RangeError)
  ∧ updateUser host data g = Throw RangeError
  ∧ createSession host data g = Throw RangeError
  ∧ updateSession host data g = Throw RangeError
  ∧ createVerificationToken host data g = Throw RangeError.
Proof.
  intros Hk. split; [|split; [|split; [|split]]].
  - intros uuid. unfold createUser. cbv zeta.
    rewrite (write_invalid host _ _ g k); [reflexivity|].
    apply lookup_union_Some_l, Hk.
  - unfold updateUser. rewrite (write_invalid host _ _ g k Hk). reflexivity.
  - unfold createSession. rewrite (format_to_invalid data k Hk). reflexivity.
  - unfold updateSession. apply (write_invalid host _ _ g k Hk).
  - unfold createVerificationToken. rewrite (write_invalid host _ _ g k Hk). reflexivity.
Qed.

Lemma invalid_Date_throws_witness :
  createUser standard_host "u2" {[ "name" := VStr "Bo"; "emailVerified" := VDate None ]}
    empty_graph = Throw RangeError
  ∧ createSession standard_host
      {[ "sessionToken" := VStr "tok"; "userId" := VStr "u1"; "expires" := VDate None ]}
      ann_alone = Throw RangeError.
Proof.
  split.
  - apply (invalid_Date_throws standard_host _ "emailVerified" empty_graph). reflexivity.
  - apply (invalid_Date_throws standard_host _ "expires" ann_alone). reflexivity.
Defined.

(** *** A user that is not there *)

Lemma no_invalid_Date_serialisable (data : obj) :
  (∀ k, data !! k ≠ Some (VDate None)) →
  format_to data = Ok (to_field <$> data).
Proof.
  intros H. unfold format_to. rewrite bool_decide_eq_true_2; [reflexivity|].
  intros k v Hk. destruct v as [| | | | |[t|]| | |]; try reflexivity. destruct (H k Hk).
Qed.

Lemma match_null_nothing l k g : match_nodes l [(k, VNull)] g = [].
Proof.
  unfold match_nodes. apply filter_none. intros n _. apply andb_false_iff. right.
  unfold has_props. simpl. destruct (node_props n !! k) as [[]|]; reflexivity.
Qed.

(** X6.  [updateUser] throws a TypeError when the input has no [id], and
    when no User has the input's [id]: [write] gives null and the code
    reads [.u] of it. *)
Theorem updateUser_missing (host : string → option Z) (data : obj) (g : graph) :
  (∀ k, data !! k ≠ Some (VDate None)) →
  data !! "id" = None
  ∨ (∃ id, data !! "id" = Some (VStr id) ∧ match_nodes User [("id", VStr id)] g = []) →
  updateUser host data g = Throw TypeError.
Proof.
  intros Hvalid Hid. unfold updateUser.
  erewrite write_Ok; [|apply no_invalid_Date_serialisable, Hvalid|].
  2:{ unfold updateUser_stmt.
      assert (match_nodes User [("id", param (to_field <$> data) "id")] g = []) as ->;
        [|reflexivity].
      destruct Hid as [Hid|(id & Hid & Hnone)].
      - unfold param. rewrite lookup_fmap, Hid. apply match_null_nothing.
      - rewrite (param_to_field_id data "id" id Hid). exact Hnone. }
  reflexivity.
Qed.

Lemma updateUser_missing_witness :
  updateUser standard_host {[ "id" := VStr "nobody"; "name" := VStr "X" ]} ann_alone
  = Throw TypeError
  ∧ updateUser standard_host {[ "name" := VStr "X" ]} ann_alone = Throw TypeError.
Proof.
  split.
  - apply updateUser_missing.
    + intros k Hk. apply lookup_insert_Some in Hk as [[_ [=]]|[_ Hk]].
      apply lookup_singleton_Some in Hk as [_ [=]].
    + right. exists "nobody". split; reflexivity.
  - apply updateUser_missing.
    + intros k Hk. apply lookup_singleton_Some in Hk as [_ [=]].
    + left. reflexivity.
Defined.


Lemma update_props_nil f g : update_props [] f g = g.
Proof.
  destruct g as [ns rs nx]. unfold update_props. simpl. f_equal.
  rewrite <- (map_id ns) at 2. apply map_ext. reflexivity.
Qed.

Lemma link_values_fixed uid (a : obj) :
  format_to (link_values uid a) = Ok (link_values uid a).
Proof.
  apply format_to_fixed.
  - apply map_Forall_insert_2; [reflexivity|]. apply map_Forall_singleton. reflexivity.
  - intros k v Hk. unfold link_values in Hk.
    apply lookup_insert_Some in Hk as [[_ <-]|[_ Hk]]; [reflexivity|].
    apply lookup_singleton_Some in Hk as [_ <-]. reflexivity.
Qed.

(** X7.  [createSession] and [linkAccount] for a user id that no User has
    store nothing and still return their input. *)
Theorem without_user_nothing_stored (host : string → option Z) (data : obj)
    (uid : string) (g : graph) :
  data !! "userId" = Some (VStr uid) →
  match_nodes User [("id", VStr uid)] g = [] →
  linkAccount host data g = Ok (g, data)
  ∧ ((∀ k, data !! k ≠ Some (VDate None)) → createSession host data g = Ok (g, data)).
Proof.
  intros Huid Hnone. split.
  - unfold linkAccount. rewrite Huid. simpl default.
    change ({[ "userId" := VStr uid; "a" := VObj (delete "userId" data) ]} : obj)
      with (link_values uid (delete "userId" data)).
    erewrite write_Ok; [|apply link_values_fixed|].
    2:{ unfold linkAccount_stmt.
        change (param (link_values uid _) "userId") with (VStr uid).
        rewrite Hnone. simpl. rewrite update_props_nil. reflexivity. }
    reflexivity.
  - intros Hvalid. unfold createSession.
    rewrite (no_invalid_Date_serialisable data Hvalid). simpl.
    rewrite lookup_fmap, Huid. simpl default.
    change ({[ "userId" := VStr uid; "s" := VObj (delete "userId" (to_field <$> data)) ]} : obj)
      with (<["userId" := VStr uid]> ({[ "s" := VObj (delete "userId" (to_field <$> data)) ]} : obj)).
    erewrite write_Ok.
    2:{ apply format_to_fixed.
        - apply map_Forall_insert_2; [reflexivity|]. apply map_Forall_singleton. reflexivity.
        - intros k v Hk.
          apply lookup_insert_Some in Hk as [[_ <-]|[_ Hk]]; [reflexivity|].
          apply lookup_singleton_Some in Hk as [_ <-]. reflexivity. }
    2:{ unfold createSession_stmt.
        change (param _ "userId") with (VStr uid).
        rewrite Hnone. reflexivity. }
    reflexivity.
Qed.

Lemma without_user_nothing_stored_witness :
  linkAccount standard_host
    {[ "userId" := VStr "nobody"; "provider" := VStr "github";
       "providerAccountId" := VStr "42" ]} ann_alone
  = Ok (ann_alone, {[ "userId" := VStr "nobody"; "provider" := VStr "github";
                      "providerAccountId" := VStr "42" ]}).
Proof.
  apply (without_user_nothing_stored standard_host _ "nobody" ann_alone); reflexivity.
Defined.

(** *** Deleting, then looking up *)

Lemma match_owned_deleted t l pat g :
  match_owned t l pat
    (detach_delete (map (λ us : node * node, node_id us.2) (match_owned t l pat g)) g) = [].
Proof.
  destruct (match_owned t l pat (detach_delete _ g)) as [|[u x] rest] eqn:E; [reflexivity|].
  assert (In (u, x) (match_owned t l pat
            (detach_delete (map (λ us : node * node, node_id us.2) (match_owned t l pat g)) g)))
    as Hin by (rewrite E; left; reflexivity).
  apply match_owned_detach_delete in Hin as (Hin & _ & Hx).
  destruct Hx. apply in_map_iff. exists (u, x). auto.
Qed.


(** X8.  [deleteSession] removes every Session with the token that a User
    owns and returns the properties of the first with the owner's id as
    [userId], or null when there is none.  Afterwards
    [getSessionAndUser] and a second [deleteSession] find nothing. *)
Theorem deleteSession_then_lookup (host : string → option Z) (token : string)
    (g : graph) (now : Z) :
  valid_time now →
  let rows := match_owned HAS_SESSION Session [("sessionToken", VStr token)] g in
  let g' := detach_delete (map (λ us, node_id us.2) rows) g in
  deleteSession host token g
  = Ok (g', (λ us, {[ "properties" := project us.2 "userId" (node_props us.1 !! "id") ]})
            <$> head rows)
  ∧ (rows = [] → g' = g)
  ∧ getSessionAndUser host now token g' = Ok (g', None)
  ∧ deleteSession host token g' = Ok (g', None).
Proof.
  intros Hnow rows g'.
  assert (match_owned HAS_SESSION Session [("sessionToken", VStr token)] g' = []) as Hgone
    by apply match_owned_deleted.
  split; [|split; [|split]].
  - unfold deleteSession. erewrite write_Ok.
    2:{ apply format_to_fixed.
        - apply map_Forall_singleton. reflexivity.
        - intros k v Hk. apply lookup_singleton_Some in Hk as [_ <-]. reflexivity. }
    2:{ unfold deleteSession_stmt.
        change (session_pattern _) with [("sessionToken", VStr token)]. reflexivity. }
    fold rows g'. destruct rows as [|us rest]; [reflexivity|].
    simpl head. simpl fmap. unfold project at 1.
    rewrite insert_empty, format_from_column. reflexivity.
  - intros E. unfold g'. rewrite E. apply detach_delete_nil.
  - apply getSessionAndUser_unowned; assumption.
  - apply deleteSession_unowned; assumption.
Qed.

Lemma deleteSession_then_lookup_witness :
  ∃ g', deleteSession standard_host "tok" linked_graph
        = Ok (g', Some {[ "properties" :=
                   VObj {[ "sessionToken" := VStr "tok";
                           "expires" := VStr "2030-01-01T00:00:00.000Z";
                           "userId" := VStr "u1" ]} ]})
        ∧ nodes g' = [ann; ann_account]
        ∧ getSessionAndUser standard_host 0 "tok" g' = Ok (g', None).
Proof.
  destruct (deleteSession_then_lookup standard_host "tok" linked_graph 0)
    as (H1 & _ & H3 & _).
  - unfold valid_time, max_time. lia.
  - eexists. split; [rewrite H1; reflexivity|]. split; [reflexivity|exact H3].
Defined.



(** *** What the lookups return *)

Lemma read_head host (q : obj → graph → list record) values g (f : node → obj) (ns : list node) :
  q values g = map (λ n, [("u", VObj (f n))]) ns →
  read host q values g = (λ n, from_field host <$> f n) <$> head ns.
Proof. unfold read. intros ->. destruct ns; reflexivity. Qed.

Lemma getUser_head host id g :
  getUser host id g
  = (λ u, from_field host <$> node_props u) <$> head (match_nodes User [("id", VStr id)] g).
Proof. unfold getUser. apply read_head. reflexivity. Qed.

Lemma getUserByEmail_head host email g :
  getUserByEmail host email g
  = (λ u, from_field host <$> node_props u)
      <$> head (match_nodes User [("email", VStr email)] g).
Proof. unfold getUserByEmail. apply read_head. reflexivity. Qed.

Lemma getUserByAccount_head host pp g :
  getUserByAccount host pp g
  = (λ ua : node * node, from_field host <$> node_props ua.1)
      <$> head (match_owned HAS_ACCOUNT Account (account_key pp) g).
Proof.
  unfold getUserByAccount, read, getUserByAccount_query.
  destruct (match_owned _ _ _ g); reflexivity.
Qed.

Lemma account_pair_fields provider pid :
  let pp : obj := {[ "provider" := VStr provider; "providerAccountId" := VStr pid ]} in
  format_to pp = Ok pp
  ∧ account_key pp = [("providerAccountId", VStr pid); ("provider", VStr provider)].
Proof.
  intros pp. split; [|reflexivity]. apply format_to_fixed.
  - apply map_Forall_insert_2; [reflexivity|]. apply map_Forall_singleton. reflexivity.
  - intros k v Hk. apply lookup_insert_Some in Hk as [[_ <-]|[_ Hk]]; [reflexivity|].
    apply lookup_singleton_Some in Hk as [_ <-]. reflexivity.
Qed.

(** X9.  [unlinkAccount] removes every Account with the key that a User
    owns and returns the properties of the first with the owner's id as
    [userId], or null when there is none.  Afterwards
    [getUserByAccount] finds nothing for the key; the User nodes stay. *)
Theorem unlinkAccount_then_lookup (host : string → option Z) (provider pid : string)
    (g : graph) :
  let pp : obj := {[ "provider" := VStr provider; "providerAccountId" := VStr pid ]} in
  let rows := match_owned HAS_ACCOUNT Account
                [("providerAccountId", VStr pid); ("provider", VStr provider)] g in
  let g' := detach_delete (map (λ ua, node_id ua.2) rows) g in
  unlinkAccount host pp g
  = Ok (g', (λ ua, {[ "properties" := project ua.2 "userId" (node_props ua.1 !! "id") ]})
            <$> head rows)
  ∧ (rows = [] → g' = g)
  ∧ getUserByAccount host pp g' = None
  ∧ (unique_ids g → ∀ n, In n (nodes g) → node_label n = User → In n (nodes g')).
Proof.
  intros pp rows g'. destruct (account_pair_fields provider pid) as [Hto Hkey].
  fold pp in Hto, Hkey.
  split; [|split; [|split]].
  - unfold unlinkAccount. erewrite write_Ok; [|exact Hto|].
    2:{ unfold unlinkAccount_stmt. rewrite Hkey. reflexivity. }
    fold rows g'. destruct rows as [|ua rest]; [reflexivity|].
    simpl head. simpl fmap. unfold project at 1.
    rewrite insert_empty, format_from_column. reflexivity.
  - intros E. unfold g'. rewrite E. apply detach_delete_nil.
  - rewrite getUserByAccount_head, Hkey. unfold g', rows.
    rewrite match_owned_deleted. reflexivity.
  - intros Hids n Hn Hl. simpl. apply filter_In. split; [exact Hn|].
    apply negb_true_iff.
    destruct (mem (node_id n) (map (λ ua : node * node, node_id ua.2) rows)) eqn:E;
      [|reflexivity].
    apply mem_In, in_map_iff in E as ([u x] & Eid & Hux). simpl in Eid.
    apply match_owned_In in Hux as (r & _ & _ & _ & Hx & _ & Hlx & _).
    apply node_at_Some in Hx as [Hx _].
    rewrite (NoDup_map_inj node_id (nodes g) x n Hids Hx Hn Eid) in Hlx. congruence.
Qed.

Lemma unlinkAccount_then_lookup_witness :
  ∃ g', unlinkAccount standard_host
          {[ "provider" := VStr "github"; "providerAccountId" := VStr "42" ]} linked_graph
        = Ok (g', Some {[ "properties" :=
                   VObj {[ "provider" := VStr "github"; "providerAccountId" := VStr "42";
                           "userId" := VStr "u1" ]} ]})
        ∧ nodes g' = [ann; ann_session]
        ∧ getUserByAccount standard_host
            {[ "provider" := VStr "github"; "providerAccountId" := VStr "42" ]} g' = None.
Proof.
  destruct (unlinkAccount_then_lookup standard_host "github" "42" linked_graph)
    as (H1 & _ & H3 & _).
  eexists. split; [rewrite H1; reflexivity|]. split; [reflexivity|exact H3].
Defined.

Lemma deleteUser_result host id g :
  let users := match_nodes User [("id", VStr id)] g in
  deleteUser host id g
  = Ok (detach_delete (map node_id users) g,
        (λ u, {[ "properties" := VObj (node_props u) ]}) <$> head users).
Proof.
  intros users. unfold deleteUser. erewrite write_Ok.
  2:{ apply format_to_fixed.
      - apply map_Forall_singleton. reflexivity.
      - intros k v Hk. apply lookup_singleton_Some in Hk as [_ <-]. reflexivity. }
  2:{ unfold deleteUser_stmt. change (param _ "id") with (VStr id). reflexivity. }
  fold users. destruct users as [|u rest]; [reflexivity|].
  simpl head. simpl fmap. rewrite insert_empty, format_from_column. reflexivity.
Qed.

(** X10.  After [deleteUser], [getUser] finds nothing under the id; and
    [deleteUser] returns null exactly when [getUser] found nothing before. *)
Theorem deleteUser_then_getUser (host : string → option Z) (id : string) (g : graph) :
  ∃ g' r, deleteUser host id g = Ok (g', r)
          ∧ getUser host id g' = None
          ∧ (r = None ↔ getUser host id g = None).
Proof.
  eexists _, _. split; [apply deleteUser_result|]. split.
  - rewrite getUser_head, match_nodes_detach_delete. reflexivity.
  - rewrite getUser_head. destruct (match_nodes User _ g); simpl; split; congruence.
Qed.

Lemma deleteUser_then_getUser_witness :
  ∃ g', deleteUser standard_host "u1" linked_graph
        = Ok (g', Some {[ "properties" := VObj (node_props ann) ]})
        ∧ getUser standard_host "u1" g' = None.
Proof.
  destruct (deleteUser_then_getUser standard_host "u1" linked_graph)
    as (g' & r & H1 & H2 & _).
  assert (deleteUser standard_host "u1" linked_graph
          = Ok ({| nodes := [ann_session; ann_account]; rels := []; next_id := 3 |},
                Some {[ "properties" := VObj (node_props ann) ]})) as E by reflexivity.
  rewrite H1 in E. injection E as -> ->.
  eexists. split; [exact H1|exact H2].
Defined.


(** X11.  Not found is null: for an id, an e-mail, an account key, a token
    pair or a session token that matches nothing, the lookups return
    null, and [deleteUser], [useVerificationToken] and [updateSession]
    return null and leave the store as it is. *)
Theorem not_found_is_null (host : string → option Z) (g : graph) :
  (∀ id, match_nodes User [("id", VStr id)] g = [] →
         getUser host id g = None ∧ deleteUser host id g = Ok (g, None))
  ∧ (∀ email, match_nodes User [("email", VStr email)] g = [] →
              getUserByEmail host email g = None)
  ∧ (∀ pp, match_owned HAS_ACCOUNT Account (account_key pp) g = [] →
           getUserByAccount host pp g = None)
  ∧ (∀ identifier token,
       match_nodes VerificationToken
         [("identifier", VStr identifier); ("token", VStr token)] g = [] →
       useVerificationToken host
         {[ "identifier" := VStr identifier; "token" := VStr token ]} g = Ok (g, None))
  ∧ (∀ data token,
       data !! "sessionToken" = Some (VStr token) →
       (∀ k, data !! k ≠ Some (VDate None)) →
       match_owned HAS_SESSION Session [("sessionToken", VStr token)] g = [] →
       updateSession host data g = Ok (g, None)).
Proof.
  split; [|split; [|split; [|split]]].
  - intros id H. split.
    + rewrite getUser_head, H. reflexivity.
    + rewrite deleteUser_result, H. simpl. rewrite detach_delete_nil. reflexivity.
  - intros email H. rewrite getUserByEmail_head, H. reflexivity.
  - intros pp H. rewrite getUserByAccount_head, H. reflexivity.
  - intros identifier token H. unfold useVerificationToken.
    destruct (token_data_fields identifier token) as [Hto Hkey].
    erewrite write_Ok; [|exact Hto|unfold useVerificationToken_stmt; rewrite Hkey, H; reflexivity].
    simpl. rewrite detach_delete_nil. reflexivity.
  - intros data token Htok Hvalid H. unfold updateSession.
    erewrite write_Ok; [|apply no_invalid_Date_serialisable, Hvalid|].
    2:{ unfold updateSession_stmt.
        assert (session_pattern (to_field <$> data) = [("sessionToken", VStr token)]) as ->.
        { unfold session_pattern, param. rewrite lookup_fmap, Htok. reflexivity. }
        rewrite H. simpl. rewrite update_props_nil. reflexivity. }
    reflexivity.
Qed.

Lemma not_found_is_null_witness :
  getUser standard_host "nobody" ann_alone = None
  ∧ deleteUser standard_host "nobody" ann_alone = Ok (ann_alone, None)
  ∧ useVerificationToken standard_host
      {[ "identifier" := VStr "ann@example.com"; "token" := VStr "wrong" ]} token_graph
    = Ok (token_graph, None).
Proof.
  destruct (not_found_is_null standard_host ann_alone) as (H1 & _).
  destruct (not_found_is_null standard_host token_graph) as (_ & _ & _ & H4 & _).
  destruct (H1 "nobody" eq_refl) as [Ha Hb].
  split; [exact Ha|split; [exact Hb|]]. apply H4. reflexivity.
Defined.

Lemma persists_plain host (o : obj) :
  map_Forall (λ _ v, persists host v) o → map_Forall (λ _ v, plain v = true) o.
Proof. intros H k v Hk. apply (H k v Hk). Qed.

Lemma to_field_null v : is_null (to_field v) = is_null v.
Proof. destruct v as [| | | | |[t|]| | |]; reflexivity. Qed.

(** What comes back of a record that was stored: its fields, the null
    ones left out. *)
Lemma decode_stored host (o : obj) :
  map_Forall (λ _ v, persists host v) o →
  from_field host <$> non_null (to_field <$> o) = non_null o.
Proof.
  intros H. apply map_eq. intros k.
  rewrite lookup_fmap, !non_null_lookup, lookup_fmap.
  destruct (o !! k) as [v|] eqn:E; [|reflexivity].
  destruct (H k v E) as (_ & Hr). simpl. rewrite to_field_null.
  destruct (is_null v); [reflexivity|]. simpl.
  f_equal. apply from_to_field, Hr.
Qed.

Lemma non_null_all (o : obj) :
  map_Forall (λ _ v, is_null v = false) o → non_null o = o.
Proof.
  intros H. apply map_eq. intros k. rewrite non_null_lookup.
  destruct (o !! k) as [v|] eqn:E; [|reflexivity]. simpl. rewrite (H k v E). reflexivity.
Qed.

Lemma persists_without_T host s : occurs "T" s = false → persists host (VStr s).
Proof.
  intros H. split; [reflexivity|]. split; [|reflexivity].
  unfold isDate. simpl.
  rewrite (requires_test "T" isoDateRE s isoDateRE_requires_T H).
  apply andb_false_r.
Qed.

Lemma has_props_one k s (n : node) :
  has_props [(k, VStr s)] n = true ↔ node_props n !! k = Some (VStr s).
Proof.
  unfold has_props. simpl. rewrite andb_true_r.
  destruct (node_props n !! k) as [v|]; [|split; discriminate].
  destruct v; simpl; try (split; discriminate).
  split.
  - intros E. apply String.eqb_eq in E. congruence.
  - intros [= ->]. apply String.eqb_refl.
Qed.

Lemma created_node_found l k s props g :
  props !! k = Some (VStr s) →
  match_nodes l [(k, VStr s)] g = [] →
  match_nodes l [(k, VStr s)] (create_node l props g).1
  = [{| node_id := next_id g; node_label := l; node_props := props |}].
Proof.
  intros Hk Hnone. rewrite match_nodes_create, Hnone. simpl.
  rewrite bool_decide_eq_true_2 by reflexivity.
  unfold has_props. simpl. rewrite Hk. simpl. rewrite String.eqb_refl. reflexivity.
Qed.

Lemma createUser_Ok host uuid (data : obj) g :
  map_Forall (λ _ v, plain v = true) data →
  let user : obj := data ∪ {[ "id" := VStr uuid ]} in
  createUser host uuid data g
  = Ok ((create_node User (non_null (to_field <$> user)) g).1, user).
Proof.
  intros Hdata user.
  assert (map_Forall (λ _ v, plain v = true) user) as Huser.
  { intros k v Hk. apply lookup_union_Some_raw in Hk as [Hk|[_ Hk]].
    - exact (Hdata k v Hk).
    - apply lookup_singleton_Some in Hk as [_ <-]. reflexivity. }
  unfold createUser. cbv zeta. fold user.
  rewrite (write_Ok host createUser_stmt user (to_field <$> user) g
             (create_node User (non_null (to_field <$> user)) g).1 []).
  - reflexivity.
  - apply format_to_plain, Huser.
  - unfold createUser_stmt. rewrite check_storable_plain by exact Huser. reflexivity.
Qed.

Lemma stored_string host (o : obj) k s :
  map_Forall (λ _ v, persists host v) o → o !! k = Some (VStr s) →
  non_null (to_field <$> o) !! k = Some (VStr s).
Proof. intros _ Hk. rewrite non_null_lookup, lookup_fmap, Hk. reflexivity. Qed.

(** X12.  A user that [createUser] stored is what [getUser] returns for its
    id, and what [getUserByEmail] returns for its e-mail address, when no
    user had that id (that address) before and every field is one that
    [format.from] gives back: the user comes back without its null
    fields, which are not stored, and otherwise field for field. *)
Theorem createUser_then_lookup (host : string → option Z) (uuid : string) (data : obj)
    (g : graph) :
  map_Forall (λ _ v, persists host v) data →
  occurs "T" uuid = false →
  let user : obj := data ∪ {[ "id" := VStr uuid ]} in
  ∃ g', createUser host uuid data g = Ok (g', user)
        ∧ (∀ id, user !! "id" = Some (VStr id) →
                 match_nodes User [("id", VStr id)] g = [] →
                 getUser host id g' = Some (non_null user))
        ∧ (∀ email, user !! "email" = Some (VStr email) →
                    match_nodes User [("email", VStr email)] g = [] →
                    getUserByEmail host email g' = Some (non_null user)).
Proof.
  intros Hdata Huuid user.
  assert (map_Forall (λ _ v, persists host v) user) as Huser.
  { intros k v Hk. apply lookup_union_Some_raw in Hk as [Hk|[_ Hk]].
    - exact (Hdata k v Hk).
    - apply lookup_singleton_Some in Hk as [_ <-]. apply persists_without_T, Huuid. }
  eexists. split; [apply createUser_Ok, (persists_plain host), Hdata|]. fold user. split.
  - intros id Hid Hnone. rewrite getUser_head, created_node_found.
    + simpl. rewrite (decode_stored host user Huser). reflexivity.
    + apply (stored_string host), Hid. exact Huser.
    + exact Hnone.
  - intros email He Hnone. rewrite getUserByEmail_head, created_node_found.
    + simpl. rewrite (decode_stored host user Huser). reflexivity.
    + apply (stored_string host), He. exact Huser.
    + exact Hnone.
Qed.

Lemma createUser_then_lookup_witness :
  ∃ g', createUser standard_host "0b9f6c1e" sample_user empty_graph
        = Ok (g', sample_user ∪ {[ "id" := VStr "0b9f6c1e" ]})
        ∧ getUser standard_host "0b9f6c1e" g'
          = Some (non_null (sample_user ∪ {[ "id" := VStr "0b9f6c1e" ]})).
Proof.
  destruct (createUser_then_lookup standard_host "0b9f6c1e" sample_user empty_graph)
    as (g' & H1 & H2 & _).
  - unfold sample_user.
    do 2 (apply map_Forall_insert_2; [split; [reflexivity|split; reflexivity]|]).
    apply map_Forall_singleton. split; [reflexivity|].
    exists 1600000000000%Z. split; [reflexivity|]. unfold valid_time, max_time. lia.
  - reflexivity.
  - exists g'. split; [exact H1|]. apply H2; reflexivity.
Defined.

(** *** updateUser *)

Lemma updateUser_Ok host (data : obj) g id u rest :
  data !! "id" = Some (VStr id) →
  map_Forall (λ _ v, plain v = true) data →
  match_nodes User [("id", VStr id)] g = u :: rest →
  updateUser host data g
  = Ok (update_props (map node_id (u :: rest))
          (λ props, set_merge props (to_field <$> data)) g,
        VObj (set_merge (node_props u) (to_field <$> data))).
Proof.
  intros Hid Hplain Hu. unfold updateUser.
  erewrite write_Ok; [|apply format_to_plain, Hplain|].
  2:{ unfold updateUser_stmt. rewrite (param_to_field_id data "id" id Hid), Hu.
      rewrite check_storable_plain by exact Hplain. reflexivity. }
  simpl head. simpl fmap. rewrite insert_empty, format_from_column. simpl.
  rewrite lookup_singleton_eq. reflexivity.
Qed.

Lemma update_props_nodes ids f g :
  nodes (update_props ids f g)
  = map (λ n, if mem (node_id n) ids then with_props f n else n) (nodes g).
Proof. reflexivity. Qed.

(** Updating the nodes a pattern matched, in a way that keeps them
    matching, gives the same matches, updated. *)
Lemma match_nodes_updated l pat f g :
  unique_ids g →
  (∀ n, In n (match_nodes l pat g) → has_props pat (with_props f n) = true) →
  match_nodes l pat (update_props (map node_id (match_nodes l pat g)) f g)
  = map (with_props f) (match_nodes l pat g).
Proof.
  intros Hids Hkeep. unfold match_nodes at 1. rewrite update_props_nodes.
  set (ids := map node_id (match_nodes l pat g)).
  assert (∀ n, In n (nodes g) → mem (node_id n) ids = true → In n (match_nodes l pat g)) as Hm.
  { intros n Hn Hmem. apply mem_In, in_map_iff in Hmem as (m & E & Hmatched).
    assert (In m (nodes g)) as Hmn by (apply match_nodes_In in Hmatched; tauto).
    rewrite <- (NoDup_map_inj node_id (nodes g) m n Hids Hmn Hn E). exact Hmatched. }
  rewrite filter_map_commute.
  - fold (match_nodes l pat g). apply map_ext_in. intros n Hn.
    assert (mem (node_id n) ids = true) as ->; [|reflexivity].
    apply mem_In, in_map_iff. exists n. auto.
  - intros n Hn. destruct (mem (node_id n) ids) eqn:E; [|reflexivity].
    specialize (Hm n Hn E). rewrite (Hkeep n Hm).
    apply match_nodes_In in Hm as (_ & Hl & Hp). simpl. rewrite Hl, Hp. reflexivity.
Qed.

(** X13.  [updateUser] returns the stored properties as the store holds
    them, while [getUser] decodes them: what [getUser] then returns is
    [format.from] of what [updateUser] returned, and a Date passed in
    comes back from [updateUser] as its ISO string. *)
Theorem updateUser_then_getUser (host : string → option Z) (data : obj) (g : graph)
    (id : string) (u : node) (rest : list node) :
  data !! "id" = Some (VStr id) →
  map_Forall (λ _ v, plain v = true) data →
  unique_ids g →
  match_nodes User [("id", VStr id)] g = u :: rest →
  ∃ g' r, updateUser host data g = Ok (g', VObj r)
          ∧ getUser host id g' = format_from host (Some r)
          ∧ ∀ k t, data !! k = Some (VDate (Some t)) →
                   r !! k = Some (VStr (toISOString t)).
Proof.
  intros Hid Hplain Hids Hu. eexists _, _.
  split; [apply (updateUser_Ok host data g id u rest Hid Hplain Hu)|]. split.
  - rewrite getUser_head, <- Hu, match_nodes_updated, Hu; [reflexivity|exact Hids|].
    intros n _. apply has_props_one. simpl.
    rewrite set_merge_lookup, lookup_fmap, Hid. reflexivity.
  - intros k t Hk. rewrite set_merge_lookup, lookup_fmap, Hk. reflexivity.
Qed.

Lemma updateUser_then_getUser_witness :
  ∃ g' r,
    updateUser standard_host
      {[ "id" := VStr "u1"; "emailVerified" := VDate (Some 1600000000000%Z) ]}
      ann_with_email = Ok (g', VObj r)
    ∧ r !! "emailVerified" = Some (VStr "2020-09-13T12:26:40.000Z")
    ∧ (getUser standard_host "u1" g' ≫= λ o, o !! "emailVerified")
      = Some (VDate (Some 1600000000000%Z)).
Proof.
  destruct (updateUser_then_getUser standard_host
              {[ "id" := VStr "u1"; "emailVerified" := VDate (Some 1600000000000%Z) ]}
              ann_with_email "u1"
              {| node_id := 0; node_label := User;
                 node_props := {[ "id" := VStr "u1"; "name" := VStr "Ann";
                                  "email" := VStr "ann@example.com" ]} |} [])
    as (g' & r & H1 & H2 & H3).
  - reflexivity.
  - apply map_Forall_insert_2; [reflexivity|]. apply map_Forall_singleton. reflexivity.
  - repeat constructor. intros [].
  - reflexivity.
  - exists g', r. split; [exact H1|]. split.
    + apply (H3 "emailVerified" 1600000000000%Z). reflexivity.
    + rewrite H2. simpl. rewrite lookup_fmap.
      rewrite (H3 "emailVerified" 1600000000000%Z eq_refl). reflexivity.
Defined.

Lemma find_app_l {A} (p : A → bool) (l1 l2 : list A) a :
  List.find p l1 = Some a → List.find p (l1 ++ l2) = Some a.
Proof.
  induction l1 as [|b l1 IH]; simpl; [discriminate|].
  destruct (p b); [trivial|exact IH].
Qed.

Lemma find_app_r {A} (p : A → bool) (l1 l2 : list A) :
  List.find p l1 = None → List.find p (l1 ++ l2) = List.find p l2.
Proof.
  induction l1 as [|b l1 IH]; simpl; [reflexivity|].
  destruct (p b); [discriminate|exact IH].
Qed.

Lemma find_none_iff {A} (p : A → bool) (l : list A) :
  (∀ x, In x l → p x = false) → List.find p l = None.
Proof.
  induction l as [|b l IH]; simpl; intros H; [reflexivity|].
  rewrite (H b) by (left; reflexivity). apply IH. intros x Hx. apply H. right. exact Hx.
Qed.

Lemma node_at_In g n : unique_ids g → In n (nodes g) → node_at g (node_id n) = Some n.
Proof.
  intros Hids Hn. unfold node_at.
  destruct (List.find _ (nodes g)) as [m|] eqn:E.
  - apply find_some in E as [Hm E]. apply Nat.eqb_eq in E.
    f_equal. exact (NoDup_map_inj node_id (nodes g) m n Hids Hm Hn E).
  - apply (find_none _ _ E) in Hn. rewrite Nat.eqb_refl in Hn. discriminate.
Qed.

Lemma node_at_grown_old g u t x i :
  i ≠ node_id x → node_at (grown g u t x) i = node_at g i.
Proof.
  intros Hi. unfold node_at. simpl.
  destruct (List.find (λ n, Nat.eqb (node_id n) i) (nodes g)) as [m|] eqn:E.
  - apply find_app_l. exact E.
  - rewrite find_app_r by exact E. simpl.
    destruct (Nat.eqb_spec (node_id x) i); [congruence|reflexivity].
Qed.

Lemma node_at_grown_new g u t x :
  List.Forall (λ n, node_id n < node_id x) (nodes g) →
  node_at (grown g u t x) (node_id x) = Some x.
Proof.
  intros Hold. unfold node_at. simpl. rewrite find_app_r.
  - simpl. rewrite Nat.eqb_refl. reflexivity.
  - apply find_none_iff. intros n Hn. rewrite List.Forall_forall in Hold.
    specialize (Hold n Hn). apply Nat.eqb_neq. lia.
Qed.

Lemma omap_ext_in {A B} (f h : A → option B) (l : list A) :
  (∀ x, In x l → f x = h x) → omap f l = omap h l.
Proof.
  induction l as [|a l IH]; intros H; [reflexivity|].
  change (omap f (a :: l)) with (match f a with Some y => y :: omap f l | None => omap f l end).
  change (omap h (a :: l)) with (match h a with Some y => y :: omap h l | None => omap h l end).
  rewrite (H a) by (left; reflexivity).
  rewrite IH; [reflexivity|]. intros x Hx. apply H. right. exact Hx.
Qed.

(** The owned nodes of a store that grew by one node and the relationship
    to it: those there were, and the new one if it matches. *)
Lemma match_owned_grown t l pat g u t' x :
  well_formed g → In u (nodes g) → node_id x = next_id g →
  match_owned t l pat (grown g u t' x)
  = (match_owned t l pat g
     ++ (if bool_decide (t' = t) && bool_decide (node_label u = User)
            && bool_decide (node_label x = l) && has_props pat x
         then [(u, x)] else []))%list.
Proof.
  intros (Hids & Hnodes & Hrels) Hu Hx. unfold match_owned at 1.
  change (rels (grown g u t' x))
    with (rels g ++ [{| rel_src := node_id u; rel_type := t'; rel_dst := node_id x |}])%list.
  rewrite omap_app. f_equal.
  - apply omap_ext_in. intros r Hr. rewrite List.Forall_forall in Hrels.
    destruct (Hrels r Hr) as [Hs Hd].
    rewrite !node_at_grown_old by lia. reflexivity.
  - simpl. assert (node_at (grown g u t' x) (node_id u) = Some u) as ->.
    { rewrite node_at_grown_old.
      - apply node_at_In; assumption.
      - rewrite List.Forall_forall in Hnodes. specialize (Hnodes u Hu). lia. }
    rewrite node_at_grown_new by (rewrite Hx; exact Hnodes). simpl.
    destruct (bool_decide (t' = t)); [|reflexivity]. simpl.
    destruct (bool_decide (node_label u = User) && bool_decide (node_label x = l)
              && has_props pat x); reflexivity.
Qed.

Lemma matched_one l pat g u :
  match_nodes l pat g = [u] → In u (nodes g) ∧ node_label u = l ∧ has_props pat u = true.
Proof. intros H. apply match_nodes_In. rewrite H. left. reflexivity. Qed.

(** *** getSessionAndUser *)

Lemma session_values_fields token now :
  format_to {[ "sessionToken" := VStr token; "now" := VStr (toISOString now) ]}
  = Ok {[ "sessionToken" := VStr token; "now" := VStr (toISOString now) ]}.
Proof.
  apply format_to_fixed.
  - apply map_Forall_insert_2; [reflexivity|]. apply map_Forall_singleton. reflexivity.
  - intros k v Hk. apply lookup_insert_Some in Hk as [[_ <-]|[_ Hk]]; [reflexivity|].
    apply lookup_singleton_Some in Hk as [_ <-]. reflexivity.
Qed.

Lemma getSessionAndUser_result host now token g :
  valid_time now →
  let pat := [("sessionToken", VStr token)] in
  let expired := List.filter (λ us : node * node, le_datetime (node_props us.2 !! "expires") now)
                   (match_owned HAS_SESSION Session pat g) in
  let g' := detach_delete (map (λ us : node * node, node_id us.2) expired) g in
  getSessionAndUser host now token g
  = Ok (g', (λ us : node * node,
               (Some (from_field host <$>
                        <["userId" := default VNull (node_props us.1 !! "id")]>
                          (node_props us.2)),
                Some (from_field host <$> node_props us.1)))
            <$> head (match_owned HAS_SESSION Session pat g')).
Proof.
  intros Hnow pat expired g'. unfold getSessionAndUser.
  erewrite write_Ok; [|apply session_values_fields|].
  2:{ unfold getSessionAndUser_stmt.
      change (param _ "now") with (VStr (toISOString now)).
      rewrite (datetime_now now Hnow). simpl.
      change (session_pattern _) with pat. fold expired. fold g'. reflexivity. }
  destruct (match_owned HAS_SESSION Session pat g') as [|[u s] rest]; [reflexivity|].
  simpl head. simpl fmap. unfold session_row, project. simpl.
  rewrite !fmap_insert, fmap_empty, !from_field_VObj.
  rewrite lookup_insert_eq, lookup_insert_ne, lookup_insert_eq by discriminate.
  simpl. rewrite ?fmap_insert. reflexivity.
Qed.

Lemma from_field_VNull host : from_field host VNull = VNull.
Proof. reflexivity. Qed.

(** X14.  [getSessionAndUser] returns null exactly when no owned session
    with the token is left, and otherwise both halves; the [userId] of
    the session half is the [id] of the user half. *)
Theorem getSessionAndUser_pair (host : string → option Z) (now : Z) (token : string)
    (g : graph) :
  valid_time now →
  ∃ g' r, getSessionAndUser host now token g = Ok (g', r)
          ∧ (r = None ↔ match_owned HAS_SESSION Session [("sessionToken", VStr token)] g' = [])
          ∧ ∀ s u, r = Some (s, u) →
                   ∃ s' u', s = Some s' ∧ u = Some u'
                            ∧ s' !! "userId" = Some (default VNull (u' !! "id")).
Proof.
  intros Hnow. eexists _, _. split; [apply getSessionAndUser_result, Hnow|]. split.
  - destruct (match_owned _ _ _ _); simpl; split; congruence.
  - intros s u E. destruct (match_owned _ _ _ _) as [|[un sn] rest]; [discriminate|].
    simpl in E. injection E as <- <-. eexists _, _. split; [reflexivity|split; [reflexivity|]].
    rewrite lookup_fmap, lookup_insert_eq, lookup_fmap. simpl.
    destruct (node_props un !! "id"); reflexivity.
Qed.

Lemma getSessionAndUser_pair_witness :
  ∃ s u, getSessionAndUser standard_host 1700000000000 "tok" ann_logged_in
         = Ok (ann_logged_in, Some (Some s, Some u))
         ∧ s !! "userId" = Some (VStr "u1") ∧ u !! "id" = Some (VStr "u1").
Proof.
  destruct (getSessionAndUser_pair standard_host 1700000000000 "tok" ann_logged_in)
    as (g' & r & H1 & _ & H3).
  - unfold valid_time, max_time. lia.
  - assert (getSessionAndUser standard_host 1700000000000 "tok" ann_logged_in
            = Ok (ann_logged_in,
                  Some (Some expired_session, Some (node_props ann)))) as E by reflexivity.
    rewrite H1 in E. injection E as -> ->.
    destruct (H3 _ _ eq_refl) as (s & u & [= <-] & [= <-] & Hs).
    eexists _, _. split; [exact H1|]. split; [exact Hs|reflexivity].
Defined.

Lemma plain_storable v : plain v = true → storable (to_field v) = true.
Proof. destruct v as [| | | | |[t|]| | |]; simpl; congruence. Qed.

Lemma createSession_Ok host (data : obj) uid g u :
  data !! "userId" = Some (VStr uid) →
  map_Forall (λ _ v, plain v = true) data →
  match_nodes User [("id", VStr uid)] g = [u] →
  createSession host data g
  = Ok (grown g u HAS_SESSION
          {| node_id := next_id g; node_label := Session;
             node_props := non_null (delete "userId" (to_field <$> data)) |}, data).
Proof.
  intros Huid Hplain Hu. unfold createSession.
  rewrite (format_to_plain data Hplain). simpl.
  rewrite lookup_fmap, Huid. simpl default.
  change ({[ "userId" := VStr uid; "s" := VObj (delete "userId" (to_field <$> data)) ]} : obj)
    with (<["userId" := VStr uid]> ({[ "s" := VObj (delete "userId" (to_field <$> data)) ]} : obj)).
  erewrite write_Ok.
  2:{ apply format_to_fixed.
      - apply map_Forall_insert_2; [reflexivity|]. apply map_Forall_singleton. reflexivity.
      - intros k v Hk.
        apply lookup_insert_Some in Hk as [[_ <-]|[_ Hk]]; [reflexivity|].
        apply lookup_singleton_Some in Hk as [_ <-]. reflexivity. }
  2:{ unfold createSession_stmt.
      change (param _ "userId") with (VStr uid).
      change (param_map _ "s") with (delete "userId" (to_field <$> data)).
      rewrite Hu. unfold check_storable. rewrite bool_decide_eq_true_2.
      - reflexivity.
      - intros k v Hk. apply lookup_delete_Some in Hk as [_ Hk].
        apply lookup_fmap_Some in Hk as (w & <- & Hw). apply plain_storable, (Hplain k w Hw). }
  reflexivity.
Qed.

Lemma decode_session host (data : obj) uid :
  data !! "userId" = Some (VStr uid) →
  map_Forall (λ _ v, persists host v) data →
  from_field host <$> <["userId" := VStr uid]> (non_null (delete "userId" (to_field <$> data)))
  = non_null data.
Proof.
  intros Huid H. rewrite <- (decode_stored host data H).
  f_equal. apply map_eq. intros k. destruct (decide (k = "userId")) as [->|Hk].
  - rewrite lookup_insert_eq. symmetry. apply (stored_string host); assumption.
  - rewrite lookup_insert_ne by congruence.
    rewrite !non_null_lookup, lookup_delete_ne by congruence. reflexivity.
Qed.

(** X15.  A session that [createSession] stored for an existing user is
    what [getSessionAndUser] returns while it is live (without its null
    fields, which are not stored), together with that user.  The Session
    node does not hold [userId]: the owner is the relationship, and
    [userId] is read back from the user's [id]. *)
Theorem createSession_then_lookup (host : string → option Z) (data : obj)
    (uid token : string) (t now : Z) (g : graph) (u : node) :
  data !! "userId" = Some (VStr uid) →
  data !! "sessionToken" = Some (VStr token) →
  data !! "expires" = Some (VDate (Some t)) →
  map_Forall (λ _ v, persists host v) data →
  well_formed g →
  match_nodes User [("id", VStr uid)] g = [u] →
  match_owned HAS_SESSION Session [("sessionToken", VStr token)] g = [] →
  valid_time now → (now < t)%Z →
  ∃ g' s, createSession host data g = Ok (g', data)
          ∧ match_owned HAS_SESSION Session [("sessionToken", VStr token)] g' = [(u, s)]
          ∧ node_props s !! "userId" = None
          ∧ getSessionAndUser host now token g'
            = Ok (g', Some (Some (non_null data), Some (from_field host <$> node_props u))).
Proof.
  intros Huid Htok Hexp Hdata Hwf Hu Hnone Hnow Hlive.
  destruct (matched_one _ _ _ _ Hu) as (Hun & Hul & Hup).
  apply has_props_one in Hup.
  set (s := {| node_id := next_id g; node_label := Session;
               node_props := non_null (delete "userId" (to_field <$> data)) |}).
  assert (match_owned HAS_SESSION Session [("sessionToken", VStr token)]
            (grown g u HAS_SESSION s) = [(u, s)]) as Hrows.
  { rewrite match_owned_grown, Hnone by (assumption || reflexivity).
    rewrite !bool_decide_eq_true_2 by (assumption || reflexivity).
    assert (has_props [("sessionToken", VStr token)] s = true) as ->; [|reflexivity].
    apply has_props_one. simpl. rewrite non_null_lookup, lookup_delete_ne by discriminate.
    rewrite lookup_fmap, Htok. reflexivity. }
  exists (grown g u HAS_SESSION s), s.
  split; [apply (createSession_Ok host data uid g u Huid (persists_plain host data Hdata) Hu)|].
  split; [exact Hrows|]. split.
  - simpl. rewrite non_null_lookup, lookup_delete_eq. reflexivity.
  - rewrite getSessionAndUser_result by exact Hnow. cbv zeta.
    rewrite Hrows.
    assert (List.filter (λ us : node * node, le_datetime (node_props us.2 !! "expires") now)
              [(u, s)] = []) as ->.
    { simpl. rewrite non_null_lookup, lookup_delete_ne by discriminate.
      rewrite lookup_fmap, Hexp. reflexivity. }
    simpl map. rewrite detach_delete_nil, Hrows. simpl.
    rewrite Hup. simpl default.
    change (non_null (delete "userId" (to_field <$> data))) with (node_props s).
    unfold s. simpl node_props.
    rewrite (decode_session host data uid Huid Hdata). reflexivity.
Qed.

Lemma createSession_then_lookup_witness :
  ∃ g', createSession standard_host live_session ann_alone = Ok (g', live_session)
        ∧ getSessionAndUser standard_host 1700000000000 "tok" g'
          = Ok (g', Some (Some live_session, Some (node_props ann))).
Proof.
  destruct (createSession_then_lookup standard_host live_session "u1" "tok"
              1900000000000 1700000000000 ann_alone ann)
    as (g' & s & H1 & _ & _ & H2).
  - reflexivity.
  - reflexivity.
  - reflexivity.
  - unfold live_session.
    do 2 (apply map_Forall_insert_2; [split; [reflexivity|split; reflexivity]|]).
    apply map_Forall_singleton. split; [reflexivity|].
    exists 1900000000000%Z. split; [reflexivity|]. unfold valid_time, max_time. lia.
  - split; [repeat constructor; simpl; intros []|].
    split; repeat constructor.
  - reflexivity.
  - reflexivity.
  - unfold valid_time, max_time. lia.
  - lia.
  - exists g'. split; [exact H1|]. rewrite H2. reflexivity.
Defined.

Lemma map_unchanged {A} (f : A → A) (l : list A) :
  (∀ x, In x l → f x = x) → map f l = l.
Proof.
  intros H. rewrite <- (map_id l) at 2. apply map_ext_in. exact H.
Qed.

(** Linking a new account grows the store by the Account node and the
    relationship to it. *)
Lemma link_new_grown (a : obj) g u :
  well_formed g → In u (nodes g) →
  let key := account_key a in
  let n := {| node_id := next_id g; node_label := Account; node_props := list_to_map key |} in
  link_to u n a (create_node Account (list_to_map key) g).1
  = grown g u HAS_ACCOUNT (with_props (λ p, set_merge p a) n).
Proof.
  intros (Hids & Hnodes & Hrels) Hu key n. unfold link_to, merge_rel.
  assert (has_rel (node_id u) HAS_ACCOUNT (node_id n)
            (update_props [node_id n] (λ props, set_merge props a)
               (create_node Account (list_to_map key) g).1) = false) as ->.
  { unfold has_rel. simpl. apply not_true_is_false. intros E.
    apply existsb_exists in E as (r & Hr & E).
    rewrite List.Forall_forall in Hrels. destruct (Hrels r Hr) as [_ Hd].
    destruct (Nat.eqb_spec (rel_dst r) (next_id g)) as [E'|E']; [lia|].
    rewrite andb_false_r in E. discriminate. }
  unfold create_rel, grown. f_equal.
  rewrite update_props_one. simpl. rewrite map_app. simpl. rewrite Nat.eqb_refl. f_equal.
  apply map_unchanged. intros m Hm. rewrite List.Forall_forall in Hnodes.
  specialize (Hnodes m Hm). destruct (Nat.eqb_spec (node_id m) (next_id g)); [lia|reflexivity].
Qed.

(** X16.  After [linkAccount] links a new account to an existing user,
    [getUserByAccount] returns for the account's key what [getUser]
    returns for the user's id.  The Account node does not hold [userId]. *)
Theorem linkAccount_then_lookup (host : string → option Z) (data : obj)
    (uid provider pid : string) (g : graph) (u : node) :
  data !! "userId" = Some (VStr uid) →
  data !! "provider" = Some (VStr provider) →
  data !! "providerAccountId" = Some (VStr pid) →
  map_Forall (λ _ v, storable v = true) data →
  well_formed g →
  match_nodes User [("id", VStr uid)] g = [u] →
  match_nodes Account [("providerAccountId", VStr pid); ("provider", VStr provider)] g = [] →
  let pp : obj := {[ "provider" := VStr provider; "providerAccountId" := VStr pid ]} in
  ∃ g' a, linkAccount host data g = Ok (g', data)
          ∧ match_owned HAS_ACCOUNT Account (account_key pp) g' = [(u, a)]
          ∧ node_props a !! "userId" = None
          ∧ getUserByAccount host pp g' = getUser host uid g
          ∧ getUser host uid g = Some (from_field host <$> node_props u).
Proof.
  intros Huid Hprov Hpid Hst Hwf Hu Hnone pp.
  destruct (matched_one _ _ _ _ Hu) as (Hun & Hul & Hup).
  set (key := [("providerAccountId", VStr pid); ("provider", VStr provider)]) in *.
  pose proof (link_key data provider pid Hprov Hpid) as Hkey. fold key in Hkey.
  destruct (link_stmt_new data uid provider pid Hprov Hpid Hst g u Hwf Hu Hnone)
    as (Hstmt & _).
  fold key in Hstmt.
  pose proof (link_new_grown (delete "userId" data) g u Hwf Hun) as Hg.
  cbv zeta in Hg. rewrite Hkey in Hg. rewrite Hg in Hstmt. clear Hg.
  set (a := with_props (λ p, set_merge p (delete "userId" data))
              {| node_id := next_id g; node_label := Account;
                 node_props := list_to_map key |}) in *.
  assert (match_owned HAS_ACCOUNT Account key (grown g u HAS_ACCOUNT a) = [(u, a)]) as Hrows.
  { rewrite match_owned_grown by (assumption || reflexivity).
    assert (match_owned HAS_ACCOUNT Account key g = []) as ->.
    { destruct (match_owned HAS_ACCOUNT Account key g) as [|[u' x] rest] eqn:E; [reflexivity|].
      assert (In (u', x) (match_owned HAS_ACCOUNT Account key g)) as Hin
        by (rewrite E; left; reflexivity).
      apply match_owned_In in Hin as (r & _ & _ & _ & Hx & _ & Hl & Hp).
      apply node_at_Some in Hx as [Hx _].
      assert (In x (match_nodes Account key g)) as Hm by (apply match_nodes_In; auto).
      rewrite Hnone in Hm. destruct Hm. }
    rewrite !bool_decide_eq_true_2 by (assumption || reflexivity).
    unfold a, key. rewrite (key_has_props_updated data provider pid Hprov Hpid). reflexivity. }
  exists (grown g u HAS_ACCOUNT a), a.
  split; [|split; [exact Hrows|split; [|split]]].
  - rewrite (linkAccount_statement host data uid Huid), Hstmt. reflexivity.
  - simpl. rewrite set_merge_lookup, lookup_delete_eq. reflexivity.
  - rewrite getUserByAccount_head, getUser_head, Hu.
    change (account_key pp) with key. rewrite Hrows. reflexivity.
  - rewrite getUser_head, Hu. reflexivity.
Qed.

Lemma linkAccount_then_lookup_witness :
  ∃ g', linkAccount standard_host github_account ann_alone = Ok (g', github_account)
        ∧ getUserByAccount standard_host
            {[ "provider" := VStr "github"; "providerAccountId" := VStr "42" ]} g'
          = Some (node_props ann).
Proof.
  destruct (linkAccount_then_lookup standard_host github_account "u1" "github" "42"
              ann_alone ann)
    as (g' & a & H1 & _ & _ & H2 & H3).
  - reflexivity.
  - reflexivity.
  - reflexivity.
  - unfold github_account.
    do 3 (apply map_Forall_insert_2; [reflexivity|]).
    apply map_Forall_singleton. reflexivity.
  - split; [repeat constructor; simpl; intros []|].
    split; repeat constructor.
  - reflexivity.
  - reflexivity.
  - exists g'. split; [exact H1|]. rewrite H2, H3. reflexivity.
Defined.

Lemma create_node_unique l props g :
  well_formed g → unique_ids (create_node l props g).1.
Proof.
  intros (Hids & Hnodes & _). unfold unique_ids. simpl. rewrite map_app. simpl.
  apply List.NoDup_app; [exact Hids|repeat constructor; intros []|].
  intros i Hi [<-|[]]. apply in_map_iff in Hi as (m & E & Hm).
  rewrite List.Forall_forall in Hnodes. specialize (Hnodes m Hm). lia.
Qed.

(** [MERGE] on a two-string key, when at most one node has it: one node
    comes back, and afterwards it is the only match. *)
Lemma merge_node_one l k1 s1 k2 s2 g :
  k1 ≠ k2 → well_formed g →
  let pat := [(k1, VStr s1); (k2, VStr s2)] in
  (length (match_nodes l pat g) ≤ 1)%nat →
  ∃ gA v, merge_node l pat g = Ok (gA, [v])
          ∧ unique_ids gA ∧ match_nodes l pat gA = [v]
          ∧ (match_nodes l pat g = [] → nodes gA = (nodes g ++ [v])%list)
          ∧ (match_nodes l pat g ≠ [] → gA = g).
Proof.
  intros Hk Hwf pat Hlen. unfold merge_node.
  change (existsb _ pat) with false. cbv iota.
  destruct (match_nodes l pat g) as [|v [|w rest]] eqn:E; [| |simpl in Hlen; lia].
  - exists (create_node l (list_to_map pat) g).1,
           {| node_id := next_id g; node_label := l; node_props := list_to_map pat |}.
    split; [reflexivity|]. split; [apply create_node_unique, Hwf|].
    split; [|split; [reflexivity|congruence]].
    rewrite match_nodes_create, E. simpl.
    rewrite bool_decide_eq_true_2 by reflexivity.
    unfold has_props. simpl.
    rewrite lookup_insert_eq, lookup_insert_ne, lookup_insert_eq by congruence.
    simpl. rewrite !String.eqb_refl. reflexivity.
  - exists g, v. split; [reflexivity|]. split; [apply Hwf|]. split; [exact E|].
    split; [discriminate|reflexivity].
Qed.

Lemma useVerificationToken_first host identifier token g v rest :
  let data : obj := {[ "identifier" := VStr identifier; "token" := VStr token ]} in
  let key := [("identifier", VStr identifier); ("token", VStr token)] in
  match_nodes VerificationToken key g = v :: rest →
  useVerificationToken host data g
  = Ok (detach_delete (map node_id (v :: rest)) g, Some (from_field host <$> node_props v)).
Proof.
  intros data key Hv.
  destruct (token_data_fields identifier token) as [Hto Hkey]. fold data in Hto, Hkey.
  unfold useVerificationToken.
  erewrite write_Ok; [|exact Hto|unfold useVerificationToken_stmt; rewrite Hkey; reflexivity].
  fold key. rewrite Hv. simpl head. simpl fmap.
  rewrite insert_empty, format_from_column. simpl.
  rewrite lookup_singleton_eq. reflexivity.
Qed.

(** X17.  [createVerificationToken] is an upsert on (identifier, token):
    where at most one token has the pair, exactly one has it afterwards,
    and its properties are the new record's (in store form, null fields
    left out) with nothing of an older token kept.  [useVerificationToken]
    then returns the record, without its null fields, and removes the
    token. *)
Theorem createVerificationToken_then_use (host : string → option Z) (data : obj)
    (identifier token : string) (g : graph) :
  data !! "identifier" = Some (VStr identifier) →
  data !! "token" = Some (VStr token) →
  map_Forall (λ _ v, plain v = true) data →
  well_formed g →
  let key := [("identifier", VStr identifier); ("token", VStr token)] in
  (length (match_nodes VerificationToken key g) ≤ 1)%nat →
  ∃ g1 v,
    createVerificationToken host data g = Ok (g1, data)
    ∧ match_nodes VerificationToken key g1 = [v]
    ∧ node_props v = non_null (to_field <$> data)
    ∧ (map_Forall (λ _ v, persists host v) data →
       useVerificationToken host
         {[ "identifier" := VStr identifier; "token" := VStr token ]} g1
       = Ok (detach_delete [node_id v] g1, Some (non_null data))).
Proof.
  intros Hid Htok Hplain Hwf key Hlen.
  destruct (merge_node_one VerificationToken "identifier" identifier "token" token g)
    as (gA & v & Hmerge & HidsA & HmA & _); [discriminate|exact Hwf|exact Hlen|].
  fold key in Hmerge, HmA.
  set (f := λ _ : obj, non_null (to_field <$> data)).
  assert (match_nodes VerificationToken key (update_props [node_id v] f gA)
          = [with_props f v]) as Hm1.
  { pose proof (match_nodes_updated VerificationToken key f gA HidsA) as H.
    rewrite HmA in H. apply H. intros n _. unfold has_props, key, f. simpl.
    rewrite !non_null_lookup, !lookup_fmap, Hid, Htok. simpl.
    rewrite !String.eqb_refl. reflexivity. }
  exists (update_props [node_id v] f gA), (with_props f v).
  split; [|split; [exact Hm1|split; [reflexivity|]]].
  - unfold createVerificationToken.
    erewrite write_Ok; [|apply format_to_plain, Hplain|].
    2:{ unfold createVerificationToken_stmt.
        assert (token_key (to_field <$> data) = key) as ->.
        { unfold token_key. rewrite (param_to_field_id data "identifier" identifier Hid),
            (param_to_field_id data "token" token Htok). reflexivity. }
        rewrite Hmerge. simpl. rewrite check_storable_plain by exact Hplain. reflexivity. }
    reflexivity.
  - intros Hdata.
    rewrite (useVerificationToken_first host identifier token _ (with_props f v) [] Hm1).
    simpl. unfold f. rewrite (decode_stored host data Hdata). reflexivity.
Qed.

Lemma createVerificationToken_then_use_witness :
  ∃ g1, createVerificationToken standard_host fresh_token token_graph = Ok (g1, fresh_token)
        ∧ ∃ g2, useVerificationToken standard_host
                  {[ "identifier" := VStr "ann@example.com"; "token" := VStr "s3cret" ]} g1
                = Ok (g2, Some fresh_token).
Proof.
  destruct (createVerificationToken_then_use standard_host fresh_token
              "ann@example.com" "s3cret" token_graph)
    as (g1 & v & H1 & _ & _ & H2).
  - reflexivity.
  - reflexivity.
  - unfold fresh_token. do 2 (apply map_Forall_insert_2; [reflexivity|]).
    apply map_Forall_singleton. reflexivity.
  - split; [repeat constructor; simpl; intros []|].
    split; repeat constructor.
  - vm_compute. lia.
  - exists g1. split; [exact H1|]. eexists. apply H2.
    unfold fresh_token.
    do 2 (apply map_Forall_insert_2; [split; [reflexivity|split; reflexivity]|]).
    apply map_Forall_singleton. split; [reflexivity|].
    exists 1900000000000%Z. split; [reflexivity|]. unfold valid_time, max_time. lia.
Defined.

(** *** updateSession *)

(** X18.  [updateSession] writes the supplied fields over those of the
    owned sessions with the token, as [updateUser] does for users, and
    returns the first as a record whose only column is [s].  It changes
    no relationship: the session stays with its user, and the [userId]
    it returns is that user's [id], whatever [userId] was passed in. *)
Theorem updateSession_merge (host : string → option Z) (data : obj) (g : graph)
    (token : string) (u s : node) (rest : list (node * node)) :
  data !! "sessionToken" = Some (VStr token) →
  map_Forall (λ _ v, plain v = true) data →
  match_owned HAS_SESSION Session [("sessionToken", VStr token)] g = (u, s) :: rest →
  let fields : obj := to_field <$> data in
  let updated := set_merge (node_props s) fields in
  ∃ g', updateSession host data g
        = Ok (g', Some {[ "s" := VObj (<["userId" := default VNull (node_props u !! "id")]>
                                         updated) ]})
        ∧ rels g' = rels g
        ∧ In (with_props (λ props, set_merge props fields) s) (nodes g')
        ∧ ∀ k, updated !! k = match data !! k with
                               | None | Some VUndefined => node_props s !! k
                               | Some VNull => None
                               | Some v => Some (to_field v)
                               end.
Proof.
  intros Htok Hplain Hrows fields updated.
  eexists. split; [|split; [|split]].
  - unfold updateSession.
    erewrite write_Ok; [|apply format_to_plain, Hplain|].
    2:{ unfold updateSession_stmt.
        assert (session_pattern (to_field <$> data) = [("sessionToken", VStr token)]) as ->.
        { unfold session_pattern. rewrite (param_to_field_id data "sessionToken" token Htok).
          reflexivity. }
        rewrite Hrows. rewrite check_storable_plain by exact Hplain. reflexivity. }
    simpl head. simpl fmap. rewrite insert_empty, format_from_column. reflexivity.
  - reflexivity.
  - assert (In (u, s) (match_owned HAS_SESSION Session [("sessionToken", VStr token)] g))
      as Hin by (rewrite Hrows; left; reflexivity).
    apply match_owned_In in Hin as (r & _ & _ & _ & Hs & _).
    apply node_at_Some in Hs as [Hs _].
    apply (update_props_In _ (λ props, set_merge props fields) g s Hs). left. reflexivity.
  - intros k. unfold updated, fields. rewrite set_merge_lookup, lookup_fmap.
    destruct (data !! k) as [v|]; [|reflexivity].
    destruct v as [| | | | |[t|]| | |]; reflexivity.
Qed.

Lemma updateSession_merge_witness :
  ∃ g', updateSession standard_host
          {[ "sessionToken" := VStr "tok"; "userId" := VStr "u2" ]} ann_logged_in
        = Ok (g', Some {[ "s" := VObj {[ "sessionToken" := VStr "tok"; "userId" := VStr "u1";
                                         "expires" := VStr "2020-09-13T12:26:40.000Z" ]} ]})
        ∧ rels g' = rels ann_logged_in.
Proof.
  destruct (updateSession_merge standard_host
              {[ "sessionToken" := VStr "tok"; "userId" := VStr "u2" ]} ann_logged_in "tok"
              ann
              {| node_id := 1; node_label := Session;
                 node_props := {[ "sessionToken" := VStr "tok";
                                  "expires" := VStr "2020-09-13T12:26:40.000Z" ]} |} [])
    as (g' & H1 & H2 & _).
  - reflexivity.
  - apply map_Forall_insert_2; [reflexivity|]. apply map_Forall_singleton. reflexivity.
  - reflexivity.
  - exists g'. split; [rewrite H1; reflexivity|exact H2].
Defined.

Lemma label_at_Some g i l :
  label_at g i = Some l → ∃ n, In n (nodes g) ∧ node_id n = i ∧ node_label n = l.
Proof.
  unfold label_at. destruct (node_at g i) as [n|] eqn:E; [|discriminate].
  intros [= <-]. apply node_at_Some in E as [Hn Hi]. exists n. auto.
Qed.

Lemma label_at_lt g i l : well_formed g → label_at g i = Some l → i < next_id g.
Proof.
  intros (_ & Hnodes & _) H. apply label_at_Some in H as (n & Hn & <- & _).
  rewrite List.Forall_forall in Hnodes. exact (Hnodes n Hn).
Qed.

Lemma label_at_In g n :
  unique_ids g → In n (nodes g) → label_at g (node_id n) = Some (node_label n).
Proof. intros Hids Hn. unfold label_at. rewrite node_at_In by assumption. reflexivity. Qed.

Lemma label_at_same_nodes g g' i : nodes g' = nodes g → label_at g' i = label_at g i.
Proof. intros E. unfold label_at, node_at. rewrite E. reflexivity. Qed.

Lemma label_at_create l props g i lb :
  label_at g i = Some lb → label_at (create_node l props g).1 i = Some lb.
Proof.
  unfold label_at, node_at. simpl.
  destruct (List.find _ (nodes g)) as [n|] eqn:E; [|discriminate].
  intros H. rewrite (find_app_l _ _ _ _ E). exact H.
Qed.

Lemma label_at_created l props g :
  well_formed g → label_at (create_node l props g).1 (next_id g) = Some l.
Proof.
  intros (_ & Hnodes & _). unfold label_at, node_at. simpl. rewrite find_app_r.
  - simpl. rewrite Nat.eqb_refl. reflexivity.
  - apply find_none_iff. intros n Hn. rewrite List.Forall_forall in Hnodes.
    specialize (Hnodes n Hn). apply Nat.eqb_neq. lia.
Qed.

Lemma find_map_same {A} (p : A → bool) (h : A → A) (l : list A) :
  (∀ x, p (h x) = p x) → List.find p (map h l) = h <$> List.find p l.
Proof.
  intros H. induction l as [|a l IH]; [reflexivity|].
  simpl. rewrite H. destruct (p a); [reflexivity|exact IH].
Qed.

Lemma label_at_update ids f g i : label_at (update_props ids f g) i = label_at g i.
Proof.
  unfold label_at, node_at. simpl. rewrite find_map_same.
  - destruct (List.find _ (nodes g)) as [n|]; [|reflexivity].
    simpl. destruct (mem (node_id n) ids); reflexivity.
  - intros n. destruct (mem (node_id n) ids); reflexivity.
Qed.

Lemma label_at_detach ids g i :
  ¬ In i ids → label_at (detach_delete ids g) i = label_at g i.
Proof. intros H. unfold label_at. rewrite node_at_detach_delete by exact H. reflexivity. Qed.

Lemma NoDup_map_filter {A B} (f : A → B) (q : A → bool) (l : list A) :
  List.NoDup (map f l) → List.NoDup (map f (List.filter q l)).
Proof.
  induction l as [|a l IH]; simpl; intros H; [constructor|].
  inversion H as [|? ? Hnot Hrest]; subst.
  destruct (q a); [|exact (IH Hrest)].
  simpl. constructor; [|exact (IH Hrest)].
  intros Hin. apply Hnot. apply in_map_iff in Hin as (x & E & Hx).
  apply filter_In in Hx as [Hx _]. apply in_map_iff. exists x. auto.
Qed.

Lemma Forall_filter_keep {A} (P : A → Prop) (q : A → bool) (l : list A) :
  List.Forall P l → List.Forall P (List.filter q l).
Proof.
  rewrite !List.Forall_forall. intros H x Hx. apply filter_In in Hx as [Hx _]. exact (H x Hx).
Qed.

(** Each clause keeps the schema. *)

Lemma schema_create_node l props g : schema g → schema (create_node l props g).1.
Proof.
  intros [Hwf Htyped]. pose proof Hwf as (Hids & Hnodes & Hrels). split.
  - split; [apply create_node_unique, Hwf|]. simpl. split.
    + apply List.Forall_app. split.
      * eapply List.Forall_impl; [|exact Hnodes]. simpl. intros n Hn. lia.
      * repeat constructor.
    + eapply List.Forall_impl; [|exact Hrels]. simpl. intros r Hr. lia.
  - simpl. eapply List.Forall_impl; [|exact Htyped].
    intros r [Hs Hd]. split; apply label_at_create; assumption.
Qed.

Lemma schema_update_props ids f g : schema g → schema (update_props ids f g).
Proof.
  intros [(Hids & Hnodes & Hrels) Htyped]. split; [split; [|split]|].
  - unfold unique_ids. simpl. rewrite map_map.
    erewrite map_ext; [exact Hids|]. intros n. destruct (mem (node_id n) ids); reflexivity.
  - simpl. rewrite List.Forall_forall in *. intros m Hm.
    apply in_map_iff in Hm as (n & <- & Hn). specialize (Hnodes n Hn).
    destruct (mem (node_id n) ids); exact Hnodes.
  - exact Hrels.
  - simpl. eapply List.Forall_impl; [|exact Htyped].
    intros r [Hs Hd]. split; rewrite label_at_update; assumption.
Qed.

Lemma schema_detach_delete ids g : schema g → schema (detach_delete ids g).
Proof.
  intros [(Hids & Hnodes & Hrels) Htyped]. split; [split; [|split]|].
  - apply NoDup_map_filter, Hids.
  - apply Forall_filter_keep, Hnodes.
  - apply Forall_filter_keep, Hrels.
  - simpl. rewrite List.Forall_forall in *. intros r Hr.
    apply filter_In in Hr as [Hr Hkeep]. apply andb_true_iff in Hkeep as [Hs Hd].
    apply negb_true_iff in Hs, Hd. destruct (Htyped r Hr) as [Ls Ld].
    split; rewrite label_at_detach; try assumption; intros Hin; apply mem_In in Hin; congruence.
Qed.

Lemma schema_create_rel s t d g :
  schema g → label_at g s = Some User → label_at g d = Some (target t) →
  schema (create_rel s t d g).
Proof.
  intros [Hwf Htyped] Hs Hd. pose proof Hwf as (Hids & Hnodes & Hrels). split.
  - split; [exact Hids|split; [exact Hnodes|]]. simpl.
    apply List.Forall_app. split; [exact Hrels|]. repeat constructor; simpl.
    + exact (label_at_lt g s User Hwf Hs).
    + exact (label_at_lt g d _ Hwf Hd).
  - simpl. apply List.Forall_app. split; [exact Htyped|]. repeat constructor; assumption.
Qed.

Lemma schema_merge_rel s t d g :
  schema g → label_at g s = Some User → label_at g d = Some (target t) →
  schema (merge_rel s t d g).
Proof.
  intros H Hs Hd. unfold merge_rel. destruct (has_rel s t d g); [exact H|].
  apply schema_create_rel; assumption.
Qed.

Lemma schema_merge_node l pat g g' ns :
  schema g → merge_node l pat g = Ok (g', ns) →
  schema g'
  ∧ (∀ x, In x ns → label_at g' (node_id x) = Some l)
  ∧ (∀ i lb, label_at g i = Some lb → label_at g' i = Some lb).
Proof.
  intros Hg. unfold merge_node. destruct (existsb _ pat); [discriminate|].
  destruct (match_nodes l pat g) as [|v rest] eqn:E.
  - simpl. intros [= <- <-]. split; [apply (schema_create_node l _ g), Hg|]. split.
    + intros x [<-|[]]. apply (label_at_created l _ g), Hg.
    + intros i lb. apply label_at_create.
  - intros [= <- <-]. split; [exact Hg|]. split; [|auto].
    intros x Hx. rewrite <- E in Hx. apply match_nodes_In in Hx as (Hn & <- & _).
    apply label_at_In; [apply Hg|exact Hn].
Qed.

(** The statements with a loop. *)

Lemma createSession_fold props users g :
  schema g → (∀ u, In u users → label_at g (node_id u) = Some User) →
  schema (foldl (λ g u,
            let '(g', n) := create_node Session props g in
            create_rel (node_id u) HAS_SESSION (node_id n) g') g users).
Proof.
  revert g. induction users as [|u users IH]; intros g Hg Husers; [exact Hg|].
  simpl. apply IH.
  - apply (schema_create_rel _ HAS_SESSION).
    + apply (schema_create_node Session props g), Hg.
    + apply label_at_create, Husers. left. reflexivity.
    + apply (label_at_created Session props g), Hg.
  - intros u' Hu'. rewrite (label_at_same_nodes (create_node Session props g).1) by reflexivity.
    apply label_at_create, Husers. right. exact Hu'.
Qed.


Lemma foldl_Throw {A B} (step : result A → B → result A) e (l : list B) :
  (∀ b, step (Throw e) b = Throw e) → foldl step (Throw e) l = Throw e.
Proof. intros H. induction l as [|b l IH]; [reflexivity|]. simpl. rewrite H. exact IH. Qed.

Lemma linkAccount_fold key users g rows g1 rows1 :
  schema g → (∀ u, In u users → label_at g (node_id u) = Some User) → linked g rows →
  foldl (λ (acc : result (graph * list (nat * nat))) (u : node),
      '(g, rows) ← acc;
      '(g', accounts) ← merge_node Account key g;
      Ok (g', (rows ++ map (λ x, (node_id u, node_id x)) accounts)%list))
    (Ok (g, rows)) users = Ok (g1, rows1) →
  schema g1 ∧ linked g1 rows1.
Proof.
  revert g rows. induction users as [|u users IH]; intros g rows Hg Husers Hrows.
  - simpl. intros [= <- <-]. auto.
  - simpl. destruct (merge_node Account key g) as [[g' accounts]|e] eqn:E; simpl.
    + destruct (schema_merge_node Account key g g' accounts Hg E) as (Hg' & Hacc & Hmono).
      apply IH; [exact Hg'| |].
      * intros u' Hu'. apply Hmono, Husers. right. exact Hu'.
      * intros ux Hux. apply in_app_iff in Hux as [Hux|Hux].
        -- destruct (Hrows ux Hux). split; apply Hmono; assumption.
        -- apply in_map_iff in Hux as (x & <- & Hx). simpl. split.
           ++ apply Hmono, Husers. left. reflexivity.
           ++ apply Hacc, Hx.
    + rewrite foldl_Throw by reflexivity. discriminate.
Qed.

Lemma merge_rel_fold rows g :
  schema g → linked g rows →
  schema (foldl (λ g (ux : nat * nat), merge_rel ux.1 HAS_ACCOUNT ux.2 g) g rows).
Proof.
  revert g. induction rows as [|ux rows IH]; intros g Hg Hrows; [exact Hg|].
  simpl. destruct (Hrows ux (or_introl eq_refl)) as [Hs Hd]. apply IH.
  - apply (schema_merge_rel _ HAS_ACCOUNT); assumption.
  - intros ux' Hux'. destruct (Hrows ux' (or_intror Hux')) as [Hs' Hd'].
    split; (rewrite (label_at_same_nodes g) by apply merge_rel_nodes); assumption.
Qed.

Lemma matched_users pat g u :
  schema g → In u (match_nodes User pat g) → label_at g (node_id u) = Some User.
Proof.
  intros Hg Hu. apply match_nodes_In in Hu as (Hn & <- & _).
  apply label_at_In; [apply Hg|exact Hn].
Qed.

(** Inversion of the facade. *)

Lemma bind_Ok {A B} (m : result A) (k : A → result B) b :
  m ≫= k = Ok b → ∃ a, m = Ok a ∧ k a = Ok b.
Proof. destruct m as [a|e]; [|discriminate]. intros H. exists a. auto. Qed.

Lemma write_stmt host stmt values g g' r :
  write host stmt values g = Ok (g', r) →
  ∃ data records, stmt data g = Ok (g', records).
Proof.
  unfold write. intros H. apply bind_Ok in H as (data & _ & H).
  apply bind_Ok in H as ([g1 records] & Hs & H). injection H as <- _.
  exists data, records. exact Hs.
Qed.

(** The statements keep the schema. *)

Lemma createUser_stmt_schema data g g' rs :
  schema g → createUser_stmt data g = Ok (g', rs) → schema g'.
Proof.
  intros Hg H. unfold createUser_stmt in H. apply bind_Ok in H as (_ & _ & [= <- _]).
  apply (schema_create_node User _ g), Hg.
Qed.

Lemma updateUser_stmt_schema data g g' rs :
  schema g → updateUser_stmt data g = Ok (g', rs) → schema g'.
Proof.
  intros Hg H. unfold updateUser_stmt in H. apply bind_Ok in H as (_ & _ & [= <- _]).
  apply schema_update_props, Hg.
Qed.

Lemma deleteUser_stmt_schema data g g' rs :
  schema g → deleteUser_stmt data g = Ok (g', rs) → schema g'.
Proof. intros Hg [= <- _]. apply schema_detach_delete, Hg. Qed.

Lemma linkAccount_stmt_schema data g g' rs :
  schema g → linkAccount_stmt data g = Ok (g', rs) → schema g'.
Proof.
  intros Hg H. unfold linkAccount_stmt in H.
  apply bind_Ok in H as ([g1 rows] & Hfold & H).
  apply bind_Ok in H as (_ & _ & [= <- _]).
  apply linkAccount_fold in Hfold as [Hg1 Hrows].
  - apply merge_rel_fold.
    + apply schema_update_props, Hg1.
    + intros ux Hux. rewrite !label_at_update. exact (Hrows ux Hux).
  - exact Hg.
  - intros u Hu. exact (matched_users _ g u Hg Hu).
  - intros ux [].
Qed.

Lemma unlinkAccount_stmt_schema data g g' rs :
  schema g → unlinkAccount_stmt data g = Ok (g', rs) → schema g'.
Proof. intros Hg [= <- _]. apply schema_detach_delete, Hg. Qed.

Lemma createSession_stmt_schema data g g' rs :
  schema g → createSession_stmt data g = Ok (g', rs) → schema g'.
Proof.
  intros Hg H. unfold createSession_stmt in H. apply bind_Ok in H as (_ & _ & [= <- _]).
  apply createSession_fold; [exact Hg|].
  intros u Hu. exact (matched_users _ g u Hg Hu).
Qed.

Lemma getSessionAndUser_stmt_schema data g g' rs :
  schema g → getSessionAndUser_stmt data g = Ok (g', rs) → schema g'.
Proof.
  intros Hg H. unfold getSessionAndUser_stmt in H. apply bind_Ok in H as (now & _ & [= <- _]).
  apply schema_detach_delete, Hg.
Qed.

Lemma updateSession_stmt_schema data g g' rs :
  schema g → updateSession_stmt data g = Ok (g', rs) → schema g'.
Proof.
  intros Hg H. unfold updateSession_stmt in H. apply bind_Ok in H as (_ & _ & [= <- _]).
  apply schema_update_props, Hg.
Qed.

Lemma deleteSession_stmt_schema data g g' rs :
  schema g → deleteSession_stmt data g = Ok (g', rs) → schema g'.
Proof. intros Hg [= <- _]. apply schema_detach_delete, Hg. Qed.

Lemma createVerificationToken_stmt_schema data g g' rs :
  schema g → createVerificationToken_stmt data g = Ok (g', rs) → schema g'.
Proof.
  intros Hg H. unfold createVerificationToken_stmt in H.
  apply bind_Ok in H as ([g1 vs] & Hm & H). apply bind_Ok in H as (_ & _ & [= <- _]).
  apply schema_update_props. exact (proj1 (schema_merge_node _ _ _ _ _ Hg Hm)).
Qed.

Lemma useVerificationToken_stmt_schema data g g' rs :
  schema g → useVerificationToken_stmt data g = Ok (g', rs) → schema g'.
Proof. intros Hg [= <- _]. apply schema_detach_delete, Hg. Qed.

(** X19.  Every operation of the adapter that returns keeps the schema of
    the header of index.ts: node identities stay unique, and every
    relationship goes from a User in the store to an Account (for
    HAS_ACCOUNT) or a Session (for HAS_SESSION) in the store; nothing is
    left dangling. *)
Theorem schema_invariant (host : string → option Z) (g : graph) :
  schema g →
  (∀ uuid data g' r, createUser host uuid data g = Ok (g', r) → schema g')
  ∧ (∀ data g' r, updateUser host data g = Ok (g', r) → schema g')
  ∧ (∀ id g' r, deleteUser host id g = Ok (g', r) → schema g')
  ∧ (∀ data g' r, linkAccount host data g = Ok (g', r) → schema g')
  ∧ (∀ pp g' r, unlinkAccount host pp g = Ok (g', r) → schema g')
  ∧ (∀ data g' r, createSession host data g = Ok (g', r) → schema g')
  ∧ (∀ now token g' r, getSessionAndUser host now token g = Ok (g', r) → schema g')
  ∧ (∀ data g' r, updateSession host data g = Ok (g', r) → schema g')
  ∧ (∀ token g' r, deleteSession host token g = Ok (g', r) → schema g')
  ∧ (∀ data g' r, createVerificationToken host data g = Ok (g', r) → schema g')
  ∧ (∀ data g' r, useVerificationToken host data g = Ok (g', r) → schema g').
Proof.
  intros Hg.
  split; [|split; [|split; [|split; [|split; [|split; [|split; [|split; [|split; [|split]]]]]]]]].
  - intros uuid data g' r H. unfold createUser in H. cbv zeta in H.
    apply bind_Ok in H as ([g1 o] & H & [= <- _]).
    apply write_stmt in H as (d & rs & H). exact (createUser_stmt_schema d g g1 rs Hg H).
  - intros data g' r H. unfold updateUser in H.
    apply bind_Ok in H as ([g1 o] & H & H'). apply write_stmt in H as (d & rs & H).
    destruct o; [|discriminate]. injection H' as <- _.
    exact (updateUser_stmt_schema d g g1 rs Hg H).
  - intros id g' r H. apply write_stmt in H as (d & rs & H).
    exact (deleteUser_stmt_schema d g g' rs Hg H).
  - intros data g' r H. unfold linkAccount in H. cbv zeta in H.
    apply bind_Ok in H as ([g1 o] & H & [= <- _]).
    apply write_stmt in H as (d & rs & H). exact (linkAccount_stmt_schema d g g1 rs Hg H).
  - intros pp g' r H. apply write_stmt in H as (d & rs & H).
    exact (unlinkAccount_stmt_schema d g g' rs Hg H).
  - intros data g' r H. unfold createSession in H.
    apply bind_Ok in H as (fields & _ & H). cbv zeta in H.
    apply bind_Ok in H as ([g1 o] & H & [= <- _]).
    apply write_stmt in H as (d & rs & H). exact (createSession_stmt_schema d g g1 rs Hg H).
  - intros now token g' r H. unfold getSessionAndUser in H.
    apply bind_Ok in H as ([g1 o] & H & H'). apply write_stmt in H as (d & rs & H).
    assert (g' = g1) as ->.
    { destruct (field o "session"), (field o "user"); try (injection H' as <- _; reflexivity).
      destruct (truthy _ && truthy _); injection H' as <- _; reflexivity. }
    exact (getSessionAndUser_stmt_schema d g g1 rs Hg H).
  - intros data g' r H. apply write_stmt in H as (d & rs & H).
    exact (updateSession_stmt_schema d g g' rs Hg H).
  - intros token g' r H. apply write_stmt in H as (d & rs & H).
    exact (deleteSession_stmt_schema d g g' rs Hg H).
  - intros data g' r H. unfold createVerificationToken in H.
    apply bind_Ok in H as ([g1 o] & H & [= <- _]).
    apply write_stmt in H as (d & rs & H).
    exact (createVerificationToken_stmt_schema d g g1 rs Hg H).
  - intros data g' r H. unfold useVerificationToken in H.
    apply bind_Ok in H as ([g1 o] & H & [= <- _]).
    apply write_stmt in H as (d & rs & H).
    exact (useVerificationToken_stmt_schema d g g1 rs Hg H).
Qed.

Lemma schema_empty : schema empty_graph.
Proof. split; [split; [constructor|split; constructor]|constructor]. Qed.

Lemma schema_invariant_witness :
  ∃ g1 g2, createUser standard_host "u1" {[ "name" := VStr "Ann" ]} empty_graph
           = Ok (g1, {[ "id" := VStr "u1"; "name" := VStr "Ann" ]})
           ∧ linkAccount standard_host github_account g1 = Ok (g2, github_account)
           ∧ schema g2 ∧ length (rels g2) = 1.
Proof.
  eexists ann_alone, _. split; [reflexivity|]. split; [reflexivity|]. split; [|reflexivity].
  assert (schema ann_alone) as H1.
  { apply (schema_invariant standard_host empty_graph schema_empty)
      with (uuid := "u1") (data := {[ "name" := VStr "Ann" ]})
           (r := {[ "id" := VStr "u1"; "name" := VStr "Ann" ]}).
    reflexivity. }
  destruct (schema_invariant standard_host ann_alone H1) as (_ & _ & _ & H & _).
  apply (H github_account _ github_account). reflexivity.
Defined.

(** *** A key that is not there *)

Lemma param_missing (m : obj) k : m !! k = None → param m k = VNull.
Proof. intros H. unfold param. rewrite H. reflexivity. Qed.

Lemma merge_node_null l pat g :
  existsb (λ kv : string * value, is_null kv.2) pat = true →
  merge_node l pat g = Throw Neo4jError.
Proof. intros H. unfold merge_node. rewrite H. reflexivity. Qed.

(** X20.  The two statements that MERGE on a key need the key: where the
    input lacks [identifier] or [token], [createVerificationToken]
    throws the store's error, and where it lacks [provider] or
    [providerAccountId] and the user exists, [linkAccount] does; nothing
    is stored. *)
Theorem merge_needs_key (host : string → option Z) (data : obj) (g : graph) :
  ((∀ k, data !! k ≠ Some (VDate None)) →
   data !! "identifier" = None ∨ data !! "token" = None →
   createVerificationToken host data g = Throw Neo4jError)
  ∧ (∀ uid, data !! "userId" = Some (VStr uid) →
            match_nodes User [("id", VStr uid)] g ≠ [] →
            data !! "provider" = None ∨ data !! "providerAccountId" = None →
            linkAccount host data g = Throw Neo4jError).
Proof.
  split.
  - intros Hvalid Hkey. unfold createVerificationToken, write.
    rewrite (no_invalid_Date_serialisable data Hvalid). simpl.
    unfold createVerificationToken_stmt. rewrite merge_node_null; [reflexivity|].
    unfold token_key. simpl. destruct Hkey as [H|H].
    + rewrite (param_missing (to_field <$> data) "identifier") by (rewrite lookup_fmap, H; reflexivity).
      reflexivity.
    + rewrite (param_missing (to_field <$> data) "token") by (rewrite lookup_fmap, H; reflexivity).
      simpl. apply orb_true_r.
  - intros uid Huid Huser Hkey.
    rewrite (linkAccount_statement host data uid Huid).
    unfold linkAccount_stmt.
    change (param (link_values uid _) "userId") with (VStr uid).
    change (param_map (link_values uid _) "a") with (delete "userId" data).
    destruct (match_nodes User [("id", VStr uid)] g) as [|u rest]; [congruence|].
    simpl foldl. rewrite merge_node_null.
    + simpl. rewrite foldl_Throw by reflexivity. reflexivity.
    + unfold account_key. simpl. destruct Hkey as [H|H].
      * rewrite (param_missing _ "provider") by (rewrite lookup_delete_ne by discriminate; exact H).
        simpl. apply orb_true_r.
      * rewrite (param_missing _ "providerAccountId")
          by (rewrite lookup_delete_ne by discriminate; exact H).
        reflexivity.
Qed.

Lemma merge_needs_key_witness :
  createVerificationToken standard_host {[ "identifier" := VStr "ann@example.com" ]}
    empty_graph = Throw Neo4jError
  ∧ linkAccount standard_host {[ "userId" := VStr "u1"; "provider" := VStr "github" ]}
      ann_alone = Throw Neo4jError.
Proof.
  destruct (merge_needs_key standard_host {[ "identifier" := VStr "ann@example.com" ]}
              empty_graph) as [H1 _].
  destruct (merge_needs_key standard_host
              {[ "userId" := VStr "u1"; "provider" := VStr "github" ]} ann_alone) as [_ H2].
  split.
  - apply H1.
    + intros k Hk. apply lookup_singleton_Some in Hk as [_ [=]].
    + right. reflexivity.
  - apply (H2 "u1"); [reflexivity|discriminate|right; reflexivity].
Defined.
